(** * imap-dumper: a shallow embedding of [dump_imap.py]

    The development follows the source file top to bottom: the Python values
    the script manipulates ([str], [bytes], [int], exceptions), the library
    functions it calls (UTF-8 codec, [re.sub], [str.strip], [bytes.split],
    [strftime], [os.path.join]), then [parse_uid], [trim_file_name],
    [process], [delete] and the folder loop of [main].  The IMAP session, the
    file system and the [email] package are outside the script; they appear as
    the operations of an abstract world. *)

From Stdlib Require Import String Ascii DecimalString DecimalZ.
From Stdlib Require Import ZArith List Lia Bool FinFun.
From Equations Require Import Equations.
Import ListNotations.


Open Scope Z_scope.

(* ------------------------------------------------------------------------- *)
(** * Python values *)

(** A [str] is a sequence of Unicode code points, a [bytes] object a sequence
    of integers in [0, 255]. *)
Definition codepoint := Z.
Definition pystr := list codepoint.
Definition pybytes := list Z.

(** String literals of the source (all of them ASCII). *)
Definition lit (s : string) : pystr :=
  map (fun a => Z.of_N (N_of_ascii a)) (list_ascii_of_string s).
Arguments lit s%_string.

(** Exceptions, by class.  [LibraryError] stands for whatever a library call
    (network transport, codec registry, file system) may raise besides. *)
Inductive exn : Type :=
| FileNotFoundError
| NotADirectoryError
| OSError
| ConnectionError
| AttributeError
| IndexError
| TypeError
| UnicodeEncodeError
| UnicodeDecodeError
| RecursionError
| LibraryError (tag : nat).

(** A call either returns or raises. *)
Inductive outcome (A : Type) : Type :=
| Ok (a : A)
| Raise (e : exn).
Arguments Ok {A} a.
Arguments Raise {A} e.

(** What a Python function hands back to its caller; [process] and [delete]
    have no [return] with a value, so they hand back [None]. *)
Inductive pyvalue : Type :=
| PyNone
| PyInt (n : Z).

(** [str(n)] for an [int]. *)
Definition str_of_int (n : Z) : pystr := lit (NilZero.string_of_int (Z.to_int n)).

(** [b[:k]] and [b[:-1]]: Python slicing, a negative bound counts from the end. *)
Definition slice_to {A : Type} (l : list A) (k : Z) : list A :=
  if k <? 0 then firstn (Z.to_nat (Z.of_nat (length l) + k)) l
  else firstn (Z.to_nat k) l.

Definition py_len {A : Type} (l : list A) : Z := Z.of_nat (length l).

(* ------------------------------------------------------------------------- *)
(** * The UTF-8 codec ([str.encode('utf-8')], [bytes.decode('utf-8')]) *)

Definition is_surrogate (c : Z) : bool := (0xD800 <=? c) && (c <=? 0xDFFF).

Definition utf8_encode_cp (c : codepoint) : option pybytes :=
  if c <? 0 then None
  else if c <? 0x80 then Some [c]
  else if c <? 0x800 then Some [0xC0 + c / 64; 0x80 + c mod 64]
  else if c <? 0x10000 then
    if is_surrogate c then None
    else Some [0xE0 + c / 4096; 0x80 + (c / 64) mod 64; 0x80 + c mod 64]
  else if c <? 0x110000 then
    Some [0xF0 + c / 262144; 0x80 + (c / 4096) mod 64;
          0x80 + (c / 64) mod 64; 0x80 + c mod 64]
  else None.

(** [None] is [UnicodeEncodeError] (a lone surrogate in the string). *)
Fixpoint utf8_encode (s : pystr) : option pybytes :=
  match s with
  | [] => Some []
  | c :: s' =>
      match utf8_encode_cp c, utf8_encode s' with
      | Some b, Some bs => Some (b ++ bs)
      | _, _ => None
      end
  end.

Definition is_cont (b : Z) : bool := (0x80 <=? b) && (b <=? 0xBF).

(** Strict decoding: [None] is [UnicodeDecodeError] (stray continuation byte,
    truncated sequence, overlong form, surrogate, value above U+10FFFF). *)
Fixpoint utf8_decode (bs : pybytes) : option pystr :=
  match bs with
  | [] => Some []
  | b1 :: r1 =>
      if (0 <=? b1) && (b1 <? 0x80) then
        option_map (cons b1) (utf8_decode r1)
      else if (0xC2 <=? b1) && (b1 <=? 0xDF) then
        match r1 with
        | b2 :: r2 =>
            if is_cont b2
            then option_map (cons ((b1 - 0xC0) * 64 + (b2 - 0x80))) (utf8_decode r2)
            else None
        | _ => None
        end
      else if (0xE0 <=? b1) && (b1 <=? 0xEF) then
        match r1 with
        | b2 :: b3 :: r3 =>
            let c := (b1 - 0xE0) * 4096 + (b2 - 0x80) * 64 + (b3 - 0x80) in
            if is_cont b2 && is_cont b3 && (0x800 <=? c) && negb (is_surrogate c)
            then option_map (cons c) (utf8_decode r3)
            else None
        | _ => None
        end
      else if (0xF0 <=? b1) && (b1 <=? 0xF4) then
        match r1 with
        | b2 :: b3 :: b4 :: r4 =>
            let c := (b1 - 0xF0) * 262144 + (b2 - 0x80) * 4096
                     + (b3 - 0x80) * 64 + (b4 - 0x80) in
            if is_cont b2 && is_cont b3 && is_cont b4
               && (0x10000 <=? c) && (c <? 0x110000)
            then option_map (cons c) (utf8_decode r4)
            else None
        | _ => None
        end
      else None
  end.

(* ------------------------------------------------------------------------- *)
(** * Library functions on [str], [bytes] and paths *)

Fixpoint pystr_eqb (a b : pystr) : bool :=
  match a, b with
  | [], [] => true
  | x :: a', y :: b' => (x =? y) && pystr_eqb a' b'
  | _, _ => false
  end.

Definition mem_cp (c : codepoint) (l : list codepoint) : bool :=
  existsb (Z.eqb c) l.

(** [re.sub(r'(c1|c2|...)', '', s)] for single characters: delete them. *)
Definition re_sub_delete (chars : list codepoint) (s : pystr) : pystr :=
  filter (fun c => negb (mem_cp c chars)) s.

(** [re.sub(r'x', 'y', s)] and [s.replace('x', 'y')] for single characters. *)
Definition replace_cp (x y : codepoint) (s : pystr) : pystr :=
  map (fun c => if c =? x then y else c) s.

(** [str.isspace] for one character: the code points [str.strip()] removes. *)
Definition py_isspace (c : codepoint) : bool :=
  ((0x09 <=? c) && (c <=? 0x0D)) || ((0x1C <=? c) && (c <=? 0x20))
  || (c =? 0x85) || (c =? 0xA0) || (c =? 0x1680)
  || ((0x2000 <=? c) && (c <=? 0x200A))
  || (c =? 0x2028) || (c =? 0x2029) || (c =? 0x202F) || (c =? 0x205F)
  || (c =? 0x3000).

Fixpoint lstrip (s : pystr) : pystr :=
  match s with
  | c :: s' => if py_isspace c then lstrip s' else s
  | [] => []
  end.

Definition strip (s : pystr) : pystr := rev (lstrip (rev (lstrip s))).

(** [bytes.split()]: cut at runs of ASCII whitespace, no empty pieces. *)
Definition byte_isspace (b : Z) : bool :=
  ((0x09 <=? b) && (b <=? 0x0D)) || (b =? 0x20).

Fixpoint bytes_split_aux (cur : pybytes) (bs : pybytes) : list pybytes :=
  match bs with
  | [] => match cur with [] => [] | _ => [rev cur] end
  | b :: bs' =>
      if byte_isspace b
      then match cur with
           | [] => bytes_split_aux [] bs'
           | _ => rev cur :: bytes_split_aux [] bs'
           end
      else bytes_split_aux (b :: cur) bs'
  end.

Definition bytes_split (bs : pybytes) : list pybytes := bytes_split_aux [] bs.

(** [bytes.decode()] (UTF-8, strict). *)
Definition bytes_decode (bs : pybytes) : outcome pystr :=
  match utf8_decode bs with
  | Some s => Ok s
  | None => Raise UnicodeDecodeError
  end.

(** [os.path.join(a, b)] of [posixpath]. *)
Definition path_join (a b : pystr) : pystr :=
  match b with
  | 0x2F :: _ => b
  | _ => match a with
         | [] => b
         | _ => if last a 0 =? 0x2F then a ++ b else a ++ lit "/" ++ b
         end
  end.

(** Zero-padded decimal field of [strftime] ([%m], [%d], [%H], [%M], [%S],
    and [%Y] for the four-digit years of mail). *)
Definition pad (width : nat) (n : Z) : pystr :=
  let d := str_of_int n in
  repeat 0x30 (width - length d) ++ d.

(** The value [datetime.fromtimestamp] builds, as far as the script reads it. *)
Record datetime : Type := {
  year : Z; month : Z; day : Z; hour : Z; minute : Z; second : Z
}.

(** [datetime_.strftime('%Y-%m-%d %H:%M:%S')]. *)
Definition strftime (d : datetime) : pystr :=
  pad 4 (year d) ++ lit "-" ++ pad 2 (month d) ++ lit "-" ++ pad 2 (day d)
  ++ lit " " ++ pad 2 (hour d) ++ lit ":" ++ pad 2 (minute d) ++ lit ":"
  ++ pad 2 (second d).

(* ------------------------------------------------------------------------- *)
(** * The [email] package and [re], as the script uses them *)

(** A parsed message: what [msg['Subject']], [msg['Date']] and
    [msg['Message-ID']] give ([None] when the header is absent). *)
Record message : Type := {
  msg_subject : option pystr;
  msg_date : option pystr;
  msg_message_id : option pystr
}.

(** The 10-tuple of [email.utils.parsedate_tz]. *)
Record date_tuple : Type := {
  dt_fields : list Z;
  dt_tzoffset : option Z
}.

(** Library behaviour the script relies on and does not define. *)
Record Library : Type := {
  (** [email.message_from_bytes] and [email.message_from_string] *)
  message_from_bytes : pybytes -> outcome message;
  message_from_string : pybytes -> outcome message;
  (** [str(make_header(decode_header(v)))] for a [str] header value *)
  decode_header_str : pystr -> outcome pystr;
  (** [email.utils.parsedate_tz]: [None] when nothing parses *)
  parsedate_tz : option pystr -> outcome (option date_tuple);
  (** [email.utils.mktime_tz] *)
  mktime_tz : date_tuple -> outcome Z;
  (** [datetime.fromtimestamp], in the local time zone *)
  fromtimestamp : Z -> outcome datetime;
  (** the characters [\d] matches *)
  re_digit : codepoint -> bool
}.

(** [make_header(decode_header(v))] on the value of [msg['Subject']]:
    [decode_header] runs a regular-expression search on its argument, which
    raises [TypeError] on [None]. *)
Definition subject_header (lib : Library) (v : option pystr) : outcome pystr :=
  match v with
  | None => Raise TypeError
  | Some s => decode_header_str lib s
  end.

(* ------------------------------------------------------------------------- *)
(** * [parse_uid] (lines 14, 40-43) *)

Fixpoint span_digits (digit : codepoint -> bool) (s : pystr) : pystr * pystr :=
  match s with
  | c :: s' =>
      if digit c
      then let '(d, r) := span_digits digit s' in (c :: d, r)
      else ([], s)
  | [] => ([], [])
  end.

Fixpoint strip_prefix (p s : pystr) : option pystr :=
  match p, s with
  | [], _ => Some s
  | x :: p', y :: s' => if x =? y then strip_prefix p' s' else None
  | _ :: _, [] => None
  end.

(** [PATTERN_UID.match(data).group('uid')]; without a match, [match] is
    [None] and [.group] raises [AttributeError]. *)
Definition parse_uid (lib : Library) (data : pystr) : outcome pystr :=
  let '(seq_digits, r1) := span_digits (re_digit lib) data in
  match seq_digits with
  | [] => Raise AttributeError
  | _ =>
      match strip_prefix (lit " (UID ") r1 with
      | None => Raise AttributeError
      | Some r2 =>
          let '(uid, r3) := span_digits (re_digit lib) r2 in
          match uid, r3 with
          | _ :: _, 0x29 :: _ => Ok uid
          | _, _ => Raise AttributeError
          end
      end
  end.

(* ------------------------------------------------------------------------- *)
(** * [trim_file_name] (lines 54-83) *)

Definition inspect {A : Type} (a : A) : {b : A | a = b} := exist _ a eq_refl.

(** The [while True] loop of lines 75-81: decode, and on [UnicodeDecodeError]
    drop the last byte and try again. *)
Equations decode_loop (filename_bytes : pybytes) : pystr
  by wf (length filename_bytes) lt :=
  decode_loop filename_bytes with inspect (utf8_decode filename_bytes) := {
    | exist _ (Some filename) _ => filename
    | exist _ None H => decode_loop (removelast filename_bytes) }.
Next Obligation.
  destruct filename_bytes as [|b r]; [discriminate|].
  assert (N : b :: r <> []) by discriminate.
  rewrite (app_removelast_last 0 N) at 2.
  rewrite length_app. simpl. lia.
Qed.

(** [max_length] is the value of [os.pathconf(output_dir, 'PC_NAME_MAX')],
    which [process] reads from the file system before it calls this. *)
Definition trim_file_name (max_length : Z) (filename file_ext : pystr)
  : outcome pystr :=
  match utf8_encode filename with
  | None => Raise UnicodeEncodeError
  | Some filename_bytes =>
      match utf8_encode file_ext with
      | None => Raise UnicodeEncodeError
      | Some ext_bytes =>
          let max_main_bytes := max_length - py_len ext_bytes - 1 in
          if py_len filename_bytes >? max_main_bytes
          then Ok (decode_loop (slice_to filename_bytes max_main_bytes))
          else Ok filename
      end
  end.


(* ------------------------------------------------------------------------- *)
(** * The world outside the script *)

(** The IMAP connection ([imaplib.IMAP4_SSL]) over a world state [W].  Every
    call may raise, and may change the mailbox.  A response is the status
    string ['OK'], ['NO'], ... and, where the script reads one, the payload:
    [data[0]] for [search] and for [fetch(num, '(UID)')], [data[0][1]] for
    [fetch(num, '(RFC822)')]. *)
Record Session (W : Type) : Type := {
  mail_search : W -> outcome (pystr * pybytes) * W;
  mail_fetch : pybytes -> pystr -> W -> outcome (pystr * pybytes) * W;
  mail_uid : pystr -> list pystr -> W -> outcome pystr * W;
  mail_expunge : W -> outcome unit * W;
  mail_select : pystr -> W -> outcome pystr * W;
  mail_close : W -> outcome unit * W;
  mail_logout : W -> outcome unit * W
}.
Arguments mail_search {W} _ _.
Arguments mail_fetch {W} _ _ _ _.
Arguments mail_uid {W} _ _ _ _.
Arguments mail_expunge {W} _ _.
Arguments mail_select {W} _ _ _.
Arguments mail_close {W} _ _.
Arguments mail_logout {W} _ _.

(** The file system ([os], [os.path], [open]). *)
Record FileSystem (W : Type) : Type := {
  os_isdir : pystr -> W -> bool;
  os_abspath : pystr -> W -> pystr;
  os_makedirs : pystr -> W -> outcome unit * W;
  os_pathconf_name_max : pystr -> W -> outcome Z;
  fs_open_wb : pystr -> W -> outcome unit * W;
  fs_write : pystr -> pybytes -> W -> outcome unit * W
}.
Arguments os_isdir {W} _ _ _.
Arguments os_abspath {W} _ _ _.
Arguments os_makedirs {W} _ _ _.
Arguments os_pathconf_name_max {W} _ _ _.
Arguments fs_open_wb {W} _ _ _.
Arguments fs_write {W} _ _ _ _.

(** The command line ([args], lines 16-37), as far as the export reads it. *)
Record Args : Type := {
  local_folder : pystr;
  delete_remote : option pystr;
  trash_folder : pystr
}.

(** What the script does to the world, in order.  Calls whose answer the
    script reads carry the answer.  Printed text is recorded without its
    colour codes. *)
Inductive event : Type :=
| EvPrint (text : pystr)
| EvSearch (resp : outcome (pystr * pybytes))
| EvCheckLocalFolder (path : pystr) (found : bool)
| EvFetchMessage (num : pybytes) (resp : outcome (pystr * pybytes))
| EvFetchUid (num : pybytes) (resp : outcome (pystr * pybytes))
| EvIsdir (path : pystr) (found : bool)
| EvMakedirs (path : pystr)
| EvPathconf (path : pystr)
| EvOpen (path : pystr)
| EvWrite (path : pystr) (content : pybytes)
| EvUid (command : pystr) (arguments : list pystr) (resp : outcome pystr)
| EvExpunge
| EvSelect (folder : pystr) (resp : outcome pystr)
| EvClose
| EvLogout
| EvReportError (e : exn).

(* ------------------------------------------------------------------------- *)
(** * Statements: world passing, exceptions and the trace of events *)

Definition M (W A : Type) : Type := W -> outcome A * W * list event.

Definition ret {W A : Type} (a : A) : M W A := fun w => (Ok a, w, []).

Definition raise {W A : Type} (e : exn) : M W A := fun w => (Raise e, w, []).

Definition bind {W A B : Type} (m : M W A) (k : A -> M W B) : M W B :=
  fun w =>
    match m w with
    | (Ok a, w1, t1) => let '(r, w2, t2) := k a w1 in (r, w2, t1 ++ t2)
    | (Raise e, w1, t1) => (Raise e, w1, t1)
    end.

(** [try: m except: h] with a bare [except], which catches everything. *)
Definition try_except {W A : Type} (m : M W A) (h : exn -> M W A) : M W A :=
  fun w =>
    match m w with
    | (Ok a, w1, t1) => (Ok a, w1, t1)
    | (Raise e, w1, t1) => let '(r, w2, t2) := h e w1 in (r, w2, t1 ++ t2)
    end.

(** [try: m finally: f]. *)
Definition try_finally {W A : Type} (m : M W A) (f : M W unit) : M W A :=
  fun w =>
    match m w with
    | (r, w1, t1) =>
        match f w1 with
        | (Ok _, w2, t2) => (r, w2, t1 ++ t2)
        | (Raise e, w2, t2) => (Raise e, w2, t1 ++ t2)
        end
    end.

(** A value computed without touching the world (it may still raise). *)
Definition lift {W A : Type} (r : outcome A) : M W A := fun w => (r, w, []).

(** A call into the world, recorded with its answer. *)
Definition call {W A : Type} (op : W -> outcome A * W) (ev : outcome A -> event)
  : M W A :=
  fun w => let '(r, w1) := op w in (r, w1, [ev r]).

(** A query that cannot raise and changes nothing. *)
Definition query {W A : Type} (q : W -> A) (ev : A -> event) : M W A :=
  fun w => let a := q w in (Ok a, w, [ev a]).

Definition print {W : Type} (text : pystr) : M W unit :=
  fun w => (Ok tt, w, [EvPrint text]).

Declare Scope py_scope.
Delimit Scope py_scope with py.
Notation "x <- m ;; k" := (bind m (fun x => k))
  (at level 61, m at next level, right associativity) : py_scope.
Notation "' p <- m ;; k" := (bind m (fun x => let p := x in k))
  (at level 61, p pattern, m at next level, right associativity) : py_scope.
Notation "m ;;; k" := (bind m (fun _ => k))
  (at level 61, right associativity) : py_scope.

Definition peek {W A : Type} (q : W -> A) : M W A := fun w => (Ok (q w), w, []).

Open Scope py_scope.

(* ------------------------------------------------------------------------- *)
(** * Metadata and file name of one message (lines 105-146) *)

(** Lines 105-108: [message_from_bytes], and under a bare [except]
    [message_from_string] on the same object. *)
Definition parse_message (lib : Library) (raw : pybytes) : outcome message :=
  match message_from_bytes lib raw with
  | Ok msg => Ok msg
  | Raise _ => message_from_string lib raw
  end.

(** The variables [subject], [date] and [message_id] after the [try] block.
    A variable that may hold [None] is an [option]. *)
Record metadata : Type := {
  md_subject : option pystr;
  md_date : pystr;
  md_message_id : option pystr
}.

(** Lines 111-129.  One [try] block covers the three extractions, in the
    order subject, date, message id; an exception leaves the variables not
    yet assigned at their initial values. *)
Definition extract_metadata (lib : Library) (msg : message) : metadata :=
  let subject := Some (lit "No subject") in
  let date := [] in
  let message_id := Some [] in
  match subject_header lib (msg_subject msg) with
  | Raise _ => {| md_subject := subject; md_date := date; md_message_id := message_id |}
  | Ok header =>
      let subject := Some header in
      match parsedate_tz lib (msg_date msg) with
      | Raise _ =>
          {| md_subject := subject; md_date := date; md_message_id := message_id |}
      | Ok None =>
          {| md_subject := subject; md_date := date;
             md_message_id := msg_message_id msg |}
      | Ok (Some date_tuple) =>
          match mktime_tz lib date_tuple with
          | Raise _ =>
              {| md_subject := subject; md_date := date; md_message_id := message_id |}
          | Ok timestamp =>
              match fromtimestamp lib timestamp with
              | Raise _ =>
                  {| md_subject := subject; md_date := date;
                     md_message_id := message_id |}
              | Ok datetime_ =>
                  {| md_subject := subject;
                     md_date := strftime datetime_ ++ lit " - ";
                     md_message_id := msg_message_id msg |}
              end
          end
      end
  end.

(** [not v] for a value that is a [str] or [None]. *)
Definition py_not (v : option pystr) : bool :=
  match v with
  | None | Some [] => true
  | Some (_ :: _) => false
  end.

(** Line 132-133, the test [subject is None] and its assignment. *)
Definition subject_or_default (subject : option pystr) : pystr :=
  match subject with
  | None => lit "No Subject"
  | Some s => s
  end.

(** Lines 136-138: the counter and the identifier after the test. *)
Definition message_id_or_counter (unknown_message_id_counter : Z)
  (message_id : option pystr) : Z * pystr :=
  match message_id with
  | Some (c :: s) => (unknown_message_id_counter, c :: s)
  | _ => (unknown_message_id_counter + 1,
          str_of_int (unknown_message_id_counter + 1))
  end.

(** Lines 142-143 and 144: the two sanitisations. *)
Definition sanitize_subject (subject : pystr) : pystr :=
  strip (replace_cp 0x2F 0x2D (re_sub_delete [0x0A; 0x0D; 0x22] subject)).

Definition sanitize_message_id (message_id : pystr) : pystr :=
  re_sub_delete [0x3C; 0x3E; 0x24; 0x5C; 0x2F] message_id.

(** Lines 111-146: the counter after this message and [file] before it is
    trimmed. *)
Definition compose_name (lib : Library) (unknown_message_id_counter : Z)
  (msg : message) : Z * pystr :=
  let md := extract_metadata lib msg in
  let subject := subject_or_default (md_subject md) in
  let date := match md_date md with [] => lit "Unknown Date" | d => d end in
  let '(counter, message_id) :=
    message_id_or_counter unknown_message_id_counter (md_message_id md) in
  let subject := sanitize_subject subject in
  let message_id := sanitize_message_id message_id in
  (counter, date ++ message_id ++ lit " - " ++ subject).

Definition FILENAME_EXT : pystr := lit "eml".

(* ------------------------------------------------------------------------- *)
(** * [fetch_message], [fetch_uid], [delete], [process] and [main] *)

Record folder_entry : Type := {
  original : pystr;
  lower : pystr
}.

Section Program.
Context {W : Type}.
Variable mail : Session W.
Variable fs : FileSystem W.
Variable lib : Library.
Variable args : Args.
(** How many nested activations of [delete] the interpreter's recursion
    limit still admits where [process] calls it. *)
Variable stack_room : nat.

Definition is_ok (rv : pystr) : bool := pystr_eqb rv (lit "OK").

(** Lines 46-47. *)
Definition fetch_message (num : pybytes) : M W (pystr * pybytes) :=
  call (mail_fetch mail num (lit "(RFC822)")) (EvFetchMessage num).

(** Lines 50-51. *)
Definition fetch_uid (num : pybytes) : M W (pystr * pybytes) :=
  call (mail_fetch mail num (lit "(UID)")) (EvFetchUid num).

(** The body of the [try] of [delete], lines 172-183: one attempt. *)
Definition delete_attempt (num : pybytes) : M W pyvalue :=
  ' (rv, data0) <- fetch_uid num ;;
  text <- lift (bytes_decode data0) ;;
  msg_uid <- lift (parse_uid lib text) ;;
  let copy_args := [msg_uid; trash_folder args] in
  result0 <- call (mail_uid mail (lit "COPY") copy_args)
                  (EvUid (lit "COPY") copy_args) ;;
  if is_ok result0 then
    let store_args := [msg_uid; lit "+FLAGS"; lit "(\Deleted)"] in
    _ <- call (mail_uid mail (lit "STORE") store_args)
              (EvUid (lit "STORE") store_args) ;;
    _ <- call (mail_expunge mail) (fun _ => EvExpunge) ;;
    print (lit "Ok.") ;;;
    ret PyNone
  else
    print (lit "Failed!") ;;;
    ret PyNone.

(** Lines 168-185.  The retry is a call of [delete] from its own [except]
    clause, so every retry is one activation deeper; [room] counts the
    activations the interpreter still admits, and a call with none left
    raises [RecursionError] at the call. *)
Fixpoint delete (room : nat) (num : pybytes) : M W pyvalue :=
  match room with
  | O => raise RecursionError
  | S room' =>
      print (lit " Deleting... ") ;;;
      try_except (delete_attempt num) (fun _ => delete room' num)
  end.

(** The body of the [for] loop of [process], lines 99-165; it gives the
    counter back for the next round. *)
Definition process_message (folder : pystr) (unknown_message_id_counter : Z)
  (num : pybytes) : M W Z :=
  output_dir <- peek (os_abspath fs (local_folder args)) ;;
  ' (rv, raw) <- fetch_message num ;;
  if negb (is_ok rv) then raise OSError
  else
    msg <- lift (parse_message lib raw) ;;
    let '(counter, file) := compose_name lib unknown_message_id_counter msg in
    let final_dir := path_join output_dir (re_sub_delete [0x22] folder) in
    found <- query (os_isdir fs final_dir) (EvIsdir final_dir) ;;
    (if found then ret tt
     else call (os_makedirs fs final_dir) (fun _ => EvMakedirs final_dir)) ;;;
    max_length <- call (fun w => (os_pathconf_name_max fs final_dir w, w))
                       (fun _ => EvPathconf final_dir) ;;
    file <- lift (trim_file_name max_length file FILENAME_EXT) ;;
    print ([0x09] ++ lit "Writing message at " ++ [0x22] ++ file
           ++ [0x22] ++ lit "... ") ;;;
    let path := final_dir ++ lit "/" ++ file ++ lit "." ++ FILENAME_EXT in
    call (fs_open_wb fs path) (fun _ => EvOpen path) ;;;
    call (fs_write fs path raw) (fun _ => EvWrite path raw) ;;;
    print (lit "Done.") ;;;
    (match delete_remote args with
     | None => ret PyNone
     | Some _ => delete stack_room num
     end) ;;;
    ret counter.

Fixpoint process_loop (folder : pystr) (unknown_message_id_counter : Z)
  (nums : list pybytes) : M W Z :=
  match nums with
  | [] => ret unknown_message_id_counter
  | num :: rest =>
      counter <- process_message folder unknown_message_id_counter num ;;
      process_loop folder counter rest
  end.

(** Lines 86-165.  There is no [return] statement: a call that does not
    raise gives [None]. *)
Definition process (folder : pystr) : M W pyvalue :=
  ' (rv, data0) <- call (mail_search mail) EvSearch ;;
  if negb (is_ok rv) then raise FileNotFoundError
  else
    print (str_of_int (py_len data0) ++ lit " messages found!") ;;;
    found <- query (os_isdir fs (local_folder args))
                   (EvCheckLocalFolder (local_folder args)) ;;
    if negb found then raise NotADirectoryError
    else
      _ <- process_loop folder 0 (bytes_split data0) ;;
      ret PyNone.

(** The loop of [main] over the requested folders, lines 227-241;
    [remote_folders_map] and the list [remote_folder] are what lines
    197-226 computed from the server's folder list and the command line. *)
Fixpoint main_folders (remote_folders_map : list folder_entry)
  (remote_folder : list pystr) : M W unit :=
  match remote_folder with
  | [] => ret tt
  | folder :: rest =>
      print folder ;;;
      match filter (fun f => pystr_eqb (lower f) folder) remote_folders_map with
      | [] => raise IndexError
      | f :: _ =>
          let folder := original f in
          rv <- call (mail_select mail folder) (EvSelect folder) ;;
          if is_ok rv then
            print (lit "Processing mailbox: " ++ folder) ;;;
            process folder ;;;
            call (mail_close mail) (fun _ => EvClose) ;;;
            main_folders remote_folders_map rest
          else raise ConnectionError
      end
  end.

(** The [try] / [except BaseException] / [finally] of [main], lines 194 and
    242-249, around the folder loop: the top-level handler reports the
    exception, and the connection is logged out either way. *)
Definition main_export (remote_folders_map : list folder_entry)
  (remote_folder : list pystr) : M W unit :=
  try_finally
    (try_except (main_folders remote_folders_map remote_folder)
                (fun e => fun w => (Ok tt, w, [EvReportError e])))
    (call (mail_logout mail) (fun _ => EvLogout)).

End Program.

(* ------------------------------------------------------------------------- *)
(** * Reading a trace *)

(** The byte strings handed to [f.write], in order. *)
Definition written (t : list event) : list pybytes :=
  flat_map (fun e => match e with EvWrite _ content => [content] | _ => [] end) t.

(** The payloads of the message fetches that reported ['OK'], in order. *)
Definition fetched_ok (t : list event) : list pybytes :=
  flat_map (fun e => match e with
                     | EvFetchMessage _ (Ok (rv, raw)) =>
                         if pystr_eqb rv (lit "OK") then [raw] else []
                     | _ => []
                     end) t.

(** How often the configured local folder was validated (line 94). *)
Definition local_folder_checks (t : list event) : nat :=
  length (filter (fun e => match e with EvCheckLocalFolder _ _ => true
                                      | _ => false end) t).

(** How often a message fetch was issued. *)
Definition message_fetches (t : list event) : nat :=
  length (filter (fun e => match e with EvFetchMessage _ _ => true
                                      | _ => false end) t).

(** How often [delete] started an attempt: each one begins with the UID
    fetch of line 172. *)
Definition delete_attempts (t : list event) : nat :=
  length (filter (fun e => match e with EvFetchUid _ _ => true
                                      | _ => false end) t).

(** The exceptions that reached the top-level handler of [main]. *)
Definition reported (t : list event) : list exn :=
  flat_map (fun e => match e with EvReportError x => [x] | _ => [] end) t.

(** The flag setting and the expunge of lines 178-179. *)
Definition is_store_or_expunge (e : event) : bool :=
  match e with
  | EvExpunge => true
  | EvUid command _ _ => pystr_eqb command (lit "STORE")
  | _ => false
  end.

(** The status the trash copy of line 175 reported, if it was issued and
    returned. *)
Definition copy_status (e : event) : option pystr :=
  match e with
  | EvUid command _ (Ok status) =>
      if pystr_eqb command (lit "COPY") then Some status else None
  | _ => None
  end.

(** The paths of the files written, in order. *)
Definition written_paths (t : list event) : list pystr :=
  flat_map (fun e => match e with EvWrite path _ => [path] | _ => [] end) t.

(** A trace without events of the export proper: no message fetch, no
    write, no validation of the local folder. *)
Definition export_free (t : list event) : Prop :=
  written t = [] /\ fetched_ok t = [] /\
  local_folder_checks t = 0%nat /\ message_fetches t = 0%nat /\
  written_paths t = [].

(** The directory a folder's messages go to (line 149). *)
Definition final_dir_of {W : Type} (fs : FileSystem W) (args : Args)
  (folder : pystr) (w : W) : pystr :=
  path_join (os_abspath fs (local_folder args) w) (re_sub_delete [0x22] folder).

(* ------------------------------------------------------------------------- *)
(** * The naming of a folder's messages, without the effects *)

(** The values of [file] that the loop of [process] composes for the
    messages of one folder, the counter going from one to the next. *)
Fixpoint name_messages (lib : Library) (unknown_message_id_counter : Z)
  (msgs : list message) : list pystr :=
  match msgs with
  | [] => []
  | msg :: rest =>
      let '(counter, file) := compose_name lib unknown_message_id_counter msg in
      file :: name_messages lib counter rest
  end.

(** The counter after the loop. *)
Fixpoint counter_after (lib : Library) (unknown_message_id_counter : Z)
  (msgs : list message) : Z :=
  match msgs with
  | [] => unknown_message_id_counter
  | msg :: rest =>
      counter_after lib (fst (compose_name lib unknown_message_id_counter msg)) rest
  end.

(** The test of line 136 on a message: it has no usable identifier. *)
Definition lacks_message_id (lib : Library) (msg : message) : bool :=
  py_not (md_message_id (extract_metadata lib msg)).

(** The counter values substituted for identifiers (line 138), in order. *)
Fixpoint unknown_ids (lib : Library) (unknown_message_id_counter : Z)
  (msgs : list message) : list Z :=
  match msgs with
  | [] => []
  | msg :: rest =>
      let counter := fst (compose_name lib unknown_message_id_counter msg) in
      if lacks_message_id lib msg
      then counter :: unknown_ids lib counter rest
      else unknown_ids lib counter rest
  end.

(** [path] is where a message composed as [file] is written: the folder's
    directory, the trimmed name, the extension (lines 154 and 158). *)
Definition stored_as (path file : pystr) : Prop :=
  exists (dir : pystr) (max_length : Z) (name : pystr),
    trim_file_name max_length file FILENAME_EXT = Ok name /\
    path = dir ++ lit "/" ++ name ++ lit "." ++ FILENAME_EXT.

(* ------------------------------------------------------------------------- *)
(** * A small mailbox to run the script on *)

Module Demo.

(** The file system keeps its directories and the files written; the
    mailbox is fixed, and [uid_lookup_fails] makes every UID fetch raise. *)
Record world : Type := {
  dirs : list pystr;
  files : list (pystr * pybytes);
  uid_lookup_fails : bool
}.

Definition date_a : pystr := lit "Mon, 01 Jan 2024 10:00:00 +0000".

(** Message A has all three headers, B has none, C has no Subject. *)
Definition msg_a : message :=
  {| msg_subject := Some (lit "Test"); msg_date := Some date_a;
     msg_message_id := Some (lit "<a1>") |}.
Definition msg_b : message :=
  {| msg_subject := None; msg_date := None; msg_message_id := None |}.
Definition msg_c : message :=
  {| msg_subject := None; msg_date := Some date_a;
     msg_message_id := Some (lit "<c3>") |}.

Definition raw_a : pybytes := lit "Date, Message-ID, Subject: Test".
Definition raw_b : pybytes := lit "no headers".
Definition raw_c : pybytes := lit "Date, Message-ID".

Definition library : Library :=
  {| message_from_bytes := fun raw =>
       if pystr_eqb raw raw_a then Ok msg_a
       else if pystr_eqb raw raw_b then Ok msg_b
       else if pystr_eqb raw raw_c then Ok msg_c
       else Raise (LibraryError 0);
     message_from_string := fun _ => Raise TypeError;
     decode_header_str := fun v => Ok v;
     parsedate_tz := fun v =>
       match v with
       | Some d =>
           if pystr_eqb d date_a
           then Ok (Some {| dt_fields := [2024; 1; 1; 10; 0; 0; 0; 1; -1];
                            dt_tzoffset := Some 0 |})
           else Ok None
       | None => Ok None
       end;
     mktime_tz := fun _ => Ok 1704103200;
     fromtimestamp := fun _ =>
       Ok {| year := 2024; month := 1; day := 1;
             hour := 10; minute := 0; second := 0 |};
     re_digit := fun c => (0x30 <=? c) && (c <=? 0x39) |}.

Definition session : Session world :=
  {| mail_search := fun w => (Ok (lit "OK", lit "1 2 3"), w);
     mail_fetch := fun num parts w =>
       if pystr_eqb parts (lit "(RFC822)") then
         if pystr_eqb num (lit "1") then (Ok (lit "OK", raw_a), w)
         else if pystr_eqb num (lit "2") then (Ok (lit "OK", raw_b), w)
         else if pystr_eqb num (lit "3") then (Ok (lit "OK", raw_c), w)
         else (Ok (lit "NO", []), w)
       else if uid_lookup_fails w then (Raise (LibraryError 1), w)
       else (Ok (lit "OK", num ++ lit " (UID 7" ++ num ++ lit ")"), w);
     mail_uid := fun _ _ w => (Ok (lit "OK"), w);
     mail_expunge := fun w => (Ok tt, w);
     mail_select := fun _ w => (Ok (lit "OK"), w);
     mail_close := fun w => (Ok tt, w);
     mail_logout := fun w => (Ok tt, w) |}.

Definition file_system : FileSystem world :=
  {| os_isdir := fun p w => existsb (pystr_eqb p) (dirs w);
     os_abspath := fun p _ => p;
     os_makedirs := fun p w =>
       (Ok tt, {| dirs := p :: dirs w; files := files w;
                  uid_lookup_fails := uid_lookup_fails w |});
     os_pathconf_name_max := fun _ _ => Ok 255;
     fs_open_wb := fun _ w => (Ok tt, w);
     fs_write := fun p content w =>
       (Ok tt, {| dirs := dirs w; files := files w ++ [(p, content)];
                  uid_lookup_fails := uid_lookup_fails w |}) |}.

Definition args_keep : Args :=
  {| local_folder := lit "/out"; delete_remote := None;
     trash_folder := lit "Trash" |}.

Definition args_delete : Args :=
  {| local_folder := lit "/out"; delete_remote := Some (lit "delete");
     trash_folder := lit "Trash" |}.

Definition start : world :=
  {| dirs := [lit "/out"]; files := []; uid_lookup_fails := false |}.

Definition start_uid_broken : world :=
  {| dirs := [lit "/out"]; files := []; uid_lookup_fails := true |}.

Definition folders_map : list folder_entry :=
  [ {| original := lit "INBOX"; lower := lit "inbox" |};
    {| original := lit "Sent"; lower := lit "sent" |} ].

End Demo.

(* ------------------------------------------------------------------------- *)
(** * Reading the delete sequence *)

(** In the events of one attempt, flag setting and expunge come only behind
    a trash copy that reported ['OK'], and not at all when the copy
    reported something else. *)
Definition copy_gated (attempt : list event) : Prop :=
  (existsb is_store_or_expunge attempt = true ->
   exists (pre post : list event) (c : event) (status : pystr),
     attempt = pre ++ c :: post /\ copy_status c = Some status /\
     is_ok status = true /\
     existsb is_store_or_expunge pre = false) /\
  (forall (c : event) (status : pystr),
      In c attempt -> copy_status c = Some status ->
      is_ok status = false ->
      existsb is_store_or_expunge attempt = false).

(* ------------------------------------------------------------------------- *)
(** * More of the demo mailbox *)

(** The demo library with a [mktime_tz] that overflows on every date. *)
Definition overflow_library : Library :=
  {| message_from_bytes := message_from_bytes Demo.library;
     message_from_string := message_from_string Demo.library;
     decode_header_str := decode_header_str Demo.library;
     parsedate_tz := parsedate_tz Demo.library;
     mktime_tz := fun _ => Raise (LibraryError 2);
     fromtimestamp := fromtimestamp Demo.library;
     re_digit := re_digit Demo.library |}.

(* ------------------------------------------------------------------------- *)
(** * Reading a trace: the order of events *)

(** An event that changes or addresses the mailbox for a deletion: the UID
    fetch, a UID command (COPY, STORE), the expunge. *)
Definition is_delete_event (e : event) : bool :=
  match e with
  | EvFetchUid _ _ | EvUid _ _ _ | EvExpunge => true
  | _ => false
  end.

(** Where the export is: the sequence number of the message fetch issued
    last, and whether a write was issued since that fetch. *)
Definition export_state : Type := option (pybytes * bool).

Definition track (s : export_state) (e : event) : export_state :=
  match e with
  | EvFetchMessage num _ => Some (num, false)
  | EvWrite _ _ =>
      match s with
      | Some (num, _) => Some (num, true)
      | None => None
      end
  | _ => s
  end.

(** A UID fetch is in order when it carries the sequence number fetched
    last and a write was issued since that fetch; a UID command and an
    expunge when a write was issued since the last message fetch. *)
Definition in_order (s : export_state) (e : event) : bool :=
  match e with
  | EvFetchUid num _ =>
      match s with
      | Some (current, true) => pystr_eqb current num
      | _ => false
      end
  | EvUid _ _ _ | EvExpunge =>
      match s with
      | Some (_, true) => true
      | _ => false
      end
  | _ => true
  end.

Fixpoint deletes_follow_writes (s : export_state) (t : list event) : bool :=
  match t with
  | [] => true
  | e :: t' => in_order s e && deletes_follow_writes (track s e) t'
  end.

(** A message fetch that did not return with status ['OK']. *)
Definition fetch_failed (resp : outcome (pystr * pybytes)) : bool :=
  match resp with
  | Ok (rv, _) => negb (is_ok rv)
  | Raise _ => true
  end.

(** Nothing follows a message fetch that failed. *)
Fixpoint failed_fetch_is_last (t : list event) : bool :=
  match t with
  | [] => true
  | EvFetchMessage _ resp :: t' =>
      if fetch_failed resp
      then match t' with [] => true | _ :: _ => false end
      else failed_fetch_is_last t'
  | _ :: t' => failed_fetch_is_last t'
  end.

(** The UID commands of one attempt of [delete] on message [num] address
    the UID that the answer to the attempt's UID fetch holds, and the copy
    goes to the configured trash folder. *)
Definition uid_commands_on_target (lib : Library) (args : Args)
  (num : pybytes) (attempt : list event) : Prop :=
  forall (command : pystr) (arguments : list pystr) (resp : outcome pystr),
    In (EvUid command arguments resp) attempt ->
    exists (rv : pystr) (data0 : pybytes) (text uid : pystr),
      In (EvFetchUid num (Ok (rv, data0))) attempt /\
      bytes_decode data0 = Ok text /\ parse_uid lib text = Ok uid /\
      ((command = lit "COPY" /\ arguments = [uid; trash_folder args]) \/
       (command = lit "STORE" /\
        arguments = [uid; lit "+FLAGS"; lit "(\Deleted)"])).

(** An attempt that returns ran to its end: behind a copy that reported
    ['OK'] the flag setting, the expunge and ['Ok.']; behind any other
    answer ['Failed!'] alone. *)
Definition complete_attempt_end (args : Args) (t : list event) : Prop :=
  exists (before : list event) (uid status : pystr),
    (is_ok status = true /\
     exists stored : pystr,
       t = before ++
           [EvUid (lit "COPY") [uid; trash_folder args] (Ok status);
            EvUid (lit "STORE") [uid; lit "+FLAGS"; lit "(\Deleted)"] (Ok stored);
            EvExpunge; EvPrint (lit "Ok.")]) \/
    (is_ok status = false /\
     t = before ++
         [EvUid (lit "COPY") [uid; trash_folder args] (Ok status);
          EvPrint (lit "Failed!")]).

(* ------------------------------------------------------------------------- *)
(** * The rest of [main] (lines 194-226) *)

(** [s.split(sep)] for a non-empty separator: the pieces between the
    occurrences of [sep], found from the left without overlap.  [skip]
    counts the characters of an occurrence still to pass. *)
Fixpoint str_split_aux (sep : pystr) (skip : nat) (cur : pystr) (s : pystr)
  : list pystr :=
  match s with
  | [] => [rev cur]
  | c :: s' =>
      match skip with
      | S k => str_split_aux sep k cur s'
      | O =>
          match strip_prefix sep s with
          | Some _ => rev cur :: str_split_aux sep (length sep - 1) [] s'
          | None => str_split_aux sep 0 (c :: cur) s'
          end
      end
  end.

Definition str_split (sep s : pystr) : list pystr := str_split_aux sep 0 [] s.

(** The separator of lines 201, 210 and 214: blank, quoted dot, blank. *)
Definition LIST_SEPARATOR : pystr := [0x20; 0x22; 0x2E; 0x22; 0x20].

(** [folder.decode().split(' "." ')[1]] on one line of the folder listing;
    a line without the separator has no second piece, and the index raises
    [IndexError]. *)
Definition listed_name (line : pybytes) : outcome pystr :=
  match bytes_decode line with
  | Raise e => Raise e
  | Ok text =>
      match str_split LIST_SEPARATOR text with
      | _ :: name :: _ => Ok name
      | _ => Raise IndexError
      end
  end.

(** The log-in and the folder listing of the connection. *)
Record Account (W : Type) : Type := {
  mail_login : W -> outcome unit * W;
  mail_list : W -> outcome (list pybytes) * W
}.
Arguments mail_login {W} _ _.
Arguments mail_list {W} _ _.

(** The rest of the command line: [args.list] and [args.remote_folder]. *)
Record ListArgs : Type := {
  list_only : option pystr;
  remote_folder : pystr
}.

(** A call into the world that the trace does not record. *)
Definition call_unrecorded {W A : Type} (op : W -> outcome A * W) : M W A :=
  fun w => let '(r, w1) := op w in (r, w1, []).

Section Main.
Context {W : Type}.
Variable mail : Session W.
Variable account : Account W.
Variable fs : FileSystem W.
Variable lib : Library.
Variable args : Args.
Variable list_args : ListArgs.
Variable stack_room : nat.
(** [str.lower], and the text [print] shows for a list of strings. *)
Variable str_lower : pystr -> pystr.
Variable list_repr : list pystr -> pystr.

(** Lines 198-206: the map from the listing, in the order of the listing. *)
Fixpoint build_folders_map (remote_folders : list pybytes)
  : outcome (list folder_entry) :=
  match remote_folders with
  | [] => Ok []
  | line :: rest =>
      match listed_name line with
      | Raise e => Raise e
      | Ok name =>
          match build_folders_map rest with
          | Raise e => Raise e
          | Ok entries =>
              Ok ({| original := name; lower := strip (str_lower name) |}
                    :: entries)
          end
      end
  end.

(** Lines 209-210: the names of the listing, printed one by one. *)
Fixpoint print_listing (remote_folders : list pybytes) : M W unit :=
  match remote_folders with
  | [] => ret tt
  | line :: rest =>
      name <- lift (listed_name line) ;;
      print name ;;;
      print_listing rest
  end.

(** Lines 214-215: under the wild card, every listed name in lower case. *)
Fixpoint wildcard_names (remote_folders : list pybytes)
  : outcome (list pystr) :=
  match remote_folders with
  | [] => Ok []
  | line :: rest =>
      match listed_name line with
      | Raise e => Raise e
      | Ok name =>
          match wildcard_names rest with
          | Raise e => Raise e
          | Ok names => Ok (str_lower name :: names)
          end
      end
  end.

(** Lines 217-218: the requested names, lower case, cut at commas,
    stripped. *)
Definition requested_names : list pystr :=
  map strip (str_split [0x2C] (str_lower (remote_folder list_args))).

(** Lines 220-223: some requested name is no [lower] of the map. *)
Definition some_name_unknown (names : list pystr)
  (remote_folders_map : list folder_entry) : bool :=
  existsb (fun name =>
             negb (existsb (fun f => pystr_eqb (lower f) name)
                           remote_folders_map))
          names.

(** Lines 195-241: the body of the [try] of [main]. *)
Definition main_body : M W unit :=
  call_unrecorded (mail_login account) ;;;
  remote_folders <- call_unrecorded (mail_list account) ;;
  remote_folders_map <- lift (build_folders_map remote_folders) ;;
  match list_only list_args with
  | Some _ => print_listing remote_folders
  | None =>
      print (remote_folder list_args) ;;;
      names <- (if pystr_eqb (remote_folder list_args) (lit "*")
                then lift (wildcard_names remote_folders)
                else
                  if some_name_unknown requested_names remote_folders_map
                  then raise AttributeError
                  else ret requested_names) ;;
      print (list_repr names) ;;;
      main_folders mail fs lib args stack_room remote_folders_map names
  end.

(** Lines 194-249: [main] from its [try] on; the password prompt and the
    connection of lines 189-192 come before.  The last [print] shows the
    colour reset alone, an empty text here. *)
Definition main : M W unit :=
  try_finally
    (try_except main_body (fun e => fun w => (Ok tt, w, [EvReportError e])))
    (call (mail_logout mail) (fun _ => EvLogout) ;;; print []).

End Main.

(** How often the connection was logged out, and how often a folder was
    selected. *)
Definition logouts (t : list event) : nat :=
  length (filter (fun e => match e with EvLogout => true | _ => false end) t).

Definition selections (t : list event) : list pystr :=
  flat_map (fun e => match e with EvSelect folder _ => [folder] | _ => [] end) t.

(** A server that lists the two folders of the demo mailbox. *)
Definition demo_account : Account Demo.world :=
  {| mail_login := fun w => (Ok tt, w);
     mail_list := fun w =>
       (Ok [ lit "(\HasNoChildren) " ++ LIST_SEPARATOR ++ lit "INBOX";
             lit "(\HasNoChildren) " ++ LIST_SEPARATOR ++ lit "Sent" ], w) |}.

(** A server whose hierarchy delimiter is the slash. *)
Definition slash_account : Account Demo.world :=
  {| mail_login := fun w => (Ok tt, w);
     mail_list := fun w =>
       (Ok [ lit "(\HasNoChildren) " ++ [0x22; 0x2F; 0x22] ++ lit " INBOX" ], w) |}.

(** [str.lower] on ASCII, for the demo. *)
Definition ascii_lower (s : pystr) : pystr :=
  map (fun c => if (0x41 <=? c) && (c <=? 0x5A) then c + 32 else c) s.

Definition list_args_of (flag : option pystr) (names : pystr) : ListArgs :=
  {| list_only := flag; remote_folder := names |}.

(** The events of the export of one folder: no selection and no closing
    of a folder, no log-out, no report of the top-level handler, and the
    events of a deletion only with [with_delete]. *)
Definition folder_event (with_delete : bool) (e : event) : bool :=
  match e with
  | EvLogout | EvReportError _ | EvSelect _ _ | EvClose => false
  | EvFetchUid _ _ | EvUid _ _ _ | EvExpunge => with_delete
  | _ => true
  end.

(** The events of the export of folders: everything but the log-out and
    the report of the top-level handler, and the events of a deletion only
    with [with_delete]. *)
Definition export_event (with_delete : bool) (e : event) : bool :=
  match e with
  | EvLogout | EvReportError _ => false
  | EvFetchUid _ _ | EvUid _ _ _ | EvExpunge => with_delete
  | _ => true
  end.

Definition deletes_requested (args : Args) : bool :=
  match delete_remote args with
  | Some _ => true
  | None => false
  end.


(** A message fetch that failed, as an event of the trace. *)
Definition is_failed_fetch (e : event) : bool :=
  match e with
  | EvFetchMessage _ resp => fetch_failed resp
  | _ => false
  end.

(** [sep in s]: [sep] occurs in [s]. *)
Fixpoint contains (sep s : pystr) : bool :=
  match strip_prefix sep s with
  | Some _ => true
  | None =>
      match s with
      | [] => false
      | _ :: s' => contains sep s'
      end
  end.

(** The events that only show something: a print, the report of the
    top-level handler; and the log-out. *)
Definition talk_event (e : event) : bool :=
  match e with
  | EvPrint _ | EvReportError _ | EvLogout => true
  | _ => false
  end.

(** A folder is selected from a [select] that answered ['OK'] to the next
    [close].  Searches, fetches, UID commands and expunges are in place
    while a folder is selected; a [select] while none is, a [close] while
    one is. *)
Definition select_succeeded (resp : outcome pystr) : bool :=
  match resp with
  | Ok rv => is_ok rv
  | Raise _ => false
  end.

Fixpoint within_selection (selected : bool) (t : list event) : bool :=
  match t with
  | [] => true
  | EvSelect _ resp :: t' =>
      negb selected && within_selection (select_succeeded resp) t'
  | EvClose :: t' => selected && within_selection false t'
  | EvSearch _ :: t' | EvFetchMessage _ _ :: t' | EvFetchUid _ _ :: t'
  | EvUid _ _ _ :: t' | EvExpunge :: t' =>
      selected && within_selection selected t'
  | _ :: t' => within_selection selected t'
  end.
(* ------------------------------------------------------------------------- *)
(** * Which messages move the counter *)

(** Line 127 is not reached: a statement of lines 115-126 raised, and the
    [try] block was left with [message_id] still empty.  That is so when the
    subject does not decode (line 115), when [parsedate_tz] raises (line
    120), and when the date tuple has no local time (lines 123-124). *)
Definition message_id_unread (lib : Library) (msg : message) : bool :=
  match subject_header lib (msg_subject msg) with
  | Raise _ => true
  | Ok _ =>
      match parsedate_tz lib (msg_date msg) with
      | Raise _ => true
      | Ok None => false
      | Ok (Some date_tuple_) =>
          match mktime_tz lib date_tuple_ with
          | Raise _ => true
          | Ok timestamp =>
              match fromtimestamp lib timestamp with
              | Raise _ => true
              | Ok _ => false
              end
          end
      end
  end.

(** A message is counted when its identifier was not read or its header is
    absent or empty. *)
Definition counted (lib : Library) (msg : message) : bool :=
  message_id_unread lib msg || py_not (msg_message_id msg).

(* ------------------------------------------------------------------------- *)
(** * The export without the delete option, and a delete that never works *)

(** The command line with the delete option taken out. *)
Definition keep_remote (args : Args) : Args :=
  {| local_folder := local_folder args; delete_remote := None;
     trash_folder := trash_folder args |}.

(** Every attempt of [delete] ends in an exception, on every message and in
    every state: a permanent failure. *)
Definition delete_never_works {W : Type} (mail : Session W) (lib : Library)
  (args : Args) : Prop :=
  forall (num : pybytes) (w : W),
    exists e : exn, fst (fst (delete_attempt mail lib args num w)) = Raise e.

(** The demo server with a UID fetch that raises in every state. *)
Definition uid_fetch_down : Session Demo.world :=
  {| mail_search := mail_search Demo.session;
     mail_fetch := fun num parts w =>
       if pystr_eqb parts (lit "(UID)") then (Raise (LibraryError 1), w)
       else mail_fetch Demo.session num parts w;
     mail_uid := mail_uid Demo.session;
     mail_expunge := mail_expunge Demo.session;
     mail_select := mail_select Demo.session;
     mail_close := mail_close Demo.session;
     mail_logout := mail_logout Demo.session |}.

(* ------------------------------------------------------------------------- *)
(** * Proof tactics *)

Ltac zbool :=
  repeat match goal with
    | H : _ && _ = true |- _ => apply andb_true_iff in H; destruct H
    | H : negb _ = true |- _ => apply negb_true_iff in H
    | H : negb _ = false |- _ => apply negb_false_iff in H
    | H : (_ <=? _) = true |- _ => apply Z.leb_le in H
    | H : (_ <=? _) = false |- _ => apply Z.leb_gt in H
    | H : (_ <? _) = true |- _ => apply Z.ltb_lt in H
    | H : (_ <? _) = false |- _ => apply Z.ltb_ge in H
    | H : _ && _ = false |- _ => apply andb_false_iff in H; destruct H
    end.

(** Settle the test of a conditional of the goal by linear arithmetic. *)
Ltac decide_if :=
  match goal with
  | |- context [if ?t then _ else _] =>
      let E := fresh "E" in
      destruct t eqn:E;
      [ try (exfalso; unfold is_cont, is_surrogate in *; zbool; lia)
      | try (exfalso; unfold is_cont, is_surrogate in *; zbool; lia) ]
  end.

Ltac encode_cp_tac :=
  unfold utf8_encode_cp; repeat decide_if;
  f_equal; repeat f_equal; Z.div_mod_to_equations; lia.

(** Case analysis on the innermost scrutinee of the goal. *)
Ltac destruct_inner x :=
  lazymatch x with
  | context [match ?y with _ => _ end] => destruct_inner y
  | _ => destruct x eqn:?
  end.

Ltac run_step :=
  match goal with
  | |- context [match ?x with _ => _ end] => destruct_inner x
  end.

Ltac unfold_stmt :=
  unfold bind, try_except, try_finally, call, query, peek, print, lift, ret, raise.

(** Evaluate the readings of a trace whose events are known. *)
Ltac trace_eval :=
  unfold export_free, written, written_paths, fetched_ok, local_folder_checks,
    message_fetches, delete_attempts, reported in *;
  repeat match goal with
    | H : negb _ = true |- _ => apply negb_true_iff in H
    | H : negb _ = false |- _ => apply negb_false_iff in H
    | H : _ /\ _ |- _ => destruct H
    end;
  rewrite ?app_nil_r; cbn [app flat_map filter length];
  repeat match goal with
    | H : pystr_eqb _ _ = _ |- _ => rewrite H
    | H : flat_map _ ?l = [] |- _ => rewrite H
    | H : length (filter _ ?l) = _ |- _ => rewrite H
    end;
  cbn [app flat_map filter length].

(* ========================================================================= *)
(** * Properties of the UTF-8 codec *)

Lemma utf8_decode_cons (b1 : Z) (r1 : pybytes) :
  utf8_decode (b1 :: r1) =
      if (0 <=? b1) && (b1 <? 0x80) then
        option_map (cons b1) (utf8_decode r1)
      else if (0xC2 <=? b1) && (b1 <=? 0xDF) then
        match r1 with
        | b2 :: r2 =>
            if is_cont b2
            then option_map (cons ((b1 - 0xC0) * 64 + (b2 - 0x80))) (utf8_decode r2)
            else None
        | _ => None
        end
      else if (0xE0 <=? b1) && (b1 <=? 0xEF) then
        match r1 with
        | b2 :: b3 :: r3 =>
            let c := (b1 - 0xE0) * 4096 + (b2 - 0x80) * 64 + (b3 - 0x80) in
            if is_cont b2 && is_cont b3 && (0x800 <=? c) && negb (is_surrogate c)
            then option_map (cons c) (utf8_decode r3)
            else None
        | _ => None
        end
      else if (0xF0 <=? b1) && (b1 <=? 0xF4) then
        match r1 with
        | b2 :: b3 :: b4 :: r4 =>
            let c := (b1 - 0xF0) * 262144 + (b2 - 0x80) * 4096
                     + (b3 - 0x80) * 64 + (b4 - 0x80) in
            if is_cont b2 && is_cont b3 && is_cont b4
               && (0x10000 <=? c) && (c <? 0x110000)
            then option_map (cons c) (utf8_decode r4)
            else None
        | _ => None
        end
      else None.
Proof. reflexivity. Qed.

(** The base-64 digits of a code point, as the encoder cuts them. *)
Lemma digits64 (c : Z) :
  0 <= c < 0x110000 ->
  exists d3 d2 d1 d0,
    c = d3 * 262144 + d2 * 4096 + d1 * 64 + d0 /\
    0 <= d3 <= 4 /\ 0 <= d2 < 64 /\ 0 <= d1 < 64 /\ 0 <= d0 < 64 /\
    c mod 64 = d0 /\ (c / 64) mod 64 = d1 /\ (c / 4096) mod 64 = d2 /\
    c / 64 = d3 * 4096 + d2 * 64 + d1 /\ c / 4096 = d3 * 64 + d2 /\
    c / 262144 = d3.
Proof.
  intros Hc.
  exists (c / 262144), ((c / 4096) mod 64), ((c / 64) mod 64), (c mod 64).
  Z.div_mod_to_equations. lia.
Qed.

Lemma utf8_decode_encode_cp (c : codepoint) (b rest : pybytes) :
  utf8_encode_cp c = Some b ->
  utf8_decode (b ++ rest) = option_map (cons c) (utf8_decode rest).
Proof.
  unfold utf8_encode_cp. intros H.
  destruct (c <? 0) eqn:E0; [discriminate|].
  destruct (c <? 0x110000) eqn:E4;
    [|repeat match type of H with
              | (if ?t then _ else _) = _ => destruct t eqn:?
              end; try discriminate; zbool; lia].
  zbool.
  destruct (digits64 c)
    as (d3 & d2 & d1 & d0 & Hc & ? & ? & ? & ? & M0 & M1 & M2 & Q1 & Q2 & Q3);
    [lia|].
  rewrite M0, M1, M2, Q1, Q2, Q3 in H. clear M0 M1 M2 Q1 Q2 Q3.
  repeat match type of H with
         | (if ?t then _ else _) = _ => destruct t eqn:?
         end; try discriminate;
    match type of H with
    | Some ?l = Some _ => assert (Hb : b = l) by congruence; subst b; clear H
    end; zbool.
  all: repeat rewrite <- app_comm_cons; rewrite app_nil_l.
  all: rewrite utf8_decode_cons; cbv zeta.
  all: repeat decide_if.
  all: f_equal; f_equal; lia.
Qed.

(** Encoding then decoding gives the string back. *)
Lemma utf8_decode_encode (s : pystr) (bs : pybytes) :
  utf8_encode s = Some bs -> utf8_decode bs = Some s.
Proof.
  revert bs. induction s as [|c s IH]; intros bs H; cbn in H.
  - now inversion H.
  - destruct (utf8_encode_cp c) as [b|] eqn:Ec; [|discriminate].
    destruct (utf8_encode s) as [r|]; [|discriminate].
    assert (bs = b ++ r) by congruence. subst bs.
    rewrite (utf8_decode_encode_cp c b r Ec), (IH r eq_refl). reflexivity.
Qed.

Lemma utf8_encode_cp_1 (b1 : Z) :
  0 <= b1 < 0x80 -> utf8_encode_cp b1 = Some [b1].
Proof. intros. unfold utf8_encode_cp; repeat decide_if. reflexivity. Qed.

Lemma utf8_encode_cp_2 (b1 b2 : Z) :
  0xC2 <= b1 <= 0xDF -> is_cont b2 = true ->
  utf8_encode_cp ((b1 - 0xC0) * 64 + (b2 - 0x80)) = Some [b1; b2].
Proof. intros ? C2. unfold is_cont in C2. zbool. encode_cp_tac. Qed.

Lemma utf8_encode_cp_3 (b1 b2 b3 : Z) :
  let c := (b1 - 0xE0) * 4096 + (b2 - 0x80) * 64 + (b3 - 0x80) in
  0xE0 <= b1 <= 0xEF -> is_cont b2 = true -> is_cont b3 = true ->
  0x800 <= c -> is_surrogate c = false ->
  utf8_encode_cp c = Some [b1; b2; b3].
Proof.
  intros c ? C2 C3 ? S. unfold is_cont in C2, C3. subst c. zbool.
  unfold utf8_encode_cp. rewrite S. encode_cp_tac.
Qed.

Lemma utf8_encode_cp_4 (b1 b2 b3 b4 : Z) :
  let c := (b1 - 0xF0) * 262144 + (b2 - 0x80) * 4096
           + (b3 - 0x80) * 64 + (b4 - 0x80) in
  0xF0 <= b1 <= 0xF4 ->
  is_cont b2 = true -> is_cont b3 = true -> is_cont b4 = true ->
  0x10000 <= c < 0x110000 ->
  utf8_encode_cp c = Some [b1; b2; b3; b4].
Proof.
  intros c ? C2 C3 C4 ?. unfold is_cont in C2, C3, C4. subst c. zbool.
  encode_cp_tac.
Qed.

Lemma option_map_cons_some (c : codepoint) (o : option pystr) (s : pystr) :
  option_map (cons c) o = Some s -> exists s', o = Some s' /\ s = c :: s'.
Proof. destruct o; cbn; intros H; [|discriminate]. inversion H. eauto. Qed.

(** Decoding is strict: what decodes is the encoding of the result. *)
Lemma utf8_encode_decode_bounded (n : nat) :
  forall (bs : pybytes) (s : pystr),
    (length bs <= n)%nat -> utf8_decode bs = Some s -> utf8_encode s = Some bs.
Proof.
  induction n as [|n IH]; intros bs s L H.
  - destruct bs; [|cbn in L; lia]. cbn in H. now inversion H.
  - destruct bs as [|b1 r1]; [cbn in H; now inversion H|].
    rewrite utf8_decode_cons in H. cbn [length] in L.
    destruct ((0 <=? b1) && (b1 <? 0x80)) eqn:E1.
    { apply option_map_cons_some in H as (s' & Hs & ->).
      apply IH in Hs; [|lia]. zbool; cbn [utf8_encode];
        rewrite utf8_encode_cp_1, Hs by lia; reflexivity. }
    destruct ((0xC2 <=? b1) && (b1 <=? 0xDF)) eqn:E2.
    { destruct r1 as [|b2 r2]; [discriminate|].
      destruct (is_cont b2) eqn:C2; [|discriminate].
      apply option_map_cons_some in H as (s' & Hs & ->).
      apply IH in Hs; [|cbn in L; lia]. zbool; cbn [utf8_encode];
        rewrite utf8_encode_cp_2, Hs by (auto; lia); reflexivity. }
    destruct ((0xE0 <=? b1) && (b1 <=? 0xEF)) eqn:E3.
    { destruct r1 as [|b2 [|b3 r3]]; try discriminate. cbv zeta in H.
      match type of H with (if ?t then _ else _) = _ => destruct t eqn:C end;
        [|discriminate].
      apply option_map_cons_some in H as (s' & Hs & ->).
      apply IH in Hs; [|cbn in L; lia].
      apply andb_true_iff in C as [C N]. apply andb_true_iff in C as [C R].
      apply andb_true_iff in C as [C2 C3]. zbool; cbn [utf8_encode];
        rewrite utf8_encode_cp_3, Hs by (auto; lia); reflexivity. }
    destruct ((0xF0 <=? b1) && (b1 <=? 0xF4)) eqn:E4; [|discriminate].
    destruct r1 as [|b2 [|b3 [|b4 r4]]]; try discriminate. cbv zeta in H.
    match type of H with (if ?t then _ else _) = _ => destruct t eqn:C end;
      [|discriminate].
    apply option_map_cons_some in H as (s' & Hs & ->).
    apply IH in Hs; [|cbn in L; lia].
    apply andb_true_iff in C as [C R2]. apply andb_true_iff in C as [C R1].
    apply andb_true_iff in C as [C C4]. apply andb_true_iff in C as [C2 C3].
    zbool; cbn [utf8_encode];
      rewrite utf8_encode_cp_4, Hs by (auto; lia); reflexivity.
Qed.

Lemma utf8_encode_decode (bs : pybytes) (s : pystr) :
  utf8_decode bs = Some s -> utf8_encode s = Some bs.
Proof. apply (utf8_encode_decode_bounded (length bs)). lia. Qed.

(* ========================================================================= *)
(** * [trim_file_name] *)

Lemma removelast_firstn_pred {A : Type} (l : list A) :
  removelast l = firstn (length l - 1) l.
Proof.
  destruct l as [|a l]; [reflexivity|].
  assert (N : a :: l <> []) by discriminate.
  rewrite (app_removelast_last a N) at 2 3.
  rewrite length_app. cbn [length].
  replace (length (removelast (a :: l)) + 1 - 1)%nat
    with (length (removelast (a :: l)) + 0)%nat by lia.
  rewrite firstn_app_2. cbn. now rewrite app_nil_r.
Qed.

(** The loop ends on a prefix of its argument that decodes, and gives the
    decoded text. *)
Lemma decode_loop_prefix (bs : pybytes) :
  exists n : nat,
    (n <= length bs)%nat /\ utf8_decode (firstn n bs) = Some (decode_loop bs).
Proof.
  funelim (decode_loop bs).
  - exists (length filename_bytes). rewrite firstn_all. auto.
  - match goal with
    | IH : exists n : nat, _ |- _ => destruct IH as (n & Hn & Hd)
    end.
    assert (E : firstn n (removelast filename_bytes) = firstn n filename_bytes).
    { rewrite removelast_firstn_pred in Hn |- *.
      rewrite length_firstn in Hn. rewrite firstn_firstn. f_equal. lia. }
    exists n. rewrite <- E. split; [|exact Hd].
    rewrite removelast_firstn_pred, length_firstn in Hn. lia.
Qed.

Lemma decode_loop_valid (bs : pybytes) (s : pystr) :
  utf8_decode bs = Some s -> decode_loop bs = s.
Proof.
  intros H. funelim (decode_loop bs); congruence.
Qed.

Lemma length_slice_to {A : Type} (l : list A) (k : Z) :
  0 <= k -> py_len (slice_to l k) <= k.
Proof.
  intros Hk. unfold slice_to, py_len.
  destruct (k <? 0) eqn:E; [apply Z.ltb_lt in E; lia|].
  rewrite length_firstn. lia.
Qed.

Lemma firstn_slice_to {A : Type} (n : nat) (l : list A) (k : Z) :
  exists m : nat, firstn n (slice_to l k) = firstn m l.
Proof.
  unfold slice_to. destruct (k <? 0); rewrite firstn_firstn; eauto.
Qed.

(** C4, as stated, fails: the claim would bound the returned name for every
    limit and extension, but a limit that does not even hold the extension
    and the dot leaves a negative budget, below the length of any name; the
    slice of line 74 then counts from the end of the name. *)
Lemma trim_file_name_negative_budget :
  ~ (forall (max_length : Z) (filename file_ext name : pystr)
            (ext_bytes out_bytes : pybytes),
        utf8_encode file_ext = Some ext_bytes ->
        trim_file_name max_length filename file_ext = Ok name ->
        utf8_encode name = Some out_bytes ->
        py_len out_bytes <= max_length - py_len ext_bytes - 1).
Proof.
  intros H.
  specialize (H 14 (lit "abc") (lit "emlemlemlemlem") (lit "ab")
                (lit "emlemlemlemlem") (lit "ab") eq_refl eq_refl eq_refl).
  vm_compute in H. apply H. reflexivity.
Qed.

(** C4 (amended): when the limit holds at least the extension and the dot,
    [trim_file_name] returns, for every name and extension that encode, a
    name whose UTF-8 form is a prefix of the input's, is at most
    [max_length - len(ext_bytes) - 1] bytes long and decodes to that very
    name, also when the cut falls inside a multi-byte character. *)
Theorem trim_file_name_fits
  (max_length : Z) (filename file_ext : pystr) (name_bytes ext_bytes : pybytes) :
  utf8_encode filename = Some name_bytes ->
  utf8_encode file_ext = Some ext_bytes ->
  py_len ext_bytes + 1 <= max_length ->
  exists (name : pystr) (out_bytes : pybytes) (n : nat),
    trim_file_name max_length filename file_ext = Ok name /\
    utf8_encode name = Some out_bytes /\
    py_len out_bytes <= max_length - py_len ext_bytes - 1 /\
    utf8_decode out_bytes = Some name /\
    out_bytes = firstn n name_bytes.
Proof.
  intros Hn He Hb. unfold trim_file_name. rewrite Hn, He. cbv zeta.
  set (budget := max_length - py_len ext_bytes - 1).
  destruct (py_len name_bytes >? budget) eqn:E.
  - destruct (decode_loop_prefix (slice_to name_bytes budget)) as (n & Ln & Hd).
    destruct (firstn_slice_to n name_bytes budget) as (m & Hm).
    exists (decode_loop (slice_to name_bytes budget)),
      (firstn n (slice_to name_bytes budget)), m.
    repeat split; auto.
    + now apply utf8_encode_decode.
    + pose proof (length_slice_to name_bytes budget ltac:(unfold budget; lia)).
      unfold py_len in *. rewrite length_firstn. lia.
  - exists filename, name_bytes, (length name_bytes).
    repeat split; auto.
    + rewrite Z.gtb_ltb in E. apply Z.ltb_ge in E. exact E.
    + now apply utf8_decode_encode.
    + now rewrite firstn_all.
Qed.

(** C4 (amended) on a name whose cut falls inside the two bytes of U+00E9. *)
Lemma trim_file_name_fits_witness :
  exists (name : pystr) (out_bytes : pybytes) (n : nat),
    trim_file_name 6 [0x61; 0xE9; 0x62] (lit "eml") = Ok name /\
    utf8_encode name = Some out_bytes /\
    py_len out_bytes <= 6 - py_len (lit "eml") - 1 /\
    utf8_decode out_bytes = Some name /\
    out_bytes = firstn n [0x61; 0xC3; 0xA9; 0x62].
Proof.
  apply (trim_file_name_fits 6 [0x61; 0xE9; 0x62] (lit "eml")
           [0x61; 0xC3; 0xA9; 0x62] (lit "eml"));
    [reflexivity | reflexivity | vm_compute; discriminate].
Defined.

(** C9: on a name that already fits the budget the operation is the
    identity, and so is applying it a second time. *)
Theorem trim_file_name_fitting_identity
  (max_length : Z) (name file_ext : pystr) (name_bytes ext_bytes : pybytes) :
  utf8_encode name = Some name_bytes ->
  utf8_encode file_ext = Some ext_bytes ->
  py_len name_bytes <= max_length - py_len ext_bytes - 1 ->
  trim_file_name max_length name file_ext = Ok name /\
  match trim_file_name max_length name file_ext with
  | Ok once => trim_file_name max_length once file_ext = Ok name
  | Raise _ => False
  end.
Proof.
  intros Hn He Hb.
  assert (T : trim_file_name max_length name file_ext = Ok name).
  { unfold trim_file_name. rewrite Hn, He. cbv zeta.
    destruct (_ >? _) eqn:E; [|reflexivity].
    rewrite Z.gtb_ltb in E. apply Z.ltb_lt in E. lia. }
  rewrite T. auto.
Qed.

(** C9 on a fallback name, far below the 255 bytes of the limit. *)
Lemma trim_file_name_fitting_identity_witness :
  trim_file_name 255 (lit "Unknown Date1 - No subject") (lit "eml")
  = Ok (lit "Unknown Date1 - No subject") /\
  match trim_file_name 255 (lit "Unknown Date1 - No subject") (lit "eml") with
  | Ok once =>
      trim_file_name 255 once (lit "eml") = Ok (lit "Unknown Date1 - No subject")
  | Raise _ => False
  end.
Proof.
  apply (trim_file_name_fitting_identity 255 (lit "Unknown Date1 - No subject")
           (lit "eml") (lit "Unknown Date1 - No subject") (lit "eml"));
    [reflexivity | reflexivity | vm_compute; discriminate].
Defined.

Example trim_ascii :
  trim_file_name 9 (lit "abcdefgh") (lit "eml") = Ok (lit "abcde").
Proof. reflexivity. Qed.

(** U+00E9 takes two bytes; a cut after the first of them drops the character. *)
Example trim_multibyte :
  trim_file_name 6 [0x61; 0xE9; 0x62] (lit "eml") = Ok [0x61].
Proof. reflexivity. Qed.

(* ========================================================================= *)
(** * Running statements *)

Lemma written_app (a b : list event) : written (a ++ b) = written a ++ written b.
Proof. apply flat_map_app. Qed.

Lemma written_paths_app (a b : list event) :
  written_paths (a ++ b) = written_paths a ++ written_paths b.
Proof. apply flat_map_app. Qed.

Lemma fetched_ok_app (a b : list event) :
  fetched_ok (a ++ b) = fetched_ok a ++ fetched_ok b.
Proof. apply flat_map_app. Qed.

Lemma reported_app (a b : list event) : reported (a ++ b) = reported a ++ reported b.
Proof. apply flat_map_app. Qed.

Lemma local_folder_checks_app (a b : list event) :
  local_folder_checks (a ++ b) = (local_folder_checks a + local_folder_checks b)%nat.
Proof. unfold local_folder_checks. now rewrite filter_app, length_app. Qed.

Lemma message_fetches_app (a b : list event) :
  message_fetches (a ++ b) = (message_fetches a + message_fetches b)%nat.
Proof. unfold message_fetches. now rewrite filter_app, length_app. Qed.

Lemma delete_attempts_app (a b : list event) :
  delete_attempts (a ++ b) = (delete_attempts a + delete_attempts b)%nat.
Proof. unfold delete_attempts. now rewrite filter_app, length_app. Qed.

Lemma export_free_app (a b : list event) :
  export_free a -> export_free b -> export_free (a ++ b).
Proof.
  unfold export_free. intros (A1 & A2 & A3 & A4 & A5) (B1 & B2 & B3 & B4 & B5).
  rewrite written_app, fetched_ok_app, local_folder_checks_app,
    message_fetches_app, written_paths_app.
  rewrite A1, A2, A3, A4, A5, B1, B2, B3, B4, B5. auto.
Qed.

Lemma pystr_eqb_eq (a b : pystr) : pystr_eqb a b = true -> a = b.
Proof.
  revert b. induction a as [|x a IH]; intros [|y b] H; cbn in H;
    try discriminate; [reflexivity|].
  apply andb_true_iff in H as [H1 H2]. apply Z.eqb_eq in H1.
  f_equal; auto.
Qed.

Section ProgramFacts.
Context {W : Type}.
Variable mail : Session W.
Variable fs : FileSystem W.
Variable lib : Library.
Variable args : Args.
Variable stack_room : nat.

Lemma delete_attempt_export_free (num : pybytes) (w : W) :
  export_free (snd (delete_attempt mail lib args num w)).
Proof.
  unfold delete_attempt, fetch_uid. unfold_stmt.
  repeat run_step; cbn; repeat split; reflexivity.
Qed.

Lemma delete_export_free (room : nat) (num : pybytes) (w : W) :
  export_free (snd (delete mail lib args room num w)).
Proof.
  revert w. induction room as [|room IH]; intros w; cbn [delete].
  - cbn. repeat split; reflexivity.
  - unfold_stmt.
    pose proof (delete_attempt_export_free num w) as A.
    destruct (delete_attempt mail lib args num w) as [[[v|e] w1] t1]; cbn in A |- *.
    + exact A.
    + specialize (IH w1).
      destruct (delete mail lib args room num w1) as [[r w2] t2]; cbn in IH |- *.
      now apply export_free_app.
Qed.

Lemma process_message_spec (folder : pystr) (c : Z) (num : pybytes) (w : W) :
  let '(r, w', t) := process_message mail fs lib args stack_room folder c num w in
  local_folder_checks t = 0%nat /\ message_fetches t = 1%nat /\
  match r with
  | Ok c' =>
      exists (raw : pybytes) (msg : message) (max_length : Z) (name : pystr),
        fetched_ok t = [raw] /\ written t = [raw] /\
        parse_message lib raw = Ok msg /\
        c' = fst (compose_name lib c msg) /\
        trim_file_name max_length (snd (compose_name lib c msg)) FILENAME_EXT
        = Ok name /\
        written_paths t
        = [final_dir_of fs args folder w ++ lit "/" ++ name ++ lit "." ++ FILENAME_EXT]
  | Raise _ =>
      exists pending : list pybytes,
        fetched_ok t = written t ++ pending /\ (length pending <= 1)%nat /\
        (length (written t) <= 1)%nat
  end.
Proof.
  unfold process_message, fetch_message, final_dir_of, is_ok. unfold_stmt.
  repeat run_step.
  all: repeat match goal with
       | H : delete _ _ _ ?n ?x ?w = _ |- _ =>
           let Q := fresh "Q" in
           pose proof (delete_export_free n x w) as Q; rewrite H in Q;
           cbn [snd] in Q; clear H
       | H : (_, _, _) = (_, _, _) |- _ => inversion H; subst; clear H
       | H : (_, _) = (_, _) |- _ => inversion H; subst; clear H
       end.
  all: trace_eval.
  all: split; [reflexivity|split; [reflexivity|]].
  all: try match goal with
       | Hp : parse_message lib ?raw = Ok ?m,
         Hc : compose_name lib _ ?m = (_, ?f),
         Ht : trim_file_name ?ml ?f _ = Ok ?n |- exists _ _ _ _, _ =>
           exists raw, m, ml, n; rewrite Hc; cbn [fst snd]; auto 10
       end.
  all: try (exists []; cbn; repeat split; (reflexivity || lia)).
  all: eexists; cbn; repeat split; (reflexivity || lia).
Qed.

Lemma process_loop_spec (folder : pystr) (nums : list pybytes) :
  forall (c : Z) (w : W),
    let '(r, w', t) := process_loop mail fs lib args stack_room folder c nums w in
    local_folder_checks t = 0%nat /\
    (message_fetches t <= length nums)%nat /\
    (exists pending : list pybytes,
        fetched_ok t = written t ++ pending /\ (length pending <= 1)%nat /\
        (forall v, r = Ok v -> pending = [])) /\
    (forall c', r = Ok c' ->
       length (written t) = length nums /\
       message_fetches t = length nums /\
       exists msgs : list message,
         Forall2 (fun raw msg => parse_message lib raw = Ok msg)
                 (fetched_ok t) msgs /\
         c' = counter_after lib c msgs /\
         Forall2 stored_as (written_paths t) (name_messages lib c msgs)).
Proof.
  induction nums as [|num rest IH]; intros c w.
  - cbn. split; [reflexivity|]. split; [lia|]. split.
    { exists []. auto. }
    intros c' H. inversion H. split; [reflexivity|]. split; [reflexivity|].
    exists []. cbn. auto.
  - cbn [process_loop]. unfold bind.
    pose proof (process_message_spec folder c num w) as S.
    destruct (process_message mail fs lib args stack_room folder c num w)
      as [[[c1|e] w1] t1].
    + destruct S as (S1 & S2 & raw & msg & ml & name & F & Wr & P & C & T & Wp).
      specialize (IH c1 w1).
      destruct (process_loop mail fs lib args stack_room folder c1 rest w1)
        as [[r w2] t2].
      destruct IH as (I1 & I2 & (pending & I3 & I4 & I5) & I6).
      rewrite local_folder_checks_app, message_fetches_app, fetched_ok_app,
        written_app, written_paths_app, F, Wr, Wp, S1, S2, I1, I3.
      cbn [length app].
      split; [reflexivity|]. split; [lia|]. split.
      { exists pending. cbn. auto. }
      intros c' H. destruct (I6 c' H) as (L & Mf & msgs & M1 & M2 & M3).
      split; [rewrite <- L; reflexivity|]. split; [lia|].
      exists (msg :: msgs). cbn [counter_after name_messages].
      destruct (compose_name lib c msg) as [c2 file] eqn:E.
      cbn [fst snd] in *. subst c1.
      split; [|split; [exact M2|]].
      * constructor; [exact P|]. rewrite <- I3. exact M1.
      * constructor; [|exact M3].
        now exists (final_dir_of fs args folder w), ml, name.
    + destruct S as (S1 & S2 & pending & F & L1 & L2).
      rewrite S1, S2, F. cbn [length].
      split; [reflexivity|]. split; [lia|]. split.
      { exists pending. repeat split; auto. discriminate. }
      discriminate.
Qed.

(** [process], case by case: what it returns and what it does. *)
Lemma process_cases (folder : pystr) (w : W) :
  let '(r, w', t) := process mail fs lib args stack_room folder w in
  match mail_search mail w with
  | (Raise e, w1) => r = Raise e /\ t = [EvSearch (Raise e)]
  | (Ok (rv, data0), w1) =>
      if is_ok rv then
        let found := os_isdir fs (local_folder args) w1 in
        let head := [EvSearch (Ok (rv, data0));
                     EvPrint (str_of_int (py_len data0) ++ lit " messages found!");
                     EvCheckLocalFolder (local_folder args) found] in
        if found then
          let '(r2, w2, t2) :=
            process_loop mail fs lib args stack_room folder 0
                         (bytes_split data0) w1 in
          t = head ++ t2 /\
          r = match r2 with Ok _ => Ok PyNone | Raise e => Raise e end
        else r = Raise NotADirectoryError /\ t = head
      else r = Raise FileNotFoundError /\ t = [EvSearch (Ok (rv, data0))]
  end.
Proof.
  unfold process. unfold_stmt.
  destruct (mail_search mail w) as [[[rv data0]|e] w1]; [|cbn; auto].
  destruct (is_ok rv); cbn [negb]; [|cbn; auto].
  destruct (os_isdir fs (local_folder args) w1); cbn [negb]; [|cbn; auto].
  destruct (process_loop mail fs lib args stack_room folder 0
              (bytes_split data0) w1) as [[[c|e] w2] t2]; cbn; auto.
  rewrite app_nil_r. auto.
Qed.
End ProgramFacts.

(* ========================================================================= *)
(** * The export of a folder *)

(** The export of the demo mailbox: three files, named as the headers
    allow. *)
Example demo_export :
  let '(r, w, t) :=
    process Demo.session Demo.file_system Demo.library Demo.args_keep 0
            (lit "INBOX") Demo.start in
  r = Ok PyNone /\
  written_paths t =
    [ lit "/out/INBOX/2024-01-01 10:00:00 - a1 - Test.eml";
      lit "/out/INBOX/Unknown Date1 - No subject.eml";
      lit "/out/INBOX/Unknown Date2 - No subject.eml" ] /\
  written t = [Demo.raw_a; Demo.raw_b; Demo.raw_c].
Proof. vm_compute. auto. Qed.

(** C1: the byte strings written, in order, are the payloads the successful
    message fetches returned, in order: all of them when [process] runs to
    completion, all but possibly the last one fetched when it is cut short
    by an exception.  Nothing here depends on what the metadata extraction
    found: the statement holds for every library behaviour. *)
Theorem written_bytes_are_fetched_bytes
  {W : Type} (mail : Session W) (fs : FileSystem W) (lib : Library)
  (args : Args) (stack_room : nat) (folder : pystr) (w : W) :
  let '(r, _, t) := process mail fs lib args stack_room folder w in
  exists pending : list pybytes,
    fetched_ok t = written t ++ pending /\
    (length pending <= 1)%nat /\
    (forall v, r = Ok v -> pending = []).
Proof.
  pose proof (process_cases mail fs lib args stack_room folder w) as C.
  destruct (process mail fs lib args stack_room folder w) as [[r w'] t].
  destruct (mail_search mail w) as [[[rv data0]|e] w1].
  - destruct (is_ok rv) eqn:Eok.
    + cbv zeta in C. destruct (os_isdir fs (local_folder args) w1).
      * pose proof (process_loop_spec mail fs lib args stack_room folder
                      (bytes_split data0) 0 w1) as L.
        destruct (process_loop mail fs lib args stack_room folder 0
                    (bytes_split data0) w1) as [[r2 w2] t2].
        destruct C as [-> ->].
        destruct L as (_ & _ & (pending & L1 & L2 & L3) & _).
        exists pending. rewrite fetched_ok_app, written_app. cbn.
        repeat split; auto.
        intros v Hv. destruct r2 as [c|e]; [|discriminate]. now apply (L3 c).
      * destruct C as [-> ->]. exists []. cbn. repeat split; auto.
    + destruct C as [-> ->]. exists []. cbn. repeat split; auto.
  - destruct C as [-> ->]. exists []. cbn. repeat split; auto.
Qed.

(** C2, as stated, fails: [process] has no [return] statement, so on the
    demo mailbox, where the search finds three messages and every one is
    exported, it gives [None] and not the count. *)
Lemma process_does_not_return_the_count :
  ~ (forall (W : Type) (mail : Session W) (fs : FileSystem W) (lib : Library)
            (args : Args) (stack_room : nat) (folder : pystr) (w w1 w' : W)
            (rv : pystr) (data0 : pybytes) (v : pyvalue) (t : list event),
        mail_search mail w = (Ok (rv, data0), w1) ->
        process mail fs lib args stack_room folder w = (Ok v, w', t) ->
        v = PyInt (py_len (bytes_split data0))).
Proof.
  intros H.
  pose (run := process Demo.session Demo.file_system Demo.library
                       Demo.args_keep 0 (lit "INBOX") Demo.start).
  specialize (H Demo.world Demo.session Demo.file_system Demo.library
                Demo.args_keep 0%nat (lit "INBOX") Demo.start Demo.start
                (snd (fst run)) (lit "OK") (lit "1 2 3") PyNone (snd run)
                eq_refl).
  assert (R : run = (Ok PyNone, snd (fst run), snd run))
    by (vm_compute; reflexivity).
  specialize (H R). discriminate H.
Qed.

(** C2 (amended): a call of [process] that runs to completion returns
    [None]; the search had reported ['OK'], and one message was fetched and
    one file written for every token of the search result. *)
Theorem process_returns_none
  {W : Type} (mail : Session W) (fs : FileSystem W) (lib : Library)
  (args : Args) (stack_room : nat) (folder : pystr) (w w' : W)
  (v : pyvalue) (t : list event) :
  process mail fs lib args stack_room folder w = (Ok v, w', t) ->
  v = PyNone /\
  exists (data0 : pybytes) (w1 : W),
    mail_search mail w = (Ok (lit "OK", data0), w1) /\
    message_fetches t = length (bytes_split data0) /\
    length (written t) = length (bytes_split data0).
Proof.
  intros R.
  pose proof (process_cases mail fs lib args stack_room folder w) as C.
  rewrite R in C.
  destruct (mail_search mail w) as [[[rv data0]|e] w1];
    [|destruct C; discriminate].
  destruct (is_ok rv) eqn:Eok; [|destruct C; discriminate].
  apply pystr_eqb_eq in Eok. subst rv. cbv zeta in C.
  destruct (os_isdir fs (local_folder args) w1); [|destruct C; discriminate].
  pose proof (process_loop_spec mail fs lib args stack_room folder
                (bytes_split data0) 0 w1) as L.
  destruct (process_loop mail fs lib args stack_room folder 0
              (bytes_split data0) w1) as [[[c|e] w2] t2];
    [|destruct C; discriminate].
  destruct C as [-> Hv]. destruct L as (_ & _ & _ & L).
  destruct (L c eq_refl) as (L1 & L2 & _).
  split; [congruence|]. exists data0, w1.
  rewrite message_fetches_app, written_app. cbn. auto.
Qed.

(** C2 (amended) on the export of the demo mailbox. *)
Lemma process_returns_none_witness :
  let run := process Demo.session Demo.file_system Demo.library
                     Demo.args_keep 0 (lit "INBOX") Demo.start in
  PyNone = PyNone /\
  exists (data0 : pybytes) (w1 : Demo.world),
    mail_search Demo.session Demo.start = (Ok (lit "OK", data0), w1) /\
    message_fetches (snd run) = length (bytes_split data0) /\
    length (written (snd run)) = length (bytes_split data0).
Proof.
  intros run.
  apply (process_returns_none Demo.session Demo.file_system Demo.library
           Demo.args_keep 0 (lit "INBOX") Demo.start (snd (fst run)) PyNone
           (snd run)).
  vm_compute. reflexivity.
Defined.

(* ========================================================================= *)
(** * [delete] *)

Section DeleteFacts.
Context {W : Type}.
Variable mail : Session W.
Variable fs : FileSystem W.
Variable lib : Library.
Variable args : Args.

Lemma delete_retry (room : nat) (num : pybytes) (w w1 : W) (e : exn)
  (t1 : list event) :
  delete_attempt mail lib args num w = (Raise e, w1, t1) ->
  delete mail lib args (S room) num w =
  (let '(r, w2, t2) := delete mail lib args room num w1 in
   (r, w2, EvPrint (lit " Deleting... ") :: t1 ++ t2)).
Proof.
  intros A. cbn [delete]. unfold bind, print, try_except. rewrite A.
  destruct (delete mail lib args room num w1) as [[r w2] t2]. reflexivity.
Qed.

Lemma delete_done (room : nat) (num : pybytes) (w w1 : W) (v : pyvalue)
  (t1 : list event) :
  delete_attempt mail lib args num w = (Ok v, w1, t1) ->
  delete mail lib args (S room) num w =
  (Ok v, w1, EvPrint (lit " Deleting... ") :: t1).
Proof.
  intros A. cbn [delete]. unfold bind, print, try_except. now rewrite A.
Qed.

(** Every attempt starts with one UID fetch, and has no other. *)
Lemma delete_attempt_one_fetch (num : pybytes) (w : W) :
  delete_attempts (snd (delete_attempt mail lib args num w)) = 1%nat.
Proof.
  unfold delete_attempt, fetch_uid. unfold_stmt.
  repeat run_step; reflexivity.
Qed.

Lemma delete_attempt_starts_at_uid (num : pybytes) (w : W) :
  exists (resp : outcome (pystr * pybytes)) (rest : list event),
    snd (delete_attempt mail lib args num w) = EvFetchUid num resp :: rest.
Proof.
  unfold delete_attempt, fetch_uid. unfold_stmt.
  repeat run_step; cbn [snd app]; eauto.
Qed.

Lemma delete_attempts_bound (room : nat) (num : pybytes) :
  forall w : W,
    (delete_attempts (snd (delete mail lib args room num w)) <= room)%nat.
Proof.
  induction room as [|room IH]; intros w; [cbn; lia|].
  pose proof (delete_attempt_one_fetch num w) as A.
  destruct (delete_attempt mail lib args num w) as [[[v|e] w1] t1] eqn:E.
  - rewrite (delete_done room num w _ _ _ E). cbn [snd] in *.
    change (delete_attempts (EvPrint (lit " Deleting... ") :: t1))
      with (delete_attempts t1). lia.
  - rewrite (delete_retry room num w _ _ _ E). specialize (IH w1).
    destruct (delete mail lib args room num w1) as [[r w2] t2].
    cbn [snd] in *.
    change (delete_attempts (EvPrint (lit " Deleting... ") :: t1 ++ t2))
      with (delete_attempts (t1 ++ t2)).
    rewrite delete_attempts_app. lia.
Qed.

Lemma delete_raises_recursion_error (room : nat) (num : pybytes) :
  forall (w w' : W) (e : exn) (t : list event),
    delete mail lib args room num w = (Raise e, w', t) ->
    e = RecursionError /\ delete_attempts t = room.
Proof.
  induction room as [|room IH]; intros w w' e t D.
  - cbn in D. inversion D. auto.
  - pose proof (delete_attempt_one_fetch num w) as A.
    destruct (delete_attempt mail lib args num w) as [[[v|e1] w1] t1] eqn:E.
    + rewrite (delete_done room num w _ _ _ E) in D. discriminate.
    + rewrite (delete_retry room num w _ _ _ E) in D.
      destruct (delete mail lib args room num w1) as [[r w2] t2] eqn:D2.
      inversion D; subst. destruct (IH _ _ _ _ D2) as [-> I]. split; auto.
      cbn [snd] in A.
      change (delete_attempts (EvPrint (lit " Deleting... ") :: t1 ++ t2))
        with (delete_attempts (t1 ++ t2)).
      rewrite delete_attempts_app. lia.
Qed.

(** A run of [delete] is a sequence of attempts, each behind its
    announcement. *)
Lemma delete_is_attempts (room : nat) (num : pybytes) :
  forall w : W,
  exists attempts : list (list event),
    snd (delete mail lib args room num w)
    = flat_map (fun a => EvPrint (lit " Deleting... ") :: a) attempts /\
    Forall (fun a => exists w0 : W,
                a = snd (delete_attempt mail lib args num w0)) attempts.
Proof.
  induction room as [|room IH]; intros w.
  - exists []. cbn. auto.
  - destruct (delete_attempt mail lib args num w) as [[[v|e] w1] t1] eqn:E.
    + rewrite (delete_done room num w _ _ _ E). exists [t1]. cbn.
      rewrite app_nil_r. split; [reflexivity|].
      constructor; [|constructor]. exists w. now rewrite E.
    + rewrite (delete_retry room num w _ _ _ E). destruct (IH w1) as (l & L1 & L2).
      destruct (delete mail lib args room num w1) as [[r w2] t2].
      cbn [snd] in *. exists (t1 :: l). cbn [flat_map]. rewrite L1.
      split; [reflexivity|]. constructor; [|exact L2].
      exists w. now rewrite E.
Qed.

(** One attempt: flag setting and expunge only behind a copy that
    reported ['OK']. *)
Lemma delete_attempt_copy_gated (num : pybytes) (w : W) :
  copy_gated (snd (delete_attempt mail lib args num w)).
Proof.
  unfold copy_gated, delete_attempt, fetch_uid. unfold_stmt.
  repeat run_step; cbn [snd app]; rewrite ?app_nil_r; split.
  all: try (intros H; discriminate H).
  all: try (intros c status I; cbn in I;
            repeat (destruct I as [<-|I]; [cbn; try discriminate|]);
            try contradiction; try reflexivity;
            intros Q1 Q2; congruence).
  all: intros _;
    match goal with
    | |- exists _ _ _ _, ?e1 :: ?c :: ?rest = _ /\ _ =>
        exists [e1], rest, c; eexists;
        split; [reflexivity|split; [reflexivity|split; [assumption|reflexivity]]]
    end.
Qed.
End DeleteFacts.

(** C7, as stated, fails.  On the demo mailbox with a UID fetch that always
    raises and 996 nested calls of [delete] left on the interpreter's stack,
    the export of the first message ends after 996 attempts, and the
    top-level handler of [main] reports a [RecursionError]. *)
Lemma delete_failure_reaches_top_level :
  let t := snd (main_export Demo.session Demo.file_system Demo.library
                            Demo.args_delete 996 Demo.folders_map
                            [lit "inbox"] Demo.start_uid_broken) in
  reported t = [RecursionError] /\ delete_attempts t = 996%nat.
Proof. vm_compute. auto. Qed.

(** C8: every run of [delete] is a sequence of attempts, and in each of
    them the flag is set and the expunge requested only behind a trash copy
    that reported ['OK']; an attempt whose copy reported anything else has
    neither. *)
Theorem store_and_expunge_need_ok_copy
  {W : Type} (mail : Session W) (lib : Library) (args : Args)
  (room : nat) (num : pybytes) (w : W) :
  exists attempts : list (list event),
    snd (delete mail lib args room num w)
    = flat_map (fun a => EvPrint (lit " Deleting... ") :: a) attempts /\
    Forall copy_gated attempts.
Proof.
  destruct (delete_is_attempts mail lib args room num w) as (l & L1 & L2).
  exists l. split; [exact L1|].
  eapply Forall_impl; [|exact L2].
  intros a (w0 & ->). apply delete_attempt_copy_gated.
Qed.

(** A copy refused by the server: the attempt stops at the copy. *)
Example delete_copy_refused :
  let refuse :=
    {| mail_search := mail_search Demo.session;
       mail_fetch := mail_fetch Demo.session;
       mail_uid := fun _ _ w => (Ok (lit "NO"), w);
       mail_expunge := mail_expunge Demo.session;
       mail_select := mail_select Demo.session;
       mail_close := mail_close Demo.session;
       mail_logout := mail_logout Demo.session |} in
  delete refuse Demo.library Demo.args_delete 5 (lit "2") Demo.start =
  (Ok PyNone, Demo.start,
   [ EvPrint (lit " Deleting... ");
     EvFetchUid (lit "2") (Ok (lit "OK", lit "2 (UID 72)"));
     EvUid (lit "COPY") [lit "72"; lit "Trash"] (Ok (lit "NO"));
     EvPrint (lit "Failed!") ]).
Proof. reflexivity. Qed.

Example delete_copy_accepted :
  snd (delete Demo.session Demo.library Demo.args_delete 5 (lit "2") Demo.start) =
  [ EvPrint (lit " Deleting... ");
    EvFetchUid (lit "2") (Ok (lit "OK", lit "2 (UID 72)"));
    EvUid (lit "COPY") [lit "72"; lit "Trash"] (Ok (lit "OK"));
    EvUid (lit "STORE") [lit "72"; lit "+FLAGS"; lit "(\Deleted)"] (Ok (lit "OK"));
    EvExpunge; EvPrint (lit "Ok.") ].
Proof. reflexivity. Qed.

(** [parse_uid] on a well-formed answer and on one the pattern rejects. *)
Example parse_uid_examples :
  parse_uid Demo.library (lit "12 (UID 3456)") = Ok (lit "3456") /\
  parse_uid Demo.library (lit "12 (FLAGS (\Seen))") = Raise AttributeError /\
  parse_uid Demo.library (lit "(UID 3456)") = Raise AttributeError.
Proof. repeat split; reflexivity. Qed.

(* ========================================================================= *)
(** * The validation of the local folder *)

Section LocalFolder.
Context {W : Type}.
Variable mail : Session W.
Variable fs : FileSystem W.
Variable lib : Library.
Variable args : Args.
Variable stack_room : nat.

Lemma process_checks (folder : pystr) (w : W) :
  let '(r, _, t) := process mail fs lib args stack_room folder w in
  (local_folder_checks t <= 1)%nat /\
  (forall v, r = Ok v -> local_folder_checks t = 1%nat) /\
  (forall (rv : pystr) (data0 : pybytes) (w1 : W),
      mail_search mail w = (Ok (rv, data0), w1) -> is_ok rv = true ->
      local_folder_checks t = 1%nat /\
      (os_isdir fs (local_folder args) w1 = false ->
       r = Raise NotADirectoryError /\ message_fetches t = 0%nat /\
       written t = [])).
Proof.
  pose proof (process_cases mail fs lib args stack_room folder w) as C.
  destruct (process mail fs lib args stack_room folder w) as [[r w'] t].
  destruct (mail_search mail w) as [[[rv data0]|e] w1].
  - destruct (is_ok rv) eqn:Eok.
    + cbv zeta in C.
      destruct (os_isdir fs (local_folder args) w1) eqn:Ed.
      * pose proof (process_loop_spec mail fs lib args stack_room folder
                      (bytes_split data0) 0 w1) as L.
        destruct (process_loop mail fs lib args stack_room folder 0
                    (bytes_split data0) w1) as [[r2 w2] t2].
        destruct C as [-> ->]. destruct L as (L0 & _).
        rewrite local_folder_checks_app, L0. cbn.
        split; [lia|]. split; [auto|].
        intros rv' d' w1' Q _. inversion Q; subst. split; [reflexivity|].
        congruence.
      * destruct C as [-> ->]. cbn.
        split; [lia|]. split; [discriminate|].
        intros rv' d' w1' Q _. inversion Q; subst. auto.
    + destruct C as [-> ->]. cbn. split; [lia|]. split; [discriminate|].
      intros rv' d' w1' Q Q2. inversion Q; subst. congruence.
  - destruct C as [-> ->]. cbn. split; [lia|]. split; [discriminate|].
    intros rv' d' w1' Q. discriminate.
Qed.

Lemma main_folders_checks (remote_folders_map : list folder_entry)
  (remote_folder : list pystr) :
  forall w : W,
    let '(r, _, t) := main_folders mail fs lib args stack_room
                                   remote_folders_map remote_folder w in
    (local_folder_checks t <= length remote_folder)%nat /\
    (forall u, r = Ok u -> local_folder_checks t = length remote_folder).
Proof.
  induction remote_folder as [|folder rest IH]; intros w.
  - cbn. split; [lia|auto].
  - cbn [main_folders length]. unfold bind, print, call, raise.
    destruct (filter _ remote_folders_map) as [|f _];
      [cbn; split; [lia|discriminate]|].
    destruct (mail_select mail (original f) w) as [[rv|e] w1];
      [|cbn; split; [lia|discriminate]].
    destruct (is_ok rv); [|cbn; split; [lia|discriminate]].
    pose proof (process_checks (original f) w1) as P.
    destruct (process mail fs lib args stack_room (original f) w1)
      as [[[v|e] w2] t2]; destruct P as (P1 & P2 & _).
    + destruct (mail_close mail w2) as [[u|e] w3].
      * specialize (IH w3).
        destruct (main_folders mail fs lib args stack_room
                    remote_folders_map rest w3) as [[r w4] t4].
        destruct IH as [I1 I2].
        repeat (rewrite ?local_folder_checks_app; cbn [app]).
        rewrite (P2 v eq_refl).
        change (local_folder_checks [EvPrint folder]) with 0%nat.
        change (local_folder_checks [EvSelect (original f) (Ok rv)]) with 0%nat.
        change (local_folder_checks
                  [EvPrint (lit "Processing mailbox: " ++ original f)])
          with 0%nat.
        change (local_folder_checks [EvClose]) with 0%nat.
        change (local_folder_checks []) with 0%nat.
        split; [lia|]. intros u' R. rewrite (I2 u' R). lia.
      * repeat (rewrite ?local_folder_checks_app; cbn [app]).
        rewrite (P2 v eq_refl).
        change (local_folder_checks [EvPrint folder]) with 0%nat.
        change (local_folder_checks [EvSelect (original f) (Ok rv)]) with 0%nat.
        change (local_folder_checks
                  [EvPrint (lit "Processing mailbox: " ++ original f)])
          with 0%nat.
        change (local_folder_checks [EvClose]) with 0%nat.
        split; [lia|discriminate].
    + repeat (rewrite ?local_folder_checks_app; cbn [app]).
      change (local_folder_checks [EvPrint folder]) with 0%nat.
      change (local_folder_checks [EvSelect (original f) (Ok rv)]) with 0%nat.
      change (local_folder_checks
                [EvPrint (lit "Processing mailbox: " ++ original f)])
        with 0%nat.
      split; [lia|discriminate].
Qed.
End LocalFolder.

(** C5, as stated, fails: the validation sits in [process], which [main]
    calls for each folder.  A run over the two folders of the demo mailbox
    validates the local folder twice. *)
Lemma local_folder_checked_for_each_folder :
  ~ (forall (W : Type) (mail : Session W) (fs : FileSystem W) (lib : Library)
            (args : Args) (stack_room : nat)
            (remote_folders_map : list folder_entry)
            (remote_folder : list pystr) (w : W),
        (local_folder_checks
           (snd (main_export mail fs lib args stack_room remote_folders_map
                             remote_folder w)) <= 1)%nat).
Proof.
  intros H.
  specialize (H Demo.world Demo.session Demo.file_system Demo.library
                Demo.args_keep 0%nat Demo.folders_map
                [lit "inbox"; lit "sent"] Demo.start).
  vm_compute in H.
  apply (Nat.nle_succ_diag_l 1). exact H.
Qed.

(** C5 (amended): the validation is made once in every folder export, after
    a successful search and before any fetch: a call of [process] makes it
    at most once, and exactly once when the search reported ['OK']; when the
    directory is absent the call raises [NotADirectoryError] without having
    fetched or written anything.  A run that exports all its folders makes
    it once for each of them. *)
Theorem local_folder_checked_once_per_folder
  {W : Type} (mail : Session W) (fs : FileSystem W) (lib : Library)
  (args : Args) (stack_room : nat) :
  (forall (folder : pystr) (w : W),
      let '(r, _, t) := process mail fs lib args stack_room folder w in
      (local_folder_checks t <= 1)%nat /\
      (forall (rv : pystr) (data0 : pybytes) (w1 : W),
          mail_search mail w = (Ok (rv, data0), w1) -> is_ok rv = true ->
          local_folder_checks t = 1%nat /\
          (os_isdir fs (local_folder args) w1 = false ->
           r = Raise NotADirectoryError /\ message_fetches t = 0%nat /\
           written t = []))) /\
  (forall (remote_folders_map : list folder_entry) (remote_folder : list pystr)
          (w : W),
      let '(r, _, t) := main_folders mail fs lib args stack_room
                                     remote_folders_map remote_folder w in
      (local_folder_checks t <= length remote_folder)%nat /\
      (forall u, r = Ok u -> local_folder_checks t = length remote_folder)).
Proof.
  split.
  - intros folder w.
    pose proof (process_checks mail fs lib args stack_room folder w) as P.
    destruct (process mail fs lib args stack_room folder w) as [[r w'] t].
    destruct P as (P1 & _ & P3). auto.
  - intros m fo w. apply main_folders_checks.
Qed.

(** Without the local folder, the export of the demo mailbox stops at the
    validation, and the handler of [main] reports it. *)
Example demo_local_folder_missing :
  let nowhere := {| Demo.dirs := []; Demo.files := [];
                    Demo.uid_lookup_fails := false |} in
  let t := snd (main_export Demo.session Demo.file_system Demo.library
                            Demo.args_keep 0 Demo.folders_map
                            [lit "inbox"; lit "sent"] nowhere) in
  reported t = [NotADirectoryError] /\ message_fetches t = 0%nat /\
  local_folder_checks t = 1%nat.
Proof. vm_compute. auto. Qed.

(* ========================================================================= *)
(** * Metadata, fallbacks and the unknown-identifier counter *)

Lemma lit_cons (a : ascii) (s : string) :
  lit (String a s) = Z.of_N (N_of_ascii a) :: lit s.
Proof. reflexivity. Qed.

Lemma lit_inj (a b : string) : lit a = lit b -> a = b.
Proof.
  revert b. induction a as [|x a IH]; intros [|y b] H;
    try discriminate; [reflexivity|].
  rewrite !lit_cons in H. inversion H as [[H1 H2]].
  apply N2Z.inj in H1. rewrite <- (ascii_N_embedding x), <- (ascii_N_embedding y), H1.
  f_equal. auto.
Qed.

(** [str] is one-to-one on integers. *)
Lemma str_of_int_inj (m n : Z) : str_of_int m = str_of_int n -> m = n.
Proof.
  unfold str_of_int. intros H. apply lit_inj in H.
  assert (N : forall z, NilZero.int_of_string (NilZero.string_of_int (Z.to_int z))
                        = Some (Z.to_int z)).
  { intros z. apply NilZero.isi.
    - intros E. pose proof (DecimalZ.of_to z) as Q. rewrite E in Q.
      cbn in Q. subst z. discriminate.
    - intros E. pose proof (DecimalZ.of_to z) as Q. rewrite E in Q.
      cbn in Q. subst z. discriminate. }
  pose proof (N m) as Nm. rewrite H, N in Nm. inversion Nm as [Q].
  rewrite <- (DecimalZ.of_to m), <- (DecimalZ.of_to n). now rewrite Q.
Qed.

(** The decimal digits and the minus sign are none of the characters that
    line 144 deletes. *)
Lemma sanitize_uint (d : Decimal.uint) :
  sanitize_message_id (lit (NilEmpty.string_of_uint d))
  = lit (NilEmpty.string_of_uint d).
Proof.
  induction d; cbn [NilEmpty.string_of_uint]; [reflexivity| ..];
    rewrite lit_cons; unfold sanitize_message_id, re_sub_delete in *;
    cbn [filter]; rewrite IHd; reflexivity.
Qed.

Lemma sanitize_uint_zero (d : Decimal.uint) :
  sanitize_message_id (lit (NilZero.string_of_uint d))
  = lit (NilZero.string_of_uint d).
Proof. destruct d; [reflexivity| ..]; apply sanitize_uint. Qed.

Lemma sanitize_message_id_str_of_int (n : Z) :
  sanitize_message_id (str_of_int n) = str_of_int n.
Proof.
  unfold str_of_int, NilZero.string_of_int.
  destruct (Z.to_int n) as [d|d]; [apply sanitize_uint_zero|].
  rewrite lit_cons.
  change (sanitize_message_id (Z.of_N (N_of_ascii "-") :: lit (NilZero.string_of_uint d)))
    with (Z.of_N (N_of_ascii "-") :: sanitize_message_id (lit (NilZero.string_of_uint d))).
  now rewrite sanitize_uint_zero.
Qed.

Lemma compose_name_counter (lib : Library) (c : Z) (msg : message) :
  fst (compose_name lib c msg) = if lacks_message_id lib msg then c + 1 else c.
Proof.
  unfold compose_name, lacks_message_id, message_id_or_counter, py_not.
  destruct (md_message_id (extract_metadata lib msg)) as [[|x s]|]; reflexivity.
Qed.

(** A message whose Message-ID header is absent or empty fails the test of
    line 136, wherever the [try] block ended. *)
Lemma absent_id_lacks (lib : Library) (msg : message) :
  py_not (msg_message_id msg) = true -> lacks_message_id lib msg = true.
Proof.
  intros H. unfold lacks_message_id, extract_metadata.
  destruct (subject_header lib (msg_subject msg)) as [h|e]; [|reflexivity].
  destruct (parsedate_tz lib (msg_date msg)) as [[tup|]|e];
    try reflexivity; try exact H.
  destruct (mktime_tz lib tup) as [ts|e]; try reflexivity.
  destruct (fromtimestamp lib ts) as [dt|e]; try reflexivity. exact H.
Qed.

(** The name of a message without a usable identifier carries the counter. *)
Lemma compose_name_unknown (lib : Library) (c : Z) (msg : message) :
  lacks_message_id lib msg = true ->
  exists date subject : pystr,
    snd (compose_name lib c msg)
    = date ++ str_of_int (c + 1) ++ lit " - " ++ subject.
Proof.
  unfold compose_name, lacks_message_id, message_id_or_counter, py_not.
  destruct (md_message_id (extract_metadata lib msg)) as [[|x s]|];
    try discriminate; intros _; cbn [snd];
    rewrite sanitize_message_id_str_of_int; eauto.
Qed.

Lemma unknown_ids_seq (lib : Library) (msgs : list message) :
  forall c : Z,
    let k := length (filter (lacks_message_id lib) msgs) in
    unknown_ids lib c msgs = map (fun i => c + Z.of_nat i) (seq 1 k) /\
    counter_after lib c msgs = c + Z.of_nat k.
Proof.
  induction msgs as [|msg rest IH]; intros c.
  - cbn. split; [reflexivity|lia].
  - cbn [unknown_ids counter_after filter]. rewrite compose_name_counter.
    destruct (lacks_message_id lib msg).
    + destruct (IH (c + 1)) as [I1 I2]. cbv zeta in *. rewrite I1, I2.
      cbn [length seq map]. split.
      * f_equal; try lia. rewrite <- (seq_shift _ 1), map_map.
        apply map_ext. intros i. lia.
      * lia.
    + apply IH.
Qed.

(** C3: the date is lost with the subject.  For a message without a Subject
    header the composed name starts with "Unknown Date" and carries the
    counter, whatever its Date and Message-ID headers hold and whatever the
    library would have made of them. *)
Theorem missing_subject_discards_date
  (lib : Library) (c : Z) (date_header id_header : option pystr) :
  compose_name lib c {| msg_subject := None; msg_date := date_header;
                        msg_message_id := id_header |}
  = (c + 1, lit "Unknown Date" ++ str_of_int (c + 1) ++ lit " - No subject").
Proof.
  unfold compose_name, extract_metadata.
  cbn [msg_subject subject_header md_subject md_date md_message_id
       subject_or_default message_id_or_counter].
  rewrite sanitize_message_id_str_of_int. reflexivity.
Qed.

(** When the subject decodes and the date parses, the name starts with the
    formatted date and the separator. *)
Lemma date_leads_when_subject_decodes
  (lib : Library) (c : Z) (msg : message) (header : pystr)
  (date_tuple_ : date_tuple) (timestamp : Z) (datetime_ : datetime) :
  subject_header lib (msg_subject msg) = Ok header ->
  parsedate_tz lib (msg_date msg) = Ok (Some date_tuple_) ->
  mktime_tz lib date_tuple_ = Ok timestamp ->
  fromtimestamp lib timestamp = Ok datetime_ ->
  exists rest : pystr,
    snd (compose_name lib c msg) = strftime datetime_ ++ lit " - " ++ rest.
Proof.
  intros H1 H2 H3 H4. unfold compose_name, extract_metadata.
  rewrite H1, H2, H3, H4. cbn [md_date md_subject md_message_id].
  destruct (message_id_or_counter c (msg_message_id msg)) as [c' ident].
  cbn [snd].
  destruct (strftime datetime_ ++ lit " - ") as [|x d] eqn:E.
  - apply (f_equal (@length Z)) in E. rewrite length_app in E.
    cbn in E. lia.
  - rewrite <- E, <- app_assoc. eauto.
Qed.

Example strftime_pads :
  strftime {| year := 2024; month := 1; day := 1;
              hour := 10; minute := 0; second := 0 |}
  = lit "2024-01-01 10:00:00".
Proof. reflexivity. Qed.

(** The message of the demo mailbox that has a Date and a Message-ID but no
    Subject. *)
Example demo_date_lost :
  compose_name Demo.library 0 Demo.msg_c = (1, lit "Unknown Date1 - No subject").
Proof. reflexivity. Qed.

Example demo_full_headers :
  compose_name Demo.library 0 Demo.msg_a
  = (0, lit "2024-01-01 10:00:00 - a1 - Test").
Proof. reflexivity. Qed.

Example sanitize_examples :
  sanitize_subject (lit "Hi/Bye" ++ [0x0D; 0x0A; 0x22]) = lit "Hi-Bye" /\
  sanitize_message_id (lit "<abc$1>") = lit "abc1".
Proof. split; reflexivity. Qed.

(** C10: after the [try] block [subject] is never [None], so the branch of
    lines 132-133 is dead and its literal "No Subject" is never assigned:
    the subject that goes into the name is the decoded header, or the
    literal "No subject" when the decoding raised. *)
Theorem subject_fallback_is_no_subject (lib : Library) (msg : message) :
  md_subject (extract_metadata lib msg) <> None /\
  subject_or_default (md_subject (extract_metadata lib msg))
  = match subject_header lib (msg_subject msg) with
    | Ok header => header
    | Raise _ => lit "No subject"
    end /\
  (forall c : Z, exists date ident : pystr,
      snd (compose_name lib c msg)
      = date ++ ident ++ lit " - "
        ++ sanitize_subject
             match subject_header lib (msg_subject msg) with
             | Ok header => header
             | Raise _ => lit "No subject"
             end) /\
  lit "No subject" <> lit "No Subject".
Proof.
  assert (S : exists s, md_subject (extract_metadata lib msg) = Some s /\
                        s = match subject_header lib (msg_subject msg) with
                            | Ok header => header
                            | Raise _ => lit "No subject"
                            end).
  { unfold extract_metadata.
    destruct (subject_header lib (msg_subject msg)) as [h|e];
      [|eexists; split; reflexivity].
    destruct (parsedate_tz lib (msg_date msg)) as [[tup|]|e];
      try (eexists; split; reflexivity).
    destruct (mktime_tz lib tup) as [ts|e];
      try (eexists; split; reflexivity).
    destruct (fromtimestamp lib ts) as [dt|e]; eexists; split; reflexivity. }
  destruct S as (s & S1 & S2).
  split; [congruence|]. split; [rewrite S1; exact S2|].
  split; [|intros E; vm_compute in E; discriminate E].
  intros c. unfold compose_name. rewrite S1. cbn [subject_or_default].
  destruct (message_id_or_counter c _) as [c' ident]. rewrite <- S2.
  cbn [snd]. do 2 eexists. reflexivity.
Qed.

Lemma unknown_ids_distinct (lib : Library) (msgs : list message) :
  NoDup (map str_of_int (unknown_ids lib 0 msgs)).
Proof.
  destruct (unknown_ids_seq lib msgs 0) as [E _]. cbv zeta in E. rewrite E.
  rewrite map_map. apply Injective_map_NoDup; [|apply seq_NoDup].
  intros i j H. apply str_of_int_inj in H. lia.
Qed.

(** The files of a completed export are the names composed from counter 0. *)
Lemma process_names
  {W : Type} (mail : Session W) (fs : FileSystem W) (lib : Library)
  (args : Args) (stack_room : nat) (folder : pystr) (w w' : W)
  (v : pyvalue) (t : list event) :
  process mail fs lib args stack_room folder w = (Ok v, w', t) ->
  exists msgs : list message,
    Forall2 (fun raw msg => parse_message lib raw = Ok msg) (fetched_ok t) msgs /\
    Forall2 stored_as (written_paths t) (name_messages lib 0 msgs).
Proof.
  intros R.
  pose proof (process_cases mail fs lib args stack_room folder w) as C.
  rewrite R in C.
  destruct (mail_search mail w) as [[[rv data0]|e] w1];
    [|destruct C; discriminate].
  destruct (is_ok rv) eqn:Eok; [|destruct C; discriminate].
  cbv zeta in C.
  destruct (os_isdir fs (local_folder args) w1); [|destruct C; discriminate].
  pose proof (process_loop_spec mail fs lib args stack_room folder
                (bytes_split data0) 0 w1) as L.
  destruct (process_loop mail fs lib args stack_room folder 0
              (bytes_split data0) w1) as [[[c|e] w2] t2];
    [|destruct C; discriminate].
  destruct C as [-> _]. destruct L as (_ & _ & _ & L).
  destruct (L c eq_refl) as (_ & _ & msgs & M1 & _ & M3).
  exists msgs. rewrite fetched_ok_app, written_paths_app. cbn. auto.
Qed.

Lemma lacks_message_id_counted (lib : Library) (msg : message) :
  lacks_message_id lib msg = counted lib msg.
Proof.
  unfold lacks_message_id, counted, message_id_unread, extract_metadata.
  destruct (subject_header lib (msg_subject msg)) as [h|e]; [|reflexivity].
  destruct (parsedate_tz lib (msg_date msg)) as [[tup|]|e]; try reflexivity.
  destruct (mktime_tz lib tup) as [ts|e]; try reflexivity.
  destruct (fromtimestamp lib ts) as [dt|e]; reflexivity.
Qed.

Lemma filter_counted (lib : Library) (msgs : list message) :
  filter (lacks_message_id lib) msgs = filter (counted lib) msgs.
Proof. apply filter_ext. intros msg. apply lacks_message_id_counted. Qed.

(** C6: the counter also counts messages that carry an identifier.  One
    round moves the counter, by one, exactly when the Message-ID header is
    absent or empty or line 127 was not reached; so a message with a
    Message-ID and no Subject is counted, and named by the counter, whatever
    its Message-ID holds.  Within one folder the values substituted are
    1, 2, ..., k in this order, k the number of counted messages; their
    decimal forms are pairwise different, and the files of a folder that is
    exported to the end are named from counter 0.  On the demo mailbox the
    third message carries [<c3>]: it is written under the counter value 2,
    and the counter ends at 2 with one message that has no identifier. *)
Theorem counter_counts_messages_with_an_identifier :
  (forall (lib : Library) (c : Z) (msg : message),
      fst (compose_name lib c msg) = if counted lib msg then c + 1 else c) /\
  (forall (lib : Library) (c : Z) (date_header : option pystr)
          (x : codepoint) (ident : pystr),
      compose_name lib c {| msg_subject := None; msg_date := date_header;
                            msg_message_id := Some (x :: ident) |}
      = (c + 1, lit "Unknown Date" ++ str_of_int (c + 1) ++ lit " - No subject")) /\
  (forall (lib : Library) (msgs : list message),
      let k := length (filter (counted lib) msgs) in
      unknown_ids lib 0 msgs = map Z.of_nat (seq 1 k) /\
      counter_after lib 0 msgs = Z.of_nat k /\
      NoDup (map str_of_int (unknown_ids lib 0 msgs))) /\
  (forall (W : Type) (mail : Session W) (fs : FileSystem W) (lib : Library)
          (args : Args) (stack_room : nat) (folder : pystr) (w w' : W)
          (v : pyvalue) (t : list event),
      process mail fs lib args stack_room folder w = (Ok v, w', t) ->
      exists run : list message,
        Forall2 (fun raw msg => parse_message lib raw = Ok msg)
                (fetched_ok t) run /\
        Forall2 stored_as (written_paths t) (name_messages lib 0 run)) /\
  (let '(r, _, t) :=
     process Demo.session Demo.file_system Demo.library Demo.args_keep 0
             (lit "INBOX") Demo.start in
   r = Ok PyNone /\
   fetched_ok t = [Demo.raw_a; Demo.raw_b; Demo.raw_c] /\
   map (parse_message Demo.library) (fetched_ok t)
   = [Ok Demo.msg_a; Ok Demo.msg_b; Ok Demo.msg_c] /\
   map msg_message_id [Demo.msg_a; Demo.msg_b; Demo.msg_c]
   = [Some (lit "<a1>"); None; Some (lit "<c3>")] /\
   written_paths t =
     [ lit "/out/INBOX/2024-01-01 10:00:00 - a1 - Test.eml";
       lit "/out/INBOX/Unknown Date1 - No subject.eml";
       lit "/out/INBOX/Unknown Date2 - No subject.eml" ] /\
   counter_after Demo.library 0 [Demo.msg_a; Demo.msg_b; Demo.msg_c] = 2).
Proof.
  split; [|split; [|split; [|split]]].
  - intros lib c msg. rewrite <- lacks_message_id_counted.
    apply compose_name_counter.
  - intros lib c date_header x ident.
    unfold compose_name, extract_metadata.
    cbn [msg_subject subject_header md_subject md_date md_message_id
         subject_or_default message_id_or_counter].
    rewrite sanitize_message_id_str_of_int. reflexivity.
  - intros lib msgs. cbv zeta. rewrite <- filter_counted.
    destruct (unknown_ids_seq lib msgs 0) as [E1 E2]. cbv zeta in E1, E2.
    split; [rewrite E1; apply map_ext; intros; lia|].
    split; [rewrite E2; lia|apply unknown_ids_distinct].
  - intros. eapply process_names; eauto.
  - vm_compute. repeat split; reflexivity.
Qed.

(** Three messages: the first has no header at all, the last a Message-ID
    but no Subject; both are counted. *)
Example demo_unknown_ids :
  unknown_ids Demo.library 0 [Demo.msg_b; Demo.msg_a; Demo.msg_c] = [1; 2] /\
  name_messages Demo.library 0 [Demo.msg_b; Demo.msg_a; Demo.msg_c]
  = [ lit "Unknown Date1 - No subject";
      lit "2024-01-01 10:00:00 - a1 - Test";
      lit "Unknown Date2 - No subject" ].
Proof. split; reflexivity. Qed.

(** Two folders in one run: the second folder's names start at 1 again. *)
Example demo_counter_restarts :
  written_paths
    (snd (main_export Demo.session Demo.file_system Demo.library
                      Demo.args_keep 0 Demo.folders_map
                      [lit "inbox"; lit "sent"] Demo.start))
  = [ lit "/out/INBOX/2024-01-01 10:00:00 - a1 - Test.eml";
      lit "/out/INBOX/Unknown Date1 - No subject.eml";
      lit "/out/INBOX/Unknown Date2 - No subject.eml";
      lit "/out/Sent/2024-01-01 10:00:00 - a1 - Test.eml";
      lit "/out/Sent/Unknown Date1 - No subject.eml";
      lit "/out/Sent/Unknown Date2 - No subject.eml" ].
Proof. vm_compute. reflexivity. Qed.

(* ========================================================================= *)
(** * [parse_uid]: what it accepts and what it gives *)

Lemma span_digits_spec (digit : codepoint -> bool) (s : pystr) :
  forall d r : pystr,
    span_digits digit s = (d, r) -> s = d ++ r /\ forallb digit d = true.
Proof.
  induction s as [|c s IH]; intros d r H; cbn in H.
  - inversion H. auto.
  - destruct (digit c) eqn:E.
    + destruct (span_digits digit s) as [d' r'] eqn:S. inversion H; subst.
      destruct (IH d' r eq_refl) as [-> F]. cbn. now rewrite E, F.
    + inversion H. auto.
Qed.

Lemma span_digits_app (digit : codepoint -> bool) (d r : pystr) :
  forallb digit d = true ->
  match r with [] => True | c :: _ => digit c = false end ->
  span_digits digit (d ++ r) = (d, r).
Proof.
  intros F R. induction d as [|c d IH]; cbn in *.
  - destruct r as [|c r]; [reflexivity|]. cbn. now rewrite R.
  - apply andb_true_iff in F as [F1 F2]. now rewrite F1, (IH F2).
Qed.

Lemma strip_prefix_spec (p : pystr) :
  forall s r : pystr, strip_prefix p s = Some r -> s = p ++ r.
Proof.
  induction p as [|x p IH]; intros s r H; cbn in H.
  - now inversion H.
  - destruct s as [|y s]; [discriminate|].
    destruct (x =? y) eqn:E; [|discriminate].
    apply Z.eqb_eq in E. subst y. cbn. f_equal. auto.
Qed.

Lemma strip_prefix_app (p r : pystr) : strip_prefix p (p ++ r) = Some r.
Proof.
  induction p as [|x p IH]; cbn; [reflexivity|]. now rewrite Z.eqb_refl.
Qed.

(** X1: a response of the form digits, " (UID ", digits, ")" and anything
    after it gives the second run of digits, provided the blank and the
    closing parenthesis are no digits. *)
Theorem parse_uid_reads_uid
  (lib : Library) (seq_digits uid rest : pystr) :
  seq_digits <> [] -> uid <> [] ->
  forallb (re_digit lib) seq_digits = true ->
  forallb (re_digit lib) uid = true ->
  re_digit lib 0x20 = false -> re_digit lib 0x29 = false ->
  parse_uid lib (seq_digits ++ lit " (UID " ++ uid ++ lit ")" ++ rest) = Ok uid.
Proof.
  intros N1 N2 F1 F2 D1 D2. unfold parse_uid.
  rewrite (span_digits_app (re_digit lib) seq_digits _ F1) by exact D1.
  destruct seq_digits as [|c s]; [contradiction|].
  rewrite strip_prefix_app.
  rewrite (span_digits_app (re_digit lib) uid _ F2) by exact D2.
  destruct uid as [|u us]; [contradiction|]. reflexivity.
Qed.

(** X1 on the answer of a server for message 12. *)
Lemma parse_uid_reads_uid_witness :
  parse_uid Demo.library (lit "12" ++ lit " (UID " ++ lit "3456" ++ lit ")" ++ [])
  = Ok (lit "3456").
Proof.
  apply (parse_uid_reads_uid Demo.library (lit "12") (lit "3456") []);
    (discriminate || reflexivity).
Defined.

(** X2: whatever [parse_uid] returns is a non-empty run of digits that the
    input holds in the place of the pattern, behind a non-empty run of
    digits and " (UID " and before ")"; and the only exception it raises is
    [AttributeError]. *)
Theorem parse_uid_sound (lib : Library) (data : pystr) :
  match parse_uid lib data with
  | Ok uid =>
      exists seq_digits rest : pystr,
        data = seq_digits ++ lit " (UID " ++ uid ++ lit ")" ++ rest /\
        seq_digits <> [] /\ uid <> [] /\
        forallb (re_digit lib) seq_digits = true /\
        forallb (re_digit lib) uid = true
  | Raise e => e = AttributeError
  end.
Proof.
  unfold parse_uid.
  destruct (span_digits (re_digit lib) data) as [d r1] eqn:S1.
  apply span_digits_spec in S1 as [-> F1].
  destruct d as [|c d]; [reflexivity|].
  destruct (strip_prefix (lit " (UID ") r1) as [r2|] eqn:P; [|reflexivity].
  apply strip_prefix_spec in P. subst r1.
  destruct (span_digits (re_digit lib) r2) as [uid r3] eqn:S2.
  apply span_digits_spec in S2 as [-> F2].
  destruct uid as [|u us]; [reflexivity|].
  destruct r3 as [|x r3]; [reflexivity|].
  destruct (Z.eq_dec x 0x29) as [->|N].
  - exists (c :: d), r3.
    split; [reflexivity|]. repeat split; auto; discriminate.
  - destruct x as [|p|p]; try reflexivity.
    repeat (destruct p as [p|p|]; try reflexivity).
    exfalso. apply N. reflexivity.
Qed.

(* ========================================================================= *)
(** * [trim_file_name]: what a cut keeps *)

(** A proper, non-empty prefix of the encoding of one character does not
    decode. *)
Lemma utf8_decode_cut_cp (c : codepoint) (b : pybytes) (n : nat) :
  utf8_encode_cp c = Some b ->
  (0 < n < length b)%nat -> utf8_decode (firstn n b) = None.
Proof.
  unfold utf8_encode_cp. intros H L.
  destruct (c <? 0) eqn:E0; [discriminate|].
  destruct (c <? 0x110000) eqn:E4;
    [|repeat match type of H with
              | (if ?t then _ else _) = _ => destruct t eqn:?
              end; try discriminate; zbool; lia].
  zbool.
  destruct (digits64 c)
    as (d3 & d2 & d1 & d0 & Hc & ? & ? & ? & ? & M0 & M1 & M2 & Q1 & Q2 & Q3);
    [lia|].
  rewrite M0, M1, M2, Q1, Q2, Q3 in H. clear M0 M1 M2 Q1 Q2 Q3.
  repeat match type of H with
         | (if ?t then _ else _) = _ => destruct t eqn:?
         end; try discriminate;
    match type of H with
    | Some ?l = Some _ => assert (Hb : b = l) by congruence; subst b; clear H
    end; zbool; cbn [length] in L.
  all: try lia.
  all: destruct n as [|[|[|[|n]]]]; try lia; cbn [firstn].
  all: rewrite utf8_decode_cons; cbv zeta.
  all: repeat decide_if; reflexivity.
Qed.

Lemma utf8_encode_cp_length (c : codepoint) (b : pybytes) :
  utf8_encode_cp c = Some b -> (1 <= length b <= 4)%nat.
Proof.
  unfold utf8_encode_cp. intros H.
  repeat match type of H with
         | (if ?t then _ else _) = _ => destruct t
         end; try discriminate; inversion H; cbn; lia.
Qed.

(** What decodes from a cut of an encoded string is a prefix of the string. *)
Lemma utf8_decode_cut (s : pystr) :
  forall (bs : pybytes) (n : nat) (r : pystr),
    utf8_encode s = Some bs -> utf8_decode (firstn n bs) = Some r ->
    exists j : nat, r = firstn j s.
Proof.
  induction s as [|c s IH]; intros bs n r E D; cbn in E.
  - inversion E; subst. rewrite firstn_nil in D. cbn in D. inversion D.
    exists 0%nat. reflexivity.
  - destruct (utf8_encode_cp c) as [b|] eqn:Ec; [|discriminate].
    destruct (utf8_encode s) as [bs'|] eqn:Es; [|discriminate].
    inversion E; subst bs. rewrite firstn_app in D.
    pose proof (utf8_encode_cp_length c b Ec) as Lb.
    destruct (Nat.le_gt_cases (length b) n) as [G|G].
    + rewrite firstn_all2 in D by exact G.
      rewrite (utf8_decode_encode_cp c b _ Ec) in D.
      apply option_map_cons_some in D as (r' & D' & ->).
      destruct (IH bs' _ r' eq_refl D') as [j ->].
      exists (S j). reflexivity.
    + replace (n - length b)%nat with 0%nat in D by lia.
      cbn [firstn] in D. rewrite app_nil_r in D.
      destruct n as [|n].
      * cbn in D. inversion D. exists 0%nat. reflexivity.
      * rewrite (utf8_decode_cut_cp c b (S n) Ec) in D by lia. discriminate.
Qed.

Lemma trim_file_name_firstn
  (max_length : Z) (filename file_ext name : pystr) :
  trim_file_name max_length filename file_ext = Ok name ->
  exists j : nat, name = firstn j filename.
Proof.
  unfold trim_file_name. intros H.
  destruct (utf8_encode filename) as [nb|] eqn:En; [|discriminate].
  destruct (utf8_encode file_ext) as [eb|]; [|discriminate].
  cbv zeta in H. destruct (_ >? _).
  - inversion H as [Hn].
    destruct (decode_loop_prefix (slice_to nb (max_length - py_len eb - 1)))
      as (n & _ & D).
    destruct (firstn_slice_to n nb (max_length - py_len eb - 1)) as [m Em].
    rewrite Em in D. exact (utf8_decode_cut filename nb m _ En D).
  - inversion H; subst. exists (length name). now rewrite firstn_all.
Qed.

(** X3: the name [trim_file_name] returns is a prefix of the name it was
    given, character by character: a cut never alters or reorders text. *)
Theorem trim_file_name_prefix
  (max_length : Z) (filename file_ext name : pystr) :
  trim_file_name max_length filename file_ext = Ok name ->
  exists j : nat, name = firstn j filename.
Proof.
  intros H. destruct (trim_file_name_firstn _ _ _ _ H) as [j E].
  exists j. exact E.
Qed.

(** X3 on a name cut inside the two bytes of U+00E9. *)
Lemma trim_file_name_prefix_witness :
  exists j : nat, [0x61] = firstn j [0x61; 0xE9; 0x62].
Proof.
  apply (trim_file_name_prefix 6 [0x61; 0xE9; 0x62] (lit "eml") [0x61]).
  reflexivity.
Defined.

(** The loop of lines 75-81 stops at the longest prefix that decodes. *)
Lemma decode_loop_longest (bs : pybytes) :
  exists n : nat,
    (n <= length bs)%nat /\
    utf8_decode (firstn n bs) = Some (decode_loop bs) /\
    forall m : nat, (n < m <= length bs)%nat -> utf8_decode (firstn m bs) = None.
Proof.
  funelim (decode_loop bs).
  - exists (length filename_bytes). rewrite firstn_all.
    split; [lia|]. split; [assumption|]. intros m Hm. lia.
  - match goal with
    | IH : exists n : nat, _ |- _ => destruct IH as (n & Hn & Hd & Hmax)
    end.
    assert (Lr : length (removelast filename_bytes)
                 = (length filename_bytes - 1)%nat).
    { rewrite removelast_firstn_pred, length_firstn. lia. }
    rewrite Lr in Hn.
    assert (E : forall i, (i <= length filename_bytes - 1)%nat ->
                firstn i (removelast filename_bytes) = firstn i filename_bytes).
    { intros i Hi. rewrite removelast_firstn_pred, firstn_firstn.
      f_equal. lia. }
    exists n. split; [lia|]. split; [rewrite <- E by lia; exact Hd|].
    intros m Hm.
    destruct (Nat.eq_dec m (length filename_bytes)) as [->|Ne].
    + now rewrite firstn_all.
    + rewrite <- E by lia. apply Hmax. rewrite Lr. lia.
Qed.

(** Up to three bytes below any cut of an encoded string there is a place
    where the string decodes. *)
Lemma utf8_decodable_near (s : pystr) :
  forall (bs : pybytes) (k : nat),
    utf8_encode s = Some bs -> (k <= length bs)%nat ->
    exists n : nat,
      (n <= k <= n + 3)%nat /\ utf8_decode (firstn n bs) <> None.
Proof.
  induction s as [|c s IH]; intros bs k E L; cbn in E.
  - inversion E; subst. cbn in L. exists 0%nat. split; [lia|]. discriminate.
  - destruct (utf8_encode_cp c) as [b|] eqn:Ec; [|discriminate].
    destruct (utf8_encode s) as [bs'|] eqn:Es; [|discriminate].
    inversion E; subst bs. rewrite length_app in L.
    pose proof (utf8_encode_cp_length c b Ec) as Lb.
    destruct (Nat.le_gt_cases (length b) k) as [G|G].
    + destruct (IH bs' (k - length b)%nat eq_refl ltac:(lia)) as (n & Hn & Hd).
      exists (length b + n)%nat. split; [lia|].
      rewrite firstn_app, firstn_all2 by lia.
      replace (length b + n - length b)%nat with n by lia.
      rewrite (utf8_decode_encode_cp c b _ Ec).
      destruct (utf8_decode (firstn n bs')); [discriminate|contradiction].
    + exists 0%nat. split; [lia|]. discriminate.
Qed.

(** X4: when a name is longer than a non-negative budget, the name
    returned fills the budget up to at most three bytes, the most a
    character cut in two can cost. *)
Theorem trim_file_name_keeps_most
  (max_length : Z) (filename file_ext : pystr) (name_bytes ext_bytes : pybytes) :
  utf8_encode filename = Some name_bytes ->
  utf8_encode file_ext = Some ext_bytes ->
  0 <= max_length - py_len ext_bytes - 1 < py_len name_bytes ->
  exists (name : pystr) (out_bytes : pybytes),
    trim_file_name max_length filename file_ext = Ok name /\
    utf8_encode name = Some out_bytes /\
    max_length - py_len ext_bytes - 1 - 3 <= py_len out_bytes
    <= max_length - py_len ext_bytes - 1.
Proof.
  intros En Ee Hb. unfold trim_file_name. rewrite En, Ee. cbv zeta.
  set (budget := max_length - py_len ext_bytes - 1) in *.
  destruct (py_len name_bytes >? budget) eqn:G;
    [|rewrite Z.gtb_ltb in G; apply Z.ltb_ge in G; lia].
  assert (S : slice_to name_bytes budget = firstn (Z.to_nat budget) name_bytes).
  { unfold slice_to. destruct (budget <? 0) eqn:N; [|reflexivity].
    apply Z.ltb_lt in N. lia. }
  rewrite S. set (k := Z.to_nat budget). unfold py_len in Hb.
  set (cut := firstn k name_bytes).
  assert (Lc : length cut = k) by (unfold cut; rewrite length_firstn; lia).
  destruct (decode_loop_longest cut) as (n & Hn & Hd & Hmax).
  destruct (utf8_decodable_near filename name_bytes k En ltac:(lia))
    as (n0 & Hn0 & Hd0).
  assert (Le : (n0 <= n)%nat).
  { destruct (Nat.le_gt_cases n0 n) as [?|Gt]; [assumption|].
    exfalso. apply Hd0. rewrite <- (Hmax n0 ltac:(lia)).
    unfold cut. rewrite firstn_firstn.
    replace (Nat.min n0 k) with n0 by lia. reflexivity. }
  exists (decode_loop cut), (firstn n cut).
  split; [reflexivity|]. split; [now apply utf8_encode_decode|].
  unfold py_len. rewrite length_firstn. lia.
Qed.

(** X4 on [a], U+00E9, [b] under a budget of two bytes: one byte is kept. *)
Lemma trim_file_name_keeps_most_witness :
  exists (name : pystr) (out_bytes : pybytes),
    trim_file_name 6 [0x61; 0xE9; 0x62] (lit "eml") = Ok name /\
    utf8_encode name = Some out_bytes /\
    6 - py_len (lit "eml") - 1 - 3 <= py_len out_bytes
    <= 6 - py_len (lit "eml") - 1.
Proof.
  apply (trim_file_name_keeps_most 6 [0x61; 0xE9; 0x62] (lit "eml")
           [0x61; 0xC3; 0xA9; 0x62] (lit "eml"));
    [reflexivity | reflexivity | vm_compute; split; discriminate || reflexivity].
Defined.

(* ========================================================================= *)
(** * The composed name as a file name *)

Lemma no_slash_uint (d : Decimal.uint) :
  Forall (fun ch => ch <> 0x2F) (lit (NilEmpty.string_of_uint d)).
Proof.
  induction d; cbn [NilEmpty.string_of_uint]; [constructor| ..];
    rewrite lit_cons; constructor; (discriminate || assumption).
Qed.

Lemma no_slash_str_of_int (n : Z) :
  Forall (fun ch => ch <> 0x2F) (str_of_int n).
Proof.
  unfold str_of_int, NilZero.string_of_int, NilZero.string_of_uint.
  assert (U : forall d, Forall (fun ch => ch <> 0x2F)
                          (lit match d with
                               | Decimal.Nil => "0"%string
                               | _ => NilEmpty.string_of_uint d
                               end)).
  { intros d. destruct d; try apply no_slash_uint.
    repeat constructor. discriminate. }
  destruct (Z.to_int n) as [d|d]; [apply U|].
  rewrite lit_cons. constructor; [discriminate|apply U].
Qed.

Lemma no_slash_pad (width : nat) (n : Z) :
  Forall (fun ch => ch <> 0x2F) (pad width n).
Proof.
  unfold pad. apply Forall_app. split; [|apply no_slash_str_of_int].
  apply Forall_forall. intros x H. apply repeat_spec in H. subst x. discriminate.
Qed.

Lemma no_slash_strftime (d : datetime) :
  Forall (fun ch => ch <> 0x2F) (strftime d).
Proof.
  unfold strftime.
  repeat first [ apply no_slash_pad
               | apply Forall_nil
               | apply Forall_cons; [discriminate|]
               | apply Forall_app; split ].
Qed.

Lemma no_slash_sanitize_message_id (s : pystr) :
  Forall (fun ch => ch <> 0x2F) (sanitize_message_id s).
Proof.
  unfold sanitize_message_id, re_sub_delete. apply Forall_forall.
  intros x H. apply filter_In in H as [_ H]. intros ->. discriminate H.
Qed.

Lemma lstrip_suffix (s : pystr) : exists pre : pystr, s = pre ++ lstrip s.
Proof.
  induction s as [|c s IH]; [exists []; reflexivity|]. cbn.
  destruct (py_isspace c); [|exists []; reflexivity].
  destruct IH as [pre E]. exists (c :: pre). cbn. now f_equal.
Qed.

Lemma Forall_lstrip (P : Z -> Prop) (s : pystr) :
  Forall P s -> Forall P (lstrip s).
Proof.
  intros H. destruct (lstrip_suffix s) as [pre E]. rewrite E in H.
  now apply Forall_app in H.
Qed.

Lemma no_slash_sanitize_subject (s : pystr) :
  Forall (fun ch => ch <> 0x2F) (sanitize_subject s).
Proof.
  unfold sanitize_subject, strip.
  apply Forall_rev, Forall_lstrip, Forall_rev, Forall_lstrip.
  unfold replace_cp. apply Forall_forall. intros x H.
  apply in_map_iff in H as (c & <- & _).
  destruct (c =? 0x2F) eqn:E; [discriminate|]. now apply Z.eqb_neq in E.
Qed.

(** The date part is the fallback literal or a formatted date with its
    separator. *)
Lemma md_date_cases (lib : Library) (msg : message) :
  md_date (extract_metadata lib msg) = [] \/
  exists d : datetime,
    md_date (extract_metadata lib msg) = strftime d ++ lit " - ".
Proof.
  unfold extract_metadata.
  destruct (subject_header lib (msg_subject msg)); [|now left].
  destruct (parsedate_tz lib (msg_date msg)) as [[tup|]|]; try now left.
  destruct (mktime_tz lib tup) as [ts|]; [|now left].
  destruct (fromtimestamp lib ts) as [d|]; [|now left].
  right. now exists d.
Qed.

Lemma compose_name_no_slash (lib : Library) (c : Z) (msg : message) :
  Forall (fun ch => ch <> 0x2F) (snd (compose_name lib c msg)).
Proof.
  unfold compose_name.
  destruct (message_id_or_counter c (md_message_id (extract_metadata lib msg)))
    as [c' ident]. cbn [snd].
  - repeat (apply Forall_app; split).
    + assert (D : Forall (fun ch => ch <> 0x2F)
                         (md_date (extract_metadata lib msg))).
      { destruct (md_date_cases lib msg) as [E|[d E]]; rewrite E.
        - constructor.
        - apply Forall_app. split; [apply no_slash_strftime|].
          repeat constructor; discriminate. }
      destruct (md_date (extract_metadata lib msg)); [|exact D].
      repeat constructor; discriminate.
    + apply no_slash_sanitize_message_id.
    + repeat constructor; discriminate.
    + apply no_slash_sanitize_subject.
Qed.

(** X5: whatever the headers hold, the composed name contains no path
    separator and is at least three characters long. *)
Theorem composed_name_is_one_component (lib : Library) (c : Z) (msg : message) :
  Forall (fun ch => ch <> 0x2F) (snd (compose_name lib c msg)) /\
  (3 <= length (snd (compose_name lib c msg)))%nat.
Proof.
  split; [apply compose_name_no_slash|].
  unfold compose_name.
  destruct (message_id_or_counter c (md_message_id (extract_metadata lib msg)))
    as [c' ident]. cbn [snd].
  rewrite !length_app. cbn. lia.
Qed.

(** X7: when the date tuple cannot be turned into a local time
    ([mktime_tz] or [fromtimestamp] raises), the [try] block is left before
    the Message-ID is read: the name starts with "Unknown Date" and carries
    the counter, whatever the Message-ID header holds. *)
Theorem date_conversion_failure_drops_id
  (lib : Library) (c : Z) (msg : message) (header : pystr)
  (date_tuple_ : date_tuple) :
  subject_header lib (msg_subject msg) = Ok header ->
  parsedate_tz lib (msg_date msg) = Ok (Some date_tuple_) ->
  (forall timestamp : Z,
      mktime_tz lib date_tuple_ = Ok timestamp ->
      exists e : exn, fromtimestamp lib timestamp = Raise e) ->
  compose_name lib c msg
  = (c + 1, lit "Unknown Date" ++ str_of_int (c + 1) ++ lit " - "
            ++ sanitize_subject header).
Proof.
  intros H1 H2 H3. unfold compose_name, extract_metadata. rewrite H1, H2.
  destruct (mktime_tz lib date_tuple_) as [ts|e].
  - destruct (H3 ts eq_refl) as [e ->].
    cbn [md_date md_subject md_message_id subject_or_default
         message_id_or_counter].
    now rewrite sanitize_message_id_str_of_int.
  - cbn [md_date md_subject md_message_id subject_or_default
         message_id_or_counter].
    now rewrite sanitize_message_id_str_of_int.
Qed.

(** X7 on the demo message with all headers, under a [mktime_tz] that
    overflows. *)
Lemma date_conversion_failure_drops_id_witness :
  compose_name overflow_library 0 Demo.msg_a
  = (0 + 1, lit "Unknown Date" ++ str_of_int (0 + 1) ++ lit " - "
            ++ sanitize_subject (lit "Test")).
Proof.
  apply (date_conversion_failure_drops_id overflow_library 0 Demo.msg_a
           (lit "Test")
           {| dt_fields := [2024; 1; 1; 10; 0; 0; 0; 1; -1];
              dt_tzoffset := Some 0 |});
    [reflexivity | reflexivity | intros timestamp H; discriminate H].
Defined.

Lemma Forall_firstn_keeps {A : Type} (P : A -> Prop) (n : nat) (l : list A) :
  Forall P l -> Forall P (firstn n l).
Proof.
  intros H. rewrite <- (firstn_skipn n l) in H. now apply Forall_app in H.
Qed.

(** X6: whatever one round of the loop writes, it writes to a file directly
    in the folder's directory: the path is that directory, a separator, a
    name without separator, a dot and the extension. *)
Theorem message_file_lies_in_folder_directory
  {W : Type} (mail : Session W) (fs : FileSystem W) (lib : Library)
  (args : Args) (stack_room : nat) (folder : pystr) (c : Z) (num : pybytes)
  (w : W) :
  Forall (fun path =>
            exists name : pystr,
              path = final_dir_of fs args folder w ++ lit "/" ++ name
                     ++ lit "." ++ FILENAME_EXT /\
              Forall (fun ch => ch <> 0x2F) name)
         (written_paths
            (snd (process_message mail fs lib args stack_room folder c num w))).
Proof.
  unfold process_message, fetch_message, final_dir_of, is_ok. unfold_stmt.
  repeat run_step.
  all: repeat match goal with
       | H : delete ?m ?l ?a ?n ?x ?w = _ |- _ =>
           let Q := fresh "Q" in
           pose proof (delete_export_free m l a n x w) as Q; rewrite H in Q;
           cbn [snd] in Q; destruct Q as (_ & _ & _ & _ & Q); clear H
       | H : (_, _, _) = (_, _, _) |- _ => inversion H; subst; clear H
       | H : (_, _) = (_, _) |- _ => inversion H; subst; clear H
       end.
  all: cbn [snd]; repeat rewrite ?written_paths_app;
    repeat match goal with Q : written_paths _ = [] |- _ => rewrite Q end;
    cbn [written_paths flat_map app].
  all: try apply Forall_nil.
  all: constructor; [|apply Forall_nil].
  all: match goal with
       | Hc : compose_name ?lb ?c0 ?m = (_, ?f),
         Ht : trim_file_name ?ml ?f _ = Ok ?n |- exists _, _ =>
           exists n; split; [reflexivity|];
           destruct (trim_file_name_firstn ml f _ n Ht) as [j ->];
           apply Forall_firstn_keeps;
           pose proof (compose_name_no_slash lb c0 m) as K;
           rewrite Hc in K; exact K
       end.
Qed.

(* ========================================================================= *)
(** * The order of events in an export *)

Lemma pystr_eqb_refl (a : pystr) : pystr_eqb a a = true.
Proof. induction a as [|x a IH]; cbn; [reflexivity|]. now rewrite Z.eqb_refl. Qed.

Lemma deletes_follow_writes_app (t1 t2 : list event) :
  forall s : export_state,
    deletes_follow_writes s (t1 ++ t2)
    = deletes_follow_writes s t1
      && deletes_follow_writes (fold_left track t1 s) t2.
Proof.
  induction t1 as [|e t1 IH]; intros s; cbn; [reflexivity|].
  now rewrite IH, andb_assoc.
Qed.

Section OrderFacts.
Context {W : Type}.
Variable mail : Session W.
Variable fs : FileSystem W.
Variable lib : Library.
Variable args : Args.
Variable stack_room : nat.

(** An attempt on the message that was just written is in order, and leaves
    the state as it is. *)
Lemma delete_attempt_in_order (num : pybytes) (w : W) :
  let t := snd (delete_attempt mail lib args num w) in
  deletes_follow_writes (Some (num, true)) t = true /\
  fold_left track t (Some (num, true)) = Some (num, true).
Proof.
  unfold delete_attempt, fetch_uid. unfold_stmt.
  repeat run_step; cbn [snd app fold_left track deletes_follow_writes in_order];
    rewrite ?pystr_eqb_refl; split; reflexivity.
Qed.

Lemma delete_in_order (room : nat) (num : pybytes) :
  forall w : W,
    let t := snd (delete mail lib args room num w) in
    deletes_follow_writes (Some (num, true)) t = true /\
    fold_left track t (Some (num, true)) = Some (num, true).
Proof.
  induction room as [|room IH]; intros w; [cbn; auto|].
  pose proof (delete_attempt_in_order num w) as A.
  destruct (delete_attempt mail lib args num w) as [[[v|e] w1] t1] eqn:E.
  - rewrite (delete_done mail lib args room num w _ _ _ E). cbn [snd] in *.
    cbn [deletes_follow_writes in_order track fold_left andb]. exact A.
  - rewrite (delete_retry mail lib args room num w _ _ _ E).
    specialize (IH w1).
    destruct (delete mail lib args room num w1) as [[r w2] t2].
    cbn [snd] in *. destruct A as [A1 A2]. destruct IH as [I1 I2].
    cbn [deletes_follow_writes in_order track fold_left andb].
    rewrite deletes_follow_writes_app, fold_left_app, A1, A2, I1, I2. auto.
Qed.

(** One round of the loop is in order from any state. *)
Lemma process_message_in_order (folder : pystr) (c : Z) (num : pybytes)
  (w : W) (s : export_state) :
  deletes_follow_writes s
    (snd (process_message mail fs lib args stack_room folder c num w)) = true.
Proof.
  unfold process_message, fetch_message. unfold_stmt.
  repeat run_step.
  all: repeat match goal with
       | H : delete ?m ?l ?a ?n ?x ?w = _ |- _ =>
           let Q := fresh "Q" in
           pose proof (delete_in_order n x w) as Q; rewrite H in Q;
           cbn [snd] in Q; destruct Q as [Q _]; clear H
       | H : (_, _, _) = (_, _, _) |- _ => inversion H; subst; clear H
       | H : (_, _) = (_, _) |- _ => inversion H; subst; clear H
       end.
  all: cbn [snd app deletes_follow_writes in_order track andb];
    rewrite ?app_nil_r; try reflexivity.
  all: assumption.
Qed.

Lemma process_loop_in_order (folder : pystr) (nums : list pybytes) :
  forall (c : Z) (w : W) (s : export_state),
    deletes_follow_writes s
      (snd (process_loop mail fs lib args stack_room folder c nums w)) = true.
Proof.
  induction nums as [|num rest IH]; intros c w s; [reflexivity|].
  cbn [process_loop]. unfold bind.
  pose proof (process_message_in_order folder c num w s) as P.
  destruct (process_message mail fs lib args stack_room folder c num w)
    as [[[c1|e] w1] t1]; cbn [snd] in *; [|exact P].
  specialize (IH c1 w1 (fold_left track t1 s)).
  destruct (process_loop mail fs lib args stack_room folder c1 rest w1)
    as [[r w2] t2]. cbn [snd] in *.
  now rewrite deletes_follow_writes_app, P, IH.
Qed.

Lemma process_in_order (folder : pystr) (w : W) (s : export_state) :
  deletes_follow_writes s
    (snd (process mail fs lib args stack_room folder w)) = true.
Proof.
  pose proof (process_cases mail fs lib args stack_room folder w) as C.
  destruct (process mail fs lib args stack_room folder w) as [[r w'] t].
  cbn [snd].
  destruct (mail_search mail w) as [[[rv data0]|e] w1].
  - destruct (is_ok rv).
    + cbv zeta in C. destruct (os_isdir fs (local_folder args) w1).
      * pose proof (process_loop_in_order folder (bytes_split data0) 0 w1 s) as L.
        destruct (process_loop mail fs lib args stack_room folder 0
                    (bytes_split data0) w1) as [[r2 w2] t2].
        destruct C as [-> _]. cbn [snd] in L. cbn. exact L.
      * destruct C as [_ ->]. reflexivity.
    + destruct C as [_ ->]. reflexivity.
  - destruct C as [_ ->]. reflexivity.
Qed.

Lemma main_folders_in_order (remote_folders_map : list folder_entry)
  (remote_folder : list pystr) :
  forall (w : W) (s : export_state),
    deletes_follow_writes s
      (snd (main_folders mail fs lib args stack_room remote_folders_map
                         remote_folder w)) = true.
Proof.
  induction remote_folder as [|folder rest IH]; intros w s; [reflexivity|].
  cbn [main_folders]. unfold bind, print, call, raise.
  destruct (filter _ remote_folders_map) as [|f _]; [reflexivity|].
  destruct (mail_select mail (original f) w) as [[rv|e] w1]; [|reflexivity].
  destruct (is_ok rv); [|reflexivity].
  pose proof (process_in_order (original f) w1 s) as P.
  destruct (process mail fs lib args stack_room (original f) w1)
    as [[[v|e] w2] t2]; cbn [snd] in P.
  - destruct (mail_close mail w2) as [[u|e] w3].
    + specialize (IH w3 (fold_left track t2 s)).
      destruct (main_folders mail fs lib args stack_room remote_folders_map
                  rest w3) as [[r w4] t4]. cbn [snd] in *.
      cbn [app deletes_follow_writes in_order track andb].
      rewrite deletes_follow_writes_app, P.
      cbn [app deletes_follow_writes in_order track andb]. exact IH.
    + cbn [snd app deletes_follow_writes in_order track andb].
      rewrite deletes_follow_writes_app, P. reflexivity.
  - cbn [snd app deletes_follow_writes in_order track andb].
    rewrite ?app_nil_r. exact P.
Qed.

End OrderFacts.

(* ========================================================================= *)
(** * [main] *)

Example str_split_examples :
  str_split [0x2C] (lit "inbox, sent,,x") = [lit "inbox"; lit " sent"; []; lit "x"] /\
  str_split LIST_SEPARATOR (lit "(\HasNoChildren) " ++ LIST_SEPARATOR ++ lit "INBOX")
  = [lit "(\HasNoChildren) "; lit "INBOX"] /\
  str_split [0x2C] [] = [[]].
Proof. repeat split; reflexivity. Qed.

Example demo_main_exports_two_folders :
  let t := snd (main Demo.session demo_account Demo.file_system Demo.library
                     Demo.args_keep (list_args_of None (lit "Inbox, SENT")) 0
                     ascii_lower (fun _ => []) Demo.start) in
  selections t = [lit "INBOX"; lit "Sent"] /\ length (written t) = 6%nat /\
  reported t = [] /\ logouts t = 1%nat.
Proof. vm_compute. auto. Qed.

(* ========================================================================= *)
(** * The kinds of events of an export *)

Lemma folder_events_are_export_events (b : bool) (t : list event) :
  forallb (folder_event b) t = true -> forallb (export_event b) t = true.
Proof.
  induction t as [|e t IH]; [auto|]. cbn [forallb]. intros H.
  apply andb_true_iff in H as [H1 H2]. rewrite (IH H2).
  destruct e, b; cbn in H1 |- *; try discriminate; auto.
Qed.

Lemma folder_events_select_nothing (b : bool) (t : list event) :
  forallb (folder_event b) t = true -> selections t = [].
Proof.
  induction t as [|e t IH]; [auto|]. cbn [forallb]. intros H.
  apply andb_true_iff in H as [H1 H2]. unfold selections in *.
  destruct e; cbn in H1 |- *; try discriminate; auto.
Qed.

Section KindFacts.
Context {W : Type}.
Variable mail : Session W.
Variable fs : FileSystem W.
Variable lib : Library.
Variable args : Args.
Variable stack_room : nat.

Lemma delete_attempt_kinds (num : pybytes) (w : W) :
  forallb (folder_event true) (snd (delete_attempt mail lib args num w)) = true.
Proof.
  unfold delete_attempt, fetch_uid. unfold_stmt.
  repeat run_step; reflexivity.
Qed.

Lemma delete_kinds (room : nat) (num : pybytes) :
  forall w : W,
    forallb (folder_event true) (snd (delete mail lib args room num w)) = true.
Proof.
  induction room as [|room IH]; intros w; [reflexivity|].
  pose proof (delete_attempt_kinds num w) as A.
  destruct (delete_attempt mail lib args num w) as [[[v|e] w1] t1] eqn:E.
  - rewrite (delete_done mail lib args room num w _ _ _ E). exact A.
  - rewrite (delete_retry mail lib args room num w _ _ _ E).
    specialize (IH w1).
    destruct (delete mail lib args room num w1) as [[r w2] t2].
    cbn [snd] in *. cbn [forallb folder_event andb].
    now rewrite forallb_app, A, IH.
Qed.

Lemma process_message_kinds (folder : pystr) (c : Z) (num : pybytes) (w : W) :
  forallb (folder_event (deletes_requested args))
    (snd (process_message mail fs lib args stack_room folder c num w)) = true.
Proof.
  unfold process_message, fetch_message, deletes_requested. unfold_stmt.
  repeat run_step.
  all: repeat match goal with
       | H : delete ?m ?l ?a ?n ?x ?w = _ |- _ =>
           let Q := fresh "Q" in
           pose proof (delete_kinds n x w) as Q; rewrite H in Q;
           cbn [snd] in Q; clear H
       | H : (_, _, _) = (_, _, _) |- _ => inversion H; subst; clear H
       | H : (_, _) = (_, _) |- _ => inversion H; subst; clear H
       end.
  all: cbn [snd app forallb folder_event andb]; rewrite ?app_nil_r;
    try reflexivity.
  all: assumption.
Qed.

Lemma process_loop_kinds (folder : pystr) (nums : list pybytes) :
  forall (c : Z) (w : W),
    forallb (folder_event (deletes_requested args))
      (snd (process_loop mail fs lib args stack_room folder c nums w)) = true.
Proof.
  induction nums as [|num rest IH]; intros c w; [reflexivity|].
  cbn [process_loop]. unfold bind.
  pose proof (process_message_kinds folder c num w) as P.
  destruct (process_message mail fs lib args stack_room folder c num w)
    as [[[c1|e] w1] t1]; cbn [snd] in *; [|exact P].
  specialize (IH c1 w1).
  destruct (process_loop mail fs lib args stack_room folder c1 rest w1)
    as [[r w2] t2]. cbn [snd] in *.
  now rewrite forallb_app, P, IH.
Qed.

Lemma process_kinds (folder : pystr) (w : W) :
  forallb (folder_event (deletes_requested args))
    (snd (process mail fs lib args stack_room folder w)) = true.
Proof.
  pose proof (process_cases mail fs lib args stack_room folder w) as C.
  destruct (process mail fs lib args stack_room folder w) as [[r w'] t].
  cbn [snd].
  destruct (mail_search mail w) as [[[rv data0]|e] w1].
  - destruct (is_ok rv).
    + cbv zeta in C. destruct (os_isdir fs (local_folder args) w1).
      * pose proof (process_loop_kinds folder (bytes_split data0) 0 w1) as L.
        destruct (process_loop mail fs lib args stack_room folder 0
                    (bytes_split data0) w1) as [[r2 w2] t2].
        destruct C as [-> _]. cbn [snd] in L. cbn. exact L.
      * destruct C as [_ ->]. reflexivity.
    + destruct C as [_ ->]. reflexivity.
  - destruct C as [_ ->]. reflexivity.
Qed.

Lemma main_folders_kinds (remote_folders_map : list folder_entry)
  (names : list pystr) :
  forall w : W,
    forallb (export_event (deletes_requested args))
      (snd (main_folders mail fs lib args stack_room remote_folders_map
                         names w)) = true.
Proof.
  induction names as [|folder rest IH]; intros w; [reflexivity|].
  cbn [main_folders]. unfold bind, print, call, raise.
  destruct (filter _ remote_folders_map) as [|f _]; [reflexivity|].
  destruct (mail_select mail (original f) w) as [[rv|e] w1]; [|reflexivity].
  destruct (is_ok rv); [|reflexivity].
  pose proof (folder_events_are_export_events _ _
                (process_kinds (original f) w1)) as P.
  destruct (process mail fs lib args stack_room (original f) w1)
    as [[[v|e] w2] t2]; cbn [snd] in P.
  - destruct (mail_close mail w2) as [[u|e] w3].
    + specialize (IH w3).
      destruct (main_folders mail fs lib args stack_room remote_folders_map
                  rest w3) as [[r w4] t4]. cbn [snd] in *.
      cbn [app forallb export_event andb].
      rewrite forallb_app, P. cbn [app forallb export_event andb]. exact IH.
    + cbn [snd app forallb export_event andb].
      rewrite forallb_app, P. reflexivity.
  - cbn [snd app forallb export_event andb]. rewrite ?app_nil_r. exact P.
Qed.

End KindFacts.

Lemma forallb_no_logout (b : bool) (t : list event) :
  forallb (export_event b) t = true -> logouts t = 0%nat /\ reported t = [].
Proof.
  induction t as [|e t IH]; [auto|]. cbn [forallb]. intros H.
  apply andb_true_iff in H as [H1 H2]. destruct (IH H2) as [I1 I2].
  unfold logouts, reported in *.
  destruct e; cbn in H1 |- *; try discriminate; auto.
Qed.

Lemma forallb_no_delete (t : list event) :
  forallb (export_event false) t = true ->
  forallb (fun e => negb (is_delete_event e)) t = true.
Proof.
  induction t as [|e t IH]; [auto|]. cbn [forallb]. intros H.
  apply andb_true_iff in H as [H1 H2]. rewrite (IH H2).
  destruct e; cbn in H1 |- *; try discriminate; auto.
Qed.

(* ========================================================================= *)
(** * The run as a whole *)

Section MainFacts.
Context {W : Type}.
Variable mail : Session W.
Variable account : Account W.
Variable fs : FileSystem W.
Variable lib : Library.
Variable args : Args.
Variable list_args : ListArgs.
Variable stack_room : nat.
Variable str_lower : pystr -> pystr.
Variable list_repr : list pystr -> pystr.

Lemma print_listing_kinds (lines : list pybytes) :
  forall (b : bool) (w : W),
    forallb (export_event b) (snd (print_listing (W := W) lines w)) = true.
Proof.
  induction lines as [|line rest IH]; intros b w; [reflexivity|].
  cbn [print_listing]. unfold bind, lift, print.
  destruct (listed_name line) as [name|e]; [|reflexivity].
  specialize (IH b w). destruct (print_listing rest w) as [[r w1] t1].
  cbn [snd app forallb export_event andb] in *. exact IH.
Qed.

Lemma main_body_kinds (w : W) :
  forallb (export_event (deletes_requested args))
    (snd (main_body mail account fs lib args list_args stack_room str_lower
                    list_repr w)) = true.
Proof.
  unfold main_body, bind, call_unrecorded, lift, print, raise, ret.
  destruct (mail_login account w) as [[u|e] w1]; [|reflexivity].
  destruct (mail_list account w1) as [[lines|e] w2]; [|reflexivity].
  destruct (build_folders_map str_lower lines) as [entries|e]; [|reflexivity].
  destruct (list_only list_args).
  - pose proof (print_listing_kinds lines (deletes_requested args) w2) as P.
    destruct (print_listing lines w2) as [[r w3] t3]. exact P.
  - destruct (pystr_eqb (remote_folder list_args) (lit "*")).
    + destruct (wildcard_names str_lower lines) as [names|e]; [|reflexivity].
      pose proof (main_folders_kinds mail fs lib args stack_room entries names w2)
        as P.
      destruct (main_folders mail fs lib args stack_room entries names w2)
        as [[r w3] t3]. exact P.
    + destruct (some_name_unknown _ entries); [reflexivity|].
      pose proof (main_folders_kinds mail fs lib args stack_room entries
                    (requested_names list_args str_lower) w2) as P.
      destruct (main_folders mail fs lib args stack_room entries _ w2)
        as [[r w3] t3]. exact P.
Qed.

(** [main] is its body, the report of what the body raised, the log-out
    and, when the log-out returns, the last [print]. *)
Lemma main_cases (w : W) :
  let '(r, w', t) := main mail account fs lib args list_args stack_room
                          str_lower list_repr w in
  let '(rb, wb, tb) := main_body mail account fs lib args list_args stack_room
                                 str_lower list_repr w in
  exists tail : list event,
    t = (tb ++ match rb with Ok _ => [] | Raise e => [EvReportError e] end)
        ++ EvLogout :: tail /\
    match r with
    | Ok _ => tail = [EvPrint []] /\ exists u, fst (mail_logout mail wb) = Ok u
    | Raise e => tail = [] /\ fst (mail_logout mail wb) = Raise e
    end.
Proof.
  unfold main, try_finally, try_except, call, bind, print.
  destruct (main_body mail account fs lib args list_args stack_room str_lower
                      list_repr w) as [[[u|e] wb] tb].
  - destruct (mail_logout mail wb) as [[u'|e'] w2]; cbn [fst].
    + exists [EvPrint []]. rewrite app_nil_r. eauto.
    + exists []. rewrite app_nil_r. auto.
  - destruct (mail_logout mail wb) as [[u'|e'] w2]; cbn [fst].
    + exists [EvPrint []]. eauto.
    + exists []. auto.
Qed.

End MainFacts.

Section MainOrder.
Context {W : Type}.
Variable mail : Session W.
Variable account : Account W.
Variable fs : FileSystem W.
Variable lib : Library.
Variable args : Args.
Variable list_args : ListArgs.
Variable stack_room : nat.
Variable str_lower : pystr -> pystr.
Variable list_repr : list pystr -> pystr.

Lemma print_listing_in_order (lines : list pybytes) :
  forall (s : export_state) (w : W),
    deletes_follow_writes s (snd (print_listing (W := W) lines w)) = true.
Proof.
  induction lines as [|line rest IH]; intros s w; [reflexivity|].
  cbn [print_listing]. unfold bind, lift, print.
  destruct (listed_name line) as [name|e]; [|reflexivity].
  specialize (IH s w). destruct (print_listing rest w) as [[r w1] t1].
  cbn [snd app deletes_follow_writes in_order track andb] in *. exact IH.
Qed.

Lemma main_body_in_order (w : W) (s : export_state) :
  deletes_follow_writes s
    (snd (main_body mail account fs lib args list_args stack_room str_lower
                    list_repr w)) = true.
Proof.
  unfold main_body, bind, call_unrecorded, lift, print, raise, ret.
  destruct (mail_login account w) as [[u|e] w1]; [|reflexivity].
  destruct (mail_list account w1) as [[lines|e] w2]; [|reflexivity].
  destruct (build_folders_map str_lower lines) as [entries|e]; [|reflexivity].
  destruct (list_only list_args).
  - pose proof (print_listing_in_order lines s w2) as P.
    destruct (print_listing lines w2) as [[r w3] t3]. exact P.
  - destruct (pystr_eqb (remote_folder list_args) (lit "*")).
    + destruct (wildcard_names str_lower lines) as [names|e]; [|reflexivity].
      pose proof (main_folders_in_order mail fs lib args stack_room entries
                    names w2 s) as P.
      destruct (main_folders mail fs lib args stack_room entries names w2)
        as [[r w3] t3]. exact P.
    + destruct (some_name_unknown _ entries); [reflexivity|].
      pose proof (main_folders_in_order mail fs lib args stack_room entries
                    (requested_names list_args str_lower) w2 s) as P.
      destruct (main_folders mail fs lib args stack_room entries _ w2)
        as [[r w3] t3]. exact P.
Qed.

End MainOrder.

(** X8: without the delete option a run issues no UID fetch, no UID
    command (COPY, STORE) and no expunge. *)
Theorem no_delete_option_no_delete_command
  {W : Type} (mail : Session W) (account : Account W) (fs : FileSystem W)
  (lib : Library) (args : Args) (list_args : ListArgs) (stack_room : nat)
  (str_lower : pystr -> pystr) (list_repr : list pystr -> pystr) (w : W) :
  delete_remote args = None ->
  forallb (fun e => negb (is_delete_event e))
    (snd (main mail account fs lib args list_args stack_room str_lower
               list_repr w)) = true.
Proof.
  intros N.
  pose proof (main_cases mail account fs lib args list_args stack_room
                str_lower list_repr w) as C.
  pose proof (main_body_kinds mail account fs lib args list_args stack_room
                str_lower list_repr w) as K.
  destruct (main mail account fs lib args list_args stack_room str_lower
                 list_repr w) as [[r w'] t].
  destruct (main_body mail account fs lib args list_args stack_room str_lower
                      list_repr w) as [[rb wb] tb].
  destruct C as (tail & -> & T). cbn [snd] in *.
  unfold deletes_requested in K. rewrite N in K.
  rewrite !forallb_app, (forallb_no_delete tb K).
  destruct r; destruct T as [-> _]; destruct rb; reflexivity.
Qed.

(** X8 on the demo mailbox, exported without the delete option. *)
Lemma no_delete_option_no_delete_command_witness :
  forallb (fun e => negb (is_delete_event e))
    (snd (main Demo.session demo_account Demo.file_system Demo.library
               Demo.args_keep (list_args_of None (lit "*")) 0 ascii_lower
               (fun _ => []) Demo.start)) = true.
Proof.
  apply (no_delete_option_no_delete_command Demo.session demo_account
           Demo.file_system Demo.library Demo.args_keep
           (list_args_of None (lit "*")) 0 ascii_lower (fun _ => []) Demo.start).
  reflexivity.
Defined.

(** X9: in every run, a UID fetch carries the sequence number of the
    message fetch issued last and comes only after a write was issued since
    that fetch; UID commands and expunges come only after such a write.
    This is about the calls and their sequence numbers, as the script issues
    them, not about which message a number names at the server. *)
Theorem delete_calls_follow_the_write_of_their_number
  {W : Type} (mail : Session W) (account : Account W) (fs : FileSystem W)
  (lib : Library) (args : Args) (list_args : ListArgs) (stack_room : nat)
  (str_lower : pystr -> pystr) (list_repr : list pystr -> pystr) (w : W) :
  deletes_follow_writes None
    (snd (main mail account fs lib args list_args stack_room str_lower
               list_repr w)) = true.
Proof.
  pose proof (main_cases mail account fs lib args list_args stack_room
                str_lower list_repr w) as C.
  pose proof (main_body_in_order mail account fs lib args list_args stack_room
                str_lower list_repr w None) as K.
  destruct (main mail account fs lib args list_args stack_room str_lower
                 list_repr w) as [[r w'] t].
  destruct (main_body mail account fs lib args list_args stack_room str_lower
                      list_repr w) as [[rb wb] tb].
  destruct C as (tail & -> & T). cbn [snd] in *.
  rewrite <- app_assoc, deletes_follow_writes_app, K.
  destruct r; destruct T as [-> _]; destruct rb; reflexivity.
Qed.

(** X13: every run logs out, exactly once and after everything else: when
    the log-out returns, only the closing [print] follows and [main]
    returns; when it raises, nothing follows and [main] raises the same
    exception.  Before the log-out at most one exception is reported, and
    it is the last event there. *)
Theorem main_always_logs_out
  {W : Type} (mail : Session W) (account : Account W) (fs : FileSystem W)
  (lib : Library) (args : Args) (list_args : ListArgs) (stack_room : nat)
  (str_lower : pystr -> pystr) (list_repr : list pystr -> pystr) (w : W) :
  let '(r, _, t) := main mail account fs lib args list_args stack_room
                         str_lower list_repr w in
  exists (body : list event) (report : list event),
    logouts body = 0%nat /\ reported body = [] /\
    (report = [] \/ exists e : exn, report = [EvReportError e]) /\
    match r with
    | Ok _ => t = body ++ report ++ [EvLogout; EvPrint []]
    | Raise e =>
        t = body ++ report ++ [EvLogout] /\
        exists w1 : W, fst (mail_logout mail w1) = Raise e
    end.
Proof.
  pose proof (main_cases mail account fs lib args list_args stack_room
                str_lower list_repr w) as C.
  pose proof (main_body_kinds mail account fs lib args list_args stack_room
                str_lower list_repr w) as K.
  destruct (main mail account fs lib args list_args stack_room str_lower
                 list_repr w) as [[r w'] t].
  destruct (main_body mail account fs lib args list_args stack_room str_lower
                      list_repr w) as [[rb wb] tb].
  destruct C as (tail & -> & T). cbn [snd] in K.
  destruct (forallb_no_logout _ tb K) as [L0 R0].
  exists tb, (match rb with Ok _ => [] | Raise e => [EvReportError e] end).
  split; [exact L0|]. split; [exact R0|].
  split; [destruct rb; eauto|].
  destruct r; destruct T as [-> T]; rewrite <- app_assoc; eauto.
Qed.

(* ========================================================================= *)
(** * A failed fetch ends the export of the folder *)

Lemma no_failed_fetch_is_last (t : list event) :
  existsb is_failed_fetch t = false -> failed_fetch_is_last t = true.
Proof.
  induction t as [|e t IH]; [reflexivity|].
  cbn [existsb]. intros H. apply orb_false_iff in H as [H1 H2].
  destruct e; cbn [failed_fetch_is_last]; auto.
  cbn [is_failed_fetch] in H1. rewrite H1. auto.
Qed.

Lemma failed_fetch_is_last_app (t1 t2 : list event) :
  existsb is_failed_fetch t1 = false ->
  failed_fetch_is_last (t1 ++ t2) = failed_fetch_is_last t2.
Proof.
  induction t1 as [|e t1 IH]; [reflexivity|].
  cbn [existsb]. intros H. apply orb_false_iff in H as [H1 H2].
  destruct e; cbn [app failed_fetch_is_last]; auto.
  cbn [is_failed_fetch] in H1. rewrite H1. auto.
Qed.

Lemma no_message_fetch_no_failed_fetch (t : list event) :
  message_fetches t = 0%nat -> existsb is_failed_fetch t = false.
Proof.
  unfold message_fetches.
  induction t as [|e t IH]; [reflexivity|].
  destruct e; cbn [filter length existsb is_failed_fetch orb]; auto.
  discriminate.
Qed.

Section FetchFacts.
Context {W : Type}.
Variable mail : Session W.
Variable fs : FileSystem W.
Variable lib : Library.
Variable args : Args.
Variable stack_room : nat.

Lemma process_message_fetch (folder : pystr) (c : Z) (num : pybytes) (w : W) :
  let '(r, _, t) := process_message mail fs lib args stack_room folder c num w in
  match r with
  | Ok _ => existsb is_failed_fetch t = false
  | Raise _ => failed_fetch_is_last t = true
  end.
Proof.
  unfold process_message, fetch_message. unfold_stmt.
  repeat run_step.
  all: repeat match goal with
       | H : delete ?m ?l ?a ?n ?x ?w = _ |- _ =>
           let Q := fresh "Q" in
           pose proof (delete_export_free m l a n x w) as Q; rewrite H in Q;
           cbn [snd] in Q; destruct Q as (_ & _ & _ & Q & _);
           apply no_message_fetch_no_failed_fetch in Q; clear H
       | H : (_, _, _) = (_, _, _) |- _ => inversion H; subst; clear H
       | H : (_, _) = (_, _) |- _ => inversion H; subst; clear H
       | H : negb _ = true |- _ => apply negb_true_iff in H
       | H : negb _ = false |- _ => apply negb_false_iff in H
       end.
  all: cbn [app existsb failed_fetch_is_last is_failed_fetch fetch_failed orb];
    rewrite ?app_nil_r;
    repeat match goal with
      | H : is_ok _ = _ |- _ => rewrite H
      end;
    cbn [negb orb]; try reflexivity.
  all: try assumption.
  all: apply no_failed_fetch_is_last; assumption.
Qed.

Lemma process_loop_fetch (folder : pystr) (nums : list pybytes) :
  forall (c : Z) (w : W),
    let '(r, _, t) := process_loop mail fs lib args stack_room folder c nums w in
    match r with
    | Ok _ => existsb is_failed_fetch t = false
    | Raise _ => failed_fetch_is_last t = true
    end.
Proof.
  induction nums as [|num rest IH]; intros c w; [reflexivity|].
  cbn [process_loop]. unfold bind.
  pose proof (process_message_fetch folder c num w) as P.
  destruct (process_message mail fs lib args stack_room folder c num w)
    as [[[c1|e] w1] t1]; [|exact P].
  specialize (IH c1 w1).
  destruct (process_loop mail fs lib args stack_room folder c1 rest w1)
    as [[[c2|e] w2] t2].
  - now rewrite existsb_app, P, IH.
  - now rewrite failed_fetch_is_last_app.
Qed.

End FetchFacts.

(** X10: a message fetch that fails (it raises, or its status is not
    ['OK']) is the last thing [process] does in the folder: nothing is
    fetched or written after it, and [process] ends with an exception. *)
Theorem failed_fetch_ends_the_folder
  {W : Type} (mail : Session W) (fs : FileSystem W) (lib : Library)
  (args : Args) (stack_room : nat) (folder : pystr) (w : W) :
  let '(r, _, t) := process mail fs lib args stack_room folder w in
  failed_fetch_is_last t = true /\
  (existsb is_failed_fetch t = true -> exists e : exn, r = Raise e).
Proof.
  pose proof (process_cases mail fs lib args stack_room folder w) as C.
  destruct (process mail fs lib args stack_room folder w) as [[r w'] t].
  destruct (mail_search mail w) as [[[rv data0]|e] w1].
  - destruct (is_ok rv).
    + cbv zeta in C. destruct (os_isdir fs (local_folder args) w1).
      * pose proof (process_loop_fetch mail fs lib args stack_room folder
                      (bytes_split data0) 0 w1) as L.
        destruct (process_loop mail fs lib args stack_room folder 0
                    (bytes_split data0) w1) as [[r2 w2] t2].
        destruct C as [-> ->].
        cbn [app failed_fetch_is_last existsb is_failed_fetch orb].
        destruct r2 as [c|e].
        -- rewrite L. split; [now apply no_failed_fetch_is_last|discriminate].
        -- split; [exact L|]. eauto.
      * destruct C as [-> ->]. split; [reflexivity|discriminate].
    + destruct C as [-> ->]. split; [reflexivity|discriminate].
  - destruct C as [-> ->]. split; [reflexivity|discriminate].
Qed.

(* ========================================================================= *)
(** * What one run of [delete] addresses, and how it returns *)

Section DeleteTargets.
Context {W : Type}.
Variable mail : Session W.
Variable lib : Library.
Variable args : Args.

Lemma delete_attempt_on_target (num : pybytes) (w : W) :
  uid_commands_on_target lib args num (snd (delete_attempt mail lib args num w)).
Proof.
  unfold uid_commands_on_target, delete_attempt, fetch_uid. unfold_stmt.
  intros command arguments resp.
  repeat run_step; cbn [snd app]; intros I; cbn [In] in I.
  all: repeat match type of I with
       | _ \/ _ => destruct I as [I|I]
       | False => contradiction
       end; try discriminate I.
  all: inversion I; subst; clear I.
  all: match goal with
       | D : bytes_decode ?d = Ok ?t, P : parse_uid lib ?t = Ok ?u
         |- context [EvFetchUid _ (Ok (?rv, ?d)) :: _] =>
           exists rv, d, t, u
       end.
  all: split; [cbn [In]; auto|split; [assumption|split; [assumption|]]].
  all: auto.
Qed.

Lemma delete_attempt_returns (num : pybytes) (w : W) :
  let '(r, _, t) := delete_attempt mail lib args num w in
  match r with
  | Ok v => v = PyNone /\ complete_attempt_end args t
  | Raise _ => True
  end.
Proof.
  unfold complete_attempt_end, delete_attempt, fetch_uid. unfold_stmt.
  repeat run_step; try exact I.
  all: repeat match goal with
       | H : (_, _, _) = (_, _, _) |- _ => inversion H; subst; clear H
       | H : (_, _) = (_, _) |- _ => inversion H; subst; clear H
       end.
  all: split; [reflexivity|].
  all: cbn [app]; rewrite ?app_nil_r.
  all: match goal with
       | |- context [?e :: EvUid _ [?u; _] (Ok ?s) :: _] => exists [e], u, s
       end.
  all: first [ left; split; [assumption|eexists; reflexivity]
             | right; split; [assumption|reflexivity] ].
Qed.

Lemma complete_attempt_end_cons (e : event) (t : list event) :
  complete_attempt_end args t -> complete_attempt_end args (e :: t).
Proof.
  intros (before & uid & status & [(K & stored & ->)|(K & ->)]);
    exists (e :: before), uid, status; [left|right];
    (split; [exact K|]); [exists stored|]; reflexivity.
Qed.

Lemma complete_attempt_end_app (t0 t : list event) :
  complete_attempt_end args t -> complete_attempt_end args (t0 ++ t).
Proof.
  induction t0 as [|e t0 IH]; [auto|]. intros H.
  cbn [app]. apply complete_attempt_end_cons. auto.
Qed.

Lemma delete_returns (room : nat) (num : pybytes) :
  forall w : W,
    let '(r, _, t) := delete mail lib args room num w in
    match r with
    | Ok v => v = PyNone /\ complete_attempt_end args t
    | Raise e => e = RecursionError
    end.
Proof.
  induction room as [|room IH]; intros w; [reflexivity|].
  pose proof (delete_attempt_returns num w) as A.
  destruct (delete_attempt mail lib args num w) as [[[v|e] w1] t1] eqn:E.
  - rewrite (delete_done mail lib args room num w _ _ _ E).
    destruct A as [-> A]. split; [reflexivity|].
    now apply complete_attempt_end_cons.
  - rewrite (delete_retry mail lib args room num w _ _ _ E).
    specialize (IH w1).
    destruct (delete mail lib args room num w1) as [[[v|e'] w2] t2]; [|exact IH].
    destruct IH as [-> IH]. split; [reflexivity|].
    apply complete_attempt_end_cons. now apply complete_attempt_end_app.
Qed.

End DeleteTargets.

(** X11: in every attempt of a run of [delete] on message [num], each UID
    command carries the UID parsed from the answer to that attempt's UID
    fetch of [num]: the copy sends it to the configured trash folder, the
    only other command sets the [\Deleted] flag on it. *)
Theorem delete_addresses_the_fetched_uid
  {W : Type} (mail : Session W) (lib : Library) (args : Args)
  (room : nat) (num : pybytes) (w : W) :
  exists attempts : list (list event),
    snd (delete mail lib args room num w)
    = flat_map (fun a => EvPrint (lit " Deleting... ") :: a) attempts /\
    Forall (uid_commands_on_target lib args num) attempts.
Proof.
  destruct (delete_is_attempts mail lib args room num w) as (l & L1 & L2).
  exists l. split; [exact L1|].
  eapply Forall_impl; [|exact L2].
  intros a (w0 & ->). apply delete_attempt_on_target.
Qed.

(** X12: [delete] returns (with [None]) only behind an attempt that ran to
    its end: a copy that reported ['OK'], the flag setting whatever it
    answered, the expunge and ['Ok.']; or a copy that reported another
    status and ['Failed!'], which is not retried.  Otherwise it raises
    [RecursionError]. *)
Theorem delete_returns_behind_a_complete_attempt
  {W : Type} (mail : Session W) (lib : Library) (args : Args)
  (room : nat) (num : pybytes) (w : W) :
  let '(r, _, t) := delete mail lib args room num w in
  match r with
  | Ok v => v = PyNone /\ complete_attempt_end args t
  | Raise e => e = RecursionError
  end.
Proof. apply delete_returns. Qed.

(* ========================================================================= *)
(** * The folder listing *)

Lemma contains_spec (sep s : pystr) :
  contains sep s = true <-> exists pre post : pystr, s = pre ++ sep ++ post.
Proof.
  split.
  - induction s as [|c s IH]; cbn [contains].
    + destruct (strip_prefix sep []) as [r|] eqn:E; [|discriminate].
      intros _. exists [], r. exact (strip_prefix_spec _ _ _ E).
    + destruct (strip_prefix sep (c :: s)) as [r|] eqn:E.
      * intros _. exists [], r. exact (strip_prefix_spec _ _ _ E).
      * intros H. destruct (IH H) as (pre & post & ->).
        now exists (c :: pre), post.
  - intros (pre & post & ->). induction pre as [|c pre IH].
    + cbn [app]. pose proof (strip_prefix_app sep post) as P.
      destruct (sep ++ post); cbn [contains]; now rewrite P.
    + cbn [app contains]. rewrite IH. now destruct (strip_prefix sep _).
Qed.

Lemma str_split_aux_whole (sep : pystr) (s : pystr) :
  forall cur : pystr,
    contains sep s = false -> str_split_aux sep 0 cur s = [rev cur ++ s].
Proof.
  induction s as [|c s IH]; intros cur H.
  - cbn. now rewrite app_nil_r.
  - cbn [contains] in H. cbn [str_split_aux].
    destruct (strip_prefix sep (c :: s)); [discriminate|].
    rewrite (IH (c :: cur) H). cbn [rev]. now rewrite <- app_assoc.
Qed.

(** A line without the separator has no name to give. *)
Lemma listed_name_without_separator (line : pybytes) (text : pystr) :
  bytes_decode line = Ok text -> contains LIST_SEPARATOR text = false ->
  listed_name line = Raise IndexError.
Proof.
  intros D C. unfold listed_name, str_split. rewrite D.
  now rewrite (str_split_aux_whole _ _ [] C).
Qed.

Lemma listed_name_raises (line : pybytes) (text : pystr) (e : exn) :
  bytes_decode line = Ok text -> listed_name line = Raise e -> e = IndexError.
Proof.
  intros D. unfold listed_name. rewrite D.
  destruct (str_split LIST_SEPARATOR text) as [|a [|b l]]; congruence.
Qed.

Lemma build_folders_map_index_error (str_lower : pystr -> pystr)
  (lines : list pybytes) (line : pybytes) :
  (forall l : pybytes, In l lines -> exists t : pystr, bytes_decode l = Ok t) ->
  In line lines -> listed_name line = Raise IndexError ->
  build_folders_map str_lower lines = Raise IndexError.
Proof.
  induction lines as [|l lines IH]; intros A I R; [contradiction|].
  cbn [build_folders_map].
  destruct (listed_name l) as [name|e] eqn:E.
  - destruct I as [->|I]; [congruence|].
    rewrite IH; auto. intros l' I'. apply A. now right.
  - destruct (A l (or_introl eq_refl)) as (t & D).
    now rewrite (listed_name_raises l t e D E).
Qed.

(** X14: the listing is cut at the separator of a dot as hierarchy
    delimiter.  When the lines of the listing decode and one of them lacks
    that separator (as every line of a server with another delimiter does),
    the run does nothing but report an [IndexError] and log out, whatever
    was asked for: nothing is printed, selected or exported. *)
Theorem listing_without_dot_separator_stops_the_run
  {W : Type} (mail : Session W) (account : Account W) (fs : FileSystem W)
  (lib : Library) (args : Args) (list_args : ListArgs) (stack_room : nat)
  (str_lower : pystr -> pystr) (list_repr : list pystr -> pystr)
  (w w1 w2 : W) (lines : list pybytes) (line : pybytes) (text : pystr) :
  mail_login account w = (Ok tt, w1) ->
  mail_list account w1 = (Ok lines, w2) ->
  (forall l : pybytes, In l lines -> exists t : pystr, bytes_decode l = Ok t) ->
  In line lines ->
  bytes_decode line = Ok text ->
  contains LIST_SEPARATOR text = false ->
  exists tail : list event,
    snd (main mail account fs lib args list_args stack_room str_lower
              list_repr w)
    = EvReportError IndexError :: EvLogout :: tail /\
    (tail = [] \/ tail = [EvPrint []]).
Proof.
  intros L1 L2 A I D C.
  pose proof (build_folders_map_index_error str_lower lines line A I
                (listed_name_without_separator line text D C)) as B.
  unfold main, main_body, try_finally, try_except, bind, call_unrecorded,
    lift, call, print.
  rewrite L1, L2, B.
  destruct (mail_logout mail w2) as [[u|e] w3]; cbn [snd app]; eauto.
Qed.

(** X14 on a server whose delimiter is the slash. *)
Lemma listing_without_dot_separator_stops_the_run_witness :
  exists tail : list event,
    snd (main Demo.session slash_account Demo.file_system Demo.library
              Demo.args_keep (list_args_of None (lit "INBOX")) 0 ascii_lower
              (fun _ => []) Demo.start)
    = EvReportError IndexError :: EvLogout :: tail /\
    (tail = [] \/ tail = [EvPrint []]).
Proof.
  apply (listing_without_dot_separator_stops_the_run Demo.session slash_account
           Demo.file_system Demo.library Demo.args_keep
           (list_args_of None (lit "INBOX")) 0 ascii_lower (fun _ => [])
           Demo.start Demo.start Demo.start
           [lit "(\HasNoChildren) " ++ [0x22; 0x2F; 0x22] ++ lit " INBOX"]
           (lit "(\HasNoChildren) " ++ [0x22; 0x2F; 0x22] ++ lit " INBOX")
           (lit "(\HasNoChildren) " ++ [0x22; 0x2F; 0x22] ++ lit " INBOX")).
  - reflexivity.
  - reflexivity.
  - intros l [<-|[]]. eexists. vm_compute. reflexivity.
  - left. reflexivity.
  - vm_compute. reflexivity.
  - vm_compute. reflexivity.
Defined.

(* ========================================================================= *)
(** * List mode, unknown folders, and the folder a name selects *)

Lemma print_listing_talks {W : Type} (lines : list pybytes) :
  forall w : W, forallb talk_event (snd (print_listing lines w)) = true.
Proof.
  induction lines as [|line rest IH]; intros w; [reflexivity|].
  cbn [print_listing]. unfold bind, lift, print.
  destruct (listed_name line) as [name|e]; [|reflexivity].
  specialize (IH w). destruct (print_listing rest w) as [[r w1] t1].
  cbn [snd app forallb talk_event andb] in *. exact IH.
Qed.

Lemma print_listing_names {W : Type} (str_lower : pystr -> pystr)
  (lines : list pybytes) :
  forall (entries : list folder_entry) (w : W),
    build_folders_map str_lower lines = Ok entries ->
    print_listing lines w
    = (Ok tt, w, map (fun f => EvPrint (original f)) entries).
Proof.
  induction lines as [|line rest IH]; intros entries w B; cbn in B.
  - now inversion B.
  - cbn [print_listing]. unfold bind, lift, print.
    destruct (listed_name line) as [name|e]; [|discriminate].
    destruct (build_folders_map str_lower rest) as [rest_entries|e];
      [|discriminate].
    inversion B; subst. rewrite (IH rest_entries w eq_refl). reflexivity.
Qed.

(** X15: in list mode a run only prints, reports and logs out: it selects
    no folder, searches and fetches nothing, and writes nothing.  When the
    log-in and the listing succeed and every line of the listing has a
    name, what it prints before the log-out are those names, in the
    order of the listing. *)
Theorem list_mode_only_lists
  {W : Type} (mail : Session W) (account : Account W) (fs : FileSystem W)
  (lib : Library) (args : Args) (list_args : ListArgs) (stack_room : nat)
  (str_lower : pystr -> pystr) (list_repr : list pystr -> pystr) (w : W)
  (flag : pystr) :
  list_only list_args = Some flag ->
  let t := snd (main mail account fs lib args list_args stack_room str_lower
                     list_repr w) in
  forallb talk_event t = true /\
  forall (w1 w2 : W) (lines : list pybytes) (entries : list folder_entry),
    mail_login account w = (Ok tt, w1) ->
    mail_list account w1 = (Ok lines, w2) ->
    build_folders_map str_lower lines = Ok entries ->
    exists tail : list event,
      t = map (fun f => EvPrint (original f)) entries ++ EvLogout :: tail /\
      (tail = [] \/ tail = [EvPrint []]).
Proof.
  intros F. cbv zeta.
  unfold main, main_body, try_finally, try_except, bind, call_unrecorded,
    lift, call, print.
  rewrite F. split.
  - destruct (mail_login account w) as [[u|e] w1];
      [|destruct (mail_logout mail w1) as [[u'|e'] w3]; reflexivity].
    destruct (mail_list account w1) as [[lines|e] w2];
      [|destruct (mail_logout mail w2) as [[u'|e'] w3]; reflexivity].
    destruct (build_folders_map str_lower lines) as [entries|e];
      [|destruct (mail_logout mail w2) as [[u'|e'] w3]; reflexivity].
    pose proof (print_listing_talks lines w2) as P.
    destruct (print_listing lines w2) as [[[u'|e] w3] t3]; cbn [snd] in P;
      destruct (mail_logout mail w3) as [[u''|e'] w4]; cbn [snd];
      rewrite ?forallb_app, P; reflexivity.
  - intros w1 w2 lines entries L1 L2 B. rewrite L1, L2, B.
    rewrite (print_listing_names str_lower lines entries w2 B).
    destruct (mail_logout mail w2) as [[u|e] w3]; cbn [snd app];
      rewrite ?app_nil_r; eauto.
Qed.

(** X15 on the demo mailbox. *)
Lemma list_mode_only_lists_witness :
  let t := snd (main Demo.session demo_account Demo.file_system Demo.library
                     Demo.args_delete (list_args_of (Some []) (lit "*")) 5
                     ascii_lower (fun _ => []) Demo.start) in
  forallb talk_event t = true /\
  forall (w1 w2 : Demo.world) (lines : list pybytes)
         (entries : list folder_entry),
    mail_login demo_account Demo.start = (Ok tt, w1) ->
    mail_list demo_account w1 = (Ok lines, w2) ->
    build_folders_map ascii_lower lines = Ok entries ->
    exists tail : list event,
      t = map (fun f => EvPrint (original f)) entries ++ EvLogout :: tail /\
      (tail = [] \/ tail = [EvPrint []]).
Proof.
  apply (list_mode_only_lists Demo.session demo_account Demo.file_system
           Demo.library Demo.args_delete (list_args_of (Some []) (lit "*")) 5
           ascii_lower (fun _ => []) Demo.start []).
  reflexivity.
Defined.

Lemma some_name_unknown_intro (names : list pystr)
  (entries : list folder_entry) (name : pystr) :
  In name names -> (forall f, In f entries -> lower f <> name) ->
  some_name_unknown names entries = true.
Proof.
  intros I N. unfold some_name_unknown. apply existsb_exists.
  exists name. split; [exact I|]. apply negb_true_iff.
  destruct (existsb _ entries) eqn:E; [|reflexivity].
  apply existsb_exists in E as (f & I2 & Q). apply pystr_eqb_eq in Q.
  exfalso. now apply (N f).
Qed.

(** X16: when a requested name is the lower-case name of no listed folder
    (and the request is not the wild card), the run reports an
    [AttributeError] before it selects any folder: it prints the request,
    reports, and logs out. *)
Theorem unknown_folder_is_reported_before_any_export
  {W : Type} (mail : Session W) (account : Account W) (fs : FileSystem W)
  (lib : Library) (args : Args) (list_args : ListArgs) (stack_room : nat)
  (str_lower : pystr -> pystr) (list_repr : list pystr -> pystr)
  (w w1 w2 : W) (lines : list pybytes) (entries : list folder_entry)
  (name : pystr) :
  list_only list_args = None ->
  remote_folder list_args <> lit "*" ->
  mail_login account w = (Ok tt, w1) ->
  mail_list account w1 = (Ok lines, w2) ->
  build_folders_map str_lower lines = Ok entries ->
  In name (requested_names list_args str_lower) ->
  (forall f : folder_entry, In f entries -> lower f <> name) ->
  exists tail : list event,
    snd (main mail account fs lib args list_args stack_room str_lower
              list_repr w)
    = EvPrint (remote_folder list_args) :: EvReportError AttributeError
      :: EvLogout :: tail /\
    (tail = [] \/ tail = [EvPrint []]).
Proof.
  intros F S L1 L2 B I N.
  unfold main, main_body, try_finally, try_except, bind, call_unrecorded,
    lift, call, print, raise.
  rewrite F, L1, L2, B.
  destruct (pystr_eqb (remote_folder list_args) (lit "*")) eqn:Q;
    [apply pystr_eqb_eq in Q; contradiction|].
  rewrite (some_name_unknown_intro _ entries name I N).
  destruct (mail_logout mail w2) as [[u|e] w3]; cbn [snd app]; eauto.
Qed.

(** X16 on the demo mailbox, asked for a folder it does not have. *)
Lemma unknown_folder_is_reported_before_any_export_witness :
  exists tail : list event,
    snd (main Demo.session demo_account Demo.file_system Demo.library
              Demo.args_keep (list_args_of None (lit "Inbox,Drafts")) 0
              ascii_lower (fun _ => []) Demo.start)
    = EvPrint (lit "Inbox,Drafts") :: EvReportError AttributeError
      :: EvLogout :: tail /\
    (tail = [] \/ tail = [EvPrint []]).
Proof.
  apply (unknown_folder_is_reported_before_any_export Demo.session
           demo_account Demo.file_system Demo.library Demo.args_keep
           (list_args_of None (lit "Inbox,Drafts")) 0 ascii_lower
           (fun _ => []) Demo.start Demo.start Demo.start
           [ lit "(\HasNoChildren) " ++ LIST_SEPARATOR ++ lit "INBOX";
             lit "(\HasNoChildren) " ++ LIST_SEPARATOR ++ lit "Sent" ]
           [ {| original := lit "INBOX"; lower := lit "inbox" |};
             {| original := lit "Sent"; lower := lit "sent" |} ]
           (lit "drafts")).
  - reflexivity.
  - intros Q. vm_compute in Q. discriminate Q.
  - reflexivity.
  - reflexivity.
  - vm_compute. reflexivity.
  - vm_compute. right. left. reflexivity.
  - intros f [<-|[<-|[]]] Q; vm_compute in Q; discriminate Q.
Defined.

Lemma filter_first {A : Type} (p : A -> bool) (l : list A) (x : A)
  (rest : list A) :
  filter p l = x :: rest ->
  exists pre post : list A,
    l = pre ++ x :: post /\ p x = true /\
    forall y : A, In y pre -> p y = false.
Proof.
  induction l as [|a l IH]; cbn [filter]; [discriminate|].
  destruct (p a) eqn:E.
  - intros H. inversion H; subst. exists [], l.
    split; [reflexivity|]. split; [exact E|]. intros y [].
  - intros H. destruct (IH H) as (pre & post & -> & P & N).
    exists (a :: pre), post. split; [reflexivity|]. split; [exact P|].
    intros y [<-|I]; auto.
Qed.

(** X17: a folder that the loop of [main] selects for a requested name is
    the first entry of the folder map whose lower-case name is that name: of
    two listed folders with the same lower-case name, the later one is never
    what the name selects. *)
Theorem selected_folder_is_first_of_its_name
  {W : Type} (mail : Session W) (fs : FileSystem W) (lib : Library)
  (args : Args) (stack_room : nat) (remote_folders_map : list folder_entry)
  (names : list pystr) :
  forall (w : W) (selected : pystr),
    In selected
       (selections (snd (main_folders mail fs lib args stack_room
                                      remote_folders_map names w))) ->
    exists (name : pystr) (pre post : list folder_entry) (f : folder_entry),
      In name names /\ remote_folders_map = pre ++ f :: post /\
      original f = selected /\ lower f = name /\
      forall g : folder_entry, In g pre -> lower g <> name.
Proof.
  induction names as [|folder rest IH]; intros w selected; [intros []|].
  cbn [main_folders]. unfold bind, print, call, raise.
  destruct (filter _ remote_folders_map) as [|f more] eqn:E; [intros []|].
  apply filter_first in E as (pre & post & M & P & N).
  apply pystr_eqb_eq in P.
  assert (here : exists (name : pystr) (pre post : list folder_entry)
                        (g : folder_entry),
             In name (folder :: rest) /\ remote_folders_map = pre ++ g :: post /\
             original g = original f /\ lower g = name /\
             forall h : folder_entry, In h pre -> lower h <> name).
  { exists folder, pre, post, f. split; [now left|]. split; [exact M|].
    split; [reflexivity|]. split; [exact P|].
    intros h I Q. specialize (N h I). rewrite Q, pystr_eqb_refl in N.
    discriminate N. }
  assert (later : forall (w' : W) (s : pystr),
             In s (selections (snd (main_folders mail fs lib args stack_room
                                      remote_folders_map rest w'))) ->
             exists (name : pystr) (pre post : list folder_entry)
                    (g : folder_entry),
               In name (folder :: rest) /\
               remote_folders_map = pre ++ g :: post /\
               original g = s /\ lower g = name /\
               forall h : folder_entry, In h pre -> lower h <> name).
  { intros w' s I. destruct (IH w' s I) as (n & p1 & p2 & g & I1 & R).
    exists n, p1, p2, g. split; [now right|exact R]. }
  destruct (mail_select mail (original f) w) as [[rv|e] w1];
    [|intros [<-|[]]; exact here].
  destruct (is_ok rv); [|intros [<-|[]]; exact here].
  pose proof (folder_events_select_nothing _ _
                (process_kinds mail fs lib args stack_room (original f) w1))
    as S.
  destruct (process mail fs lib args stack_room (original f) w1)
    as [[[v|e] w2] t2]; cbn [snd] in S.
  - destruct (mail_close mail w2) as [[u|e] w3].
    + specialize (later w3 selected).
      destruct (main_folders mail fs lib args stack_room remote_folders_map
                  rest w3) as [[r w4] t4]. cbn [snd] in *.
      unfold selections in *. cbn [app flat_map].
      rewrite !flat_map_app, S. cbn [app flat_map].
      intros [<-|I]; [exact here|auto].
    + cbn [snd]. unfold selections in *. cbn [app flat_map].
      rewrite !flat_map_app, S. cbn [app flat_map].
      intros [<-|[]]; exact here.
  - cbn [snd]. unfold selections in *. cbn [app flat_map].
    rewrite ?app_nil_r, ?flat_map_app, S. cbn [app flat_map].
    intros [<-|[]]; exact here.
Qed.

(** X17 on a mailbox that lists [Work] before [work]: the name [work]
    selects [Work]. *)
Lemma selected_folder_is_first_of_its_name_witness :
  exists (name : pystr) (pre post : list folder_entry) (f : folder_entry),
    In name [lit "work"] /\
    [ {| original := lit "Work"; lower := lit "work" |};
      {| original := lit "work"; lower := lit "work" |} ] = pre ++ f :: post /\
    original f = lit "Work" /\ lower f = name /\
    forall g : folder_entry, In g pre -> lower g <> name.
Proof.
  apply (selected_folder_is_first_of_its_name Demo.session Demo.file_system
           Demo.library Demo.args_keep 0
           [ {| original := lit "Work"; lower := lit "work" |};
             {| original := lit "work"; lower := lit "work" |} ]
           [lit "work"] Demo.start (lit "Work")).
  vm_compute. left. reflexivity.
Defined.

(* ========================================================================= *)
(** * Mailbox commands and the selected folder *)

Lemma within_selection_folder_events (b : bool) (t t2 : list event) :
  forallb (folder_event b) t = true ->
  within_selection true (t ++ t2) = within_selection true t2.
Proof.
  induction t as [|e t IH]; [auto|]. cbn [forallb]. intros H.
  apply andb_true_iff in H as [H1 H2]. specialize (IH H2).
  destruct e; cbn [app within_selection andb]; cbn in H1;
    try discriminate; exact IH.
Qed.

Lemma within_selection_talk (t : list event) :
  forall selected : bool,
    forallb talk_event t = true -> within_selection selected t = true.
Proof.
  induction t as [|e t IH]; intros selected; [auto|]. cbn [forallb]. intros H.
  apply andb_true_iff in H as [H1 H2].
  destruct e; cbn [within_selection]; cbn in H1; try discriminate; auto.
Qed.

Lemma within_selection_app_talk (t1 t2 : list event) :
  forall selected : bool,
    within_selection selected t1 = true -> forallb talk_event t2 = true ->
    within_selection selected (t1 ++ t2) = true.
Proof.
  induction t1 as [|e t1 IH]; intros selected H1 H2.
  - now apply within_selection_talk.
  - destruct e; cbn [app within_selection] in *;
      try (apply andb_true_iff in H1 as [-> H1]; cbn [andb]); auto.
Qed.

Section SelectionFacts.
Context {W : Type}.
Variable mail : Session W.
Variable account : Account W.
Variable fs : FileSystem W.
Variable lib : Library.
Variable args : Args.
Variable list_args : ListArgs.
Variable stack_room : nat.
Variable str_lower : pystr -> pystr.
Variable list_repr : list pystr -> pystr.

Lemma main_folders_within_selection (remote_folders_map : list folder_entry)
  (names : list pystr) :
  forall w : W,
    within_selection false
      (snd (main_folders mail fs lib args stack_room remote_folders_map
                         names w)) = true.
Proof.
  induction names as [|folder rest IH]; intros w; [reflexivity|].
  cbn [main_folders]. unfold bind, print, call, raise.
  destruct (filter _ remote_folders_map) as [|f _]; [reflexivity|].
  destruct (mail_select mail (original f) w) as [[rv|e] w1]; [|reflexivity].
  destruct (is_ok rv) eqn:R; [|reflexivity].
  pose proof (process_kinds mail fs lib args stack_room (original f) w1) as P.
  destruct (process mail fs lib args stack_room (original f) w1)
    as [[[v|e] w2] t2]; cbn [snd] in P.
  - destruct (mail_close mail w2) as [[u|e] w3].
    + specialize (IH w3).
      destruct (main_folders mail fs lib args stack_room remote_folders_map
                  rest w3) as [[r w4] t4]. cbn [snd] in *.
      cbn [app within_selection select_succeeded negb andb]. rewrite ?R.
      rewrite (within_selection_folder_events _ _ _ P).
      cbn [app within_selection andb]. exact IH.
    + cbn [snd app within_selection select_succeeded negb andb]. rewrite ?R.
      rewrite (within_selection_folder_events _ _ _ P). reflexivity.
  - cbn [snd app within_selection select_succeeded negb andb]. rewrite ?R.
    rewrite ?app_nil_r. rewrite <- (app_nil_r t2).
    rewrite (within_selection_folder_events _ _ _ P). reflexivity.
Qed.

Lemma main_body_within_selection (w : W) :
  within_selection false
    (snd (main_body mail account fs lib args list_args stack_room str_lower
                    list_repr w)) = true.
Proof.
  unfold main_body, bind, call_unrecorded, lift, print, raise, ret.
  destruct (mail_login account w) as [[u|e] w1]; [|reflexivity].
  destruct (mail_list account w1) as [[lines|e] w2]; [|reflexivity].
  destruct (build_folders_map str_lower lines) as [entries|e]; [|reflexivity].
  destruct (list_only list_args).
  - pose proof (print_listing_talks lines w2) as P.
    destruct (print_listing lines w2) as [[r w3] t3]. cbn [snd] in *.
    now apply within_selection_talk.
  - destruct (pystr_eqb (remote_folder list_args) (lit "*")).
    + destruct (wildcard_names str_lower lines) as [names|e]; [|reflexivity].
      pose proof (main_folders_within_selection entries names w2) as P.
      destruct (main_folders mail fs lib args stack_room entries names w2)
        as [[r w3] t3]. exact P.
    + destruct (some_name_unknown _ entries); [reflexivity|].
      pose proof (main_folders_within_selection entries
                    (requested_names list_args str_lower) w2) as P.
      destruct (main_folders mail fs lib args stack_room entries _ w2)
        as [[r w3] t3]. exact P.
Qed.

End SelectionFacts.

(** X18: in every run, each search, fetch, UID command and expunge is issued
    while a folder is selected, that is between a [select] that answered
    ['OK'] and the next [close]; a folder is selected only while none is,
    and closed only while one is. *)
Theorem mailbox_commands_stay_within_a_selected_folder
  {W : Type} (mail : Session W) (account : Account W) (fs : FileSystem W)
  (lib : Library) (args : Args) (list_args : ListArgs) (stack_room : nat)
  (str_lower : pystr -> pystr) (list_repr : list pystr -> pystr) (w : W) :
  within_selection false
    (snd (main mail account fs lib args list_args stack_room str_lower
               list_repr w)) = true.
Proof.
  pose proof (main_cases mail account fs lib args list_args stack_room
                str_lower list_repr w) as C.
  pose proof (main_body_within_selection mail account fs lib args list_args
                stack_room str_lower list_repr w) as K.
  destruct (main mail account fs lib args list_args stack_room str_lower
                 list_repr w) as [[r w'] t].
  destruct (main_body mail account fs lib args list_args stack_room str_lower
                      list_repr w) as [[rb wb] tb].
  destruct C as (tail & -> & T). cbn [snd] in *.
  rewrite <- app_assoc. apply within_selection_app_talk; [exact K|].
  destruct r; destruct T as [-> _]; destruct rb; reflexivity.
Qed.

(* ========================================================================= *)
(** * What [delete] raises leaves [process] *)

Section DeletePropagates.
Context {W : Type}.
Variable mail : Session W.
Variable fs : FileSystem W.
Variable lib : Library.
Variable args : Args.
Variable stack_room : nat.

(** One round of the loop with the delete option is the round without it,
    then [delete]; the round raises what [delete] raises. *)
Lemma process_message_then_delete (folder : pystr) (c : Z) (num : pybytes)
  (w : W) :
  process_message mail fs lib args stack_room folder c num w =
  (let '(r1, w1, t1) :=
     process_message mail fs lib (keep_remote args) stack_room folder c num w in
   match r1, delete_remote args with
   | Ok c', Some _ =>
       let '(r2, w2, t2) := delete mail lib args stack_room num w1 in
       (match r2 with Ok _ => Ok c' | Raise e => Raise e end, w2, t1 ++ t2)
   | _, _ => (r1, w1, t1)
   end).
Proof.
  unfold process_message, fetch_message, keep_remote. unfold_stmt.
  cbn [local_folder delete_remote trash_folder].
  repeat run_step.
  all: cbn [app]; rewrite ?app_nil_r; reflexivity.
Qed.

Lemma process_message_kept_no_attempt (folder : pystr) (c : Z)
  (num : pybytes) (w : W) :
  delete_attempts
    (snd (process_message mail fs lib (keep_remote args) stack_room folder c
                          num w)) = 0%nat.
Proof.
  unfold process_message, fetch_message, keep_remote. unfold_stmt.
  cbn [local_folder delete_remote trash_folder].
  repeat run_step; reflexivity.
Qed.

(** The loop over a list of numbers in two parts. *)
Lemma process_loop_app (folder : pystr) (pre rest : list pybytes) :
  forall (c : Z) (w : W),
    process_loop mail fs lib args stack_room folder c (pre ++ rest) w =
    (let '(r1, w1, t1) :=
       process_loop mail fs lib args stack_room folder c pre w in
     match r1 with
     | Ok c1 =>
         let '(r2, w2, t2) :=
           process_loop mail fs lib args stack_room folder c1 rest w1 in
         (r2, w2, t1 ++ t2)
     | Raise e => (Raise e, w1, t1)
     end).
Proof.
  induction pre as [|num pre IH]; intros c w.
  - cbn [app process_loop]. unfold ret.
    now destruct (process_loop mail fs lib args stack_room folder c rest w)
      as [[r2 w2] t2].
  - cbn [app process_loop]. unfold bind.
    destruct (process_message mail fs lib args stack_room folder c num w)
      as [[[c1|e] w1] t1]; [|reflexivity].
    rewrite IH.
    destruct (process_loop mail fs lib args stack_room folder c1 pre w1)
      as [[[c2|e] w2] t2]; [|reflexivity].
    destruct (process_loop mail fs lib args stack_room folder c2 rest w2)
      as [[r3 w3] t3]. now rewrite app_assoc.
Qed.

(** What a round raises, [process] raises: the rounds before it returned,
    and no round follows. *)
Lemma process_raises_what_a_round_raises (folder : pystr) (w w1 w2 w3 : W)
  (rv : pystr) (data0 : pybytes) (pre post : list pybytes) (num : pybytes)
  (c1 : Z) (t1 t2 : list event) (e : exn) :
  mail_search mail w = (Ok (rv, data0), w1) ->
  is_ok rv = true ->
  os_isdir fs (local_folder args) w1 = true ->
  bytes_split data0 = pre ++ num :: post ->
  process_loop mail fs lib args stack_room folder 0 pre w1 = (Ok c1, w2, t1) ->
  process_message mail fs lib args stack_room folder c1 num w2
  = (Raise e, w3, t2) ->
  exists before : list event,
    process mail fs lib args stack_room folder w = (Raise e, w3, before ++ t2).
Proof.
  intros S K D B L R.
  unfold process, bind, call, query, print, raise, ret.
  rewrite S, K. cbn [negb]. rewrite D. cbn [negb].
  rewrite B, process_loop_app, L.
  cbn [process_loop]. unfold bind. rewrite R.
  exists ([EvSearch (Ok (rv, data0));
           EvPrint (str_of_int (py_len data0) ++ lit " messages found!");
           EvCheckLocalFolder (local_folder args) true] ++ t1).
  cbn [app]. rewrite <- ?app_assoc. reflexivity.
Qed.

(** The folder loop over a list of names in two parts. *)
Lemma main_folders_app (remote_folders_map : list folder_entry)
  (pre rest : list pystr) :
  forall w : W,
    main_folders mail fs lib args stack_room remote_folders_map (pre ++ rest) w =
    (let '(r1, w1, t1) :=
       main_folders mail fs lib args stack_room remote_folders_map pre w in
     match r1 with
     | Ok _ =>
         let '(r2, w2, t2) :=
           main_folders mail fs lib args stack_room remote_folders_map rest w1 in
         (r2, w2, t1 ++ t2)
     | Raise e => (Raise e, w1, t1)
     end).
Proof.
  induction pre as [|folder pre IH]; intros w.
  - cbn [app main_folders]. unfold ret.
    now destruct (main_folders mail fs lib args stack_room remote_folders_map
                    rest w) as [[r2 w2] t2].
  - cbn [app main_folders]. unfold bind, print, call, raise.
    destruct (filter _ remote_folders_map) as [|f _]; [reflexivity|].
    destruct (mail_select mail (original f) w) as [[rv|e] w1]; [|reflexivity].
    destruct (is_ok rv); [|reflexivity].
    destruct (process mail fs lib args stack_room (original f) w1)
      as [[[v|e] w2] t2]; [|reflexivity].
    destruct (mail_close mail w2) as [[u|e] w3]; [|reflexivity].
    rewrite IH.
    destruct (main_folders mail fs lib args stack_room remote_folders_map
                pre w3) as [[[u'|e] w4] t4].
    + destruct (main_folders mail fs lib args stack_room remote_folders_map
                  rest w4) as [[r5 w5] t5].
      cbn [app]. now rewrite <- !app_assoc.
    + reflexivity.
Qed.

(** What [process] raises, the folder loop raises: the folders before it
    were exported and closed, the folder is not closed, and no folder
    follows. *)
Lemma main_folders_raises_what_process_raises
  (remote_folders_map : list folder_entry) (pre post : list pystr)
  (name : pystr) (f : folder_entry) (others : list folder_entry)
  (w w1 w2 w3 : W) (rv : pystr) (t1 t3 : list event) (e : exn) :
  main_folders mail fs lib args stack_room remote_folders_map pre w
  = (Ok tt, w1, t1) ->
  filter (fun g => pystr_eqb (lower g) name) remote_folders_map = f :: others ->
  mail_select mail (original f) w1 = (Ok rv, w2) ->
  is_ok rv = true ->
  process mail fs lib args stack_room (original f) w2 = (Raise e, w3, t3) ->
  exists before : list event,
    main_folders mail fs lib args stack_room remote_folders_map
                 (pre ++ name :: post) w
    = (Raise e, w3, before ++ t3).
Proof.
  intros M F S K P. rewrite main_folders_app, M.
  cbn [main_folders]. unfold bind, print, call, raise.
  rewrite F, S, K, P. eexists. cbn [app]. rewrite ?app_nil_r.
  change (t1 ++ EvPrint name :: EvSelect (original f) (Ok rv)
             :: EvPrint (lit "Processing mailbox: " ++ original f) :: t3)
    with (t1 ++ [EvPrint name; EvSelect (original f) (Ok rv);
                 EvPrint (lit "Processing mailbox: " ++ original f)] ++ t3).
  rewrite app_assoc. reflexivity.
Qed.

Variable option_value : pystr.
Hypothesis delete_requested : delete_remote args = Some option_value.
Hypothesis permanent_failure : delete_never_works mail lib args.

Lemma delete_gives_up (room : nat) (num : pybytes) :
  forall w : W,
  exists (w' : W) (t : list event),
    delete mail lib args room num w = (Raise RecursionError, w', t).
Proof.
  induction room as [|room IH]; intros w; [exists w, []; reflexivity|].
  destruct (permanent_failure num w) as [e E].
  destruct (delete_attempt mail lib args num w) as [[[v|e'] w1] t1] eqn:A;
    cbn [fst] in E; [discriminate|].
  rewrite (delete_retry mail lib args room num w _ _ _ A).
  destruct (IH w1) as (w' & t & D). rewrite D. eauto.
Qed.

Lemma process_message_gives_up (folder : pystr) (c : Z) (num : pybytes)
  (w : W) :
  let '(r, _, t) := process_message mail fs lib args stack_room folder c num w in
  exists e : exn,
    r = Raise e /\ (delete_attempts t <> 0%nat -> e = RecursionError).
Proof.
  rewrite process_message_then_delete.
  pose proof (process_message_kept_no_attempt folder c num w) as K.
  destruct (process_message mail fs lib (keep_remote args) stack_room folder c
              num w) as [[[c'|e] w1] t1]; cbn [snd] in K.
  - rewrite delete_requested.
    destruct (delete_gives_up stack_room num w1) as (w' & t & ->).
    exists RecursionError. auto.
  - exists e. split; [reflexivity|]. intros N. contradiction.
Qed.

Lemma process_loop_gives_up (folder : pystr) (nums : list pybytes) :
  forall (c : Z) (w : W),
    let '(r, _, t) := process_loop mail fs lib args stack_room folder c nums w in
    (delete_attempts t <> 0%nat -> r = Raise RecursionError) /\
    (forall c' : Z, r = Ok c' -> delete_attempts t = 0%nat).
Proof.
  destruct nums as [|num rest]; intros c w;
    [split; [intros N; exfalso; apply N; reflexivity|reflexivity]|].
  cbn [process_loop]. unfold bind.
  pose proof (process_message_gives_up folder c num w) as P.
  destruct (process_message mail fs lib args stack_room folder c num w)
    as [[r1 w1] t1].
  destruct P as (e & -> & P). split.
  - intros N. now rewrite (P N).
  - discriminate.
Qed.

Lemma process_gives_up (folder : pystr) (w : W) :
  let '(r, _, t) := process mail fs lib args stack_room folder w in
  (delete_attempts t <> 0%nat -> r = Raise RecursionError) /\
  (forall v : pyvalue, r = Ok v -> delete_attempts t = 0%nat).
Proof.
  pose proof (process_cases mail fs lib args stack_room folder w) as C.
  destruct (process mail fs lib args stack_room folder w) as [[r w'] t].
  destruct (mail_search mail w) as [[[rv data0]|e] w1].
  - destruct (is_ok rv).
    + cbv zeta in C. destruct (os_isdir fs (local_folder args) w1).
      * pose proof (process_loop_gives_up folder (bytes_split data0) 0 w1) as L.
        destruct (process_loop mail fs lib args stack_room folder 0
                    (bytes_split data0) w1) as [[r2 w2] t2].
        destruct C as [-> ->]. destruct L as [L1 L2]. split.
        -- intros N. now rewrite (L1 N).
        -- intros v E. destruct r2 as [c'|e]; [|discriminate].
           exact (L2 c' eq_refl).
      * destruct C as [-> ->]. split; [intros N; exfalso; apply N; reflexivity|auto].
    + destruct C as [-> ->]. split; [intros N; exfalso; apply N; reflexivity|auto].
  - destruct C as [-> ->]. split; [intros N; exfalso; apply N; reflexivity|auto].
Qed.

Lemma main_folders_gives_up (remote_folders_map : list folder_entry)
  (names : list pystr) :
  forall w : W,
    let '(r, _, t) :=
      main_folders mail fs lib args stack_room remote_folders_map names w in
    delete_attempts t <> 0%nat -> r = Raise RecursionError.
Proof.
  induction names as [|folder rest IH]; intros w;
    [intros N; exfalso; apply N; reflexivity|].
  cbn [main_folders]. unfold bind, print, call, raise.
  destruct (filter _ remote_folders_map) as [|f _];
    [intros N; exfalso; apply N; reflexivity|].
  destruct (mail_select mail (original f) w) as [[rv|e] w1];
    [|intros N; exfalso; apply N; reflexivity].
  destruct (is_ok rv); [|intros N; exfalso; apply N; reflexivity].
  pose proof (process_gives_up (original f) w1) as P.
  destruct (process mail fs lib args stack_room (original f) w1)
    as [[[v|e] w2] t2]; destruct P as [P1 P2].
  - specialize (P2 v eq_refl).
    destruct (mail_close mail w2) as [[u|e] w3].
    + specialize (IH w3).
      destruct (main_folders mail fs lib args stack_room remote_folders_map
                  rest w3) as [[r w4] t4].
      change (delete_attempts (t2 ++ EvClose :: t4) <> 0%nat
              -> r = Raise RecursionError).
      rewrite delete_attempts_app, P2. exact IH.
    + change (delete_attempts (t2 ++ [EvClose]) <> 0%nat
              -> Raise (A := unit) e = Raise RecursionError).
      rewrite delete_attempts_app, P2. intros N. exfalso. apply N. reflexivity.
  - change (delete_attempts t2 <> 0%nat
            -> Raise (A := unit) e = Raise RecursionError).
    intros N.
    pose proof (P1 N) as Q. inversion Q. reflexivity.
Qed.

Lemma main_export_reports_recursion_error
  (remote_folders_map : list folder_entry) (names : list pystr) (w : W) :
  let t := snd (main_export mail fs lib args stack_room remote_folders_map
                            names w) in
  delete_attempts t <> 0%nat -> reported t = [RecursionError].
Proof.
  cbv zeta. unfold main_export, try_finally, try_except, call.
  pose proof (main_folders_gives_up remote_folders_map names w) as G.
  pose proof (main_folders_kinds mail fs lib args stack_room
                remote_folders_map names w) as K.
  destruct (main_folders mail fs lib args stack_room remote_folders_map
              names w) as [[r w1] t1]. cbn [snd] in K.
  destruct (forallb_no_logout _ t1 K) as [_ R0].
  assert (A : forall post : list event,
             delete_attempts post = 0%nat ->
             delete_attempts (t1 ++ post) <> 0%nat -> r = Raise RecursionError).
  { intros post Z N. apply G. rewrite delete_attempts_app, Z in N. lia. }
  destruct r as [u|e]; destruct (mail_logout mail w1) as [[u'|e'] w2];
    cbn [snd]; intros N.
  - now pose proof (A [EvLogout] eq_refl N).
  - now pose proof (A [EvLogout] eq_refl N).
  - rewrite <- app_assoc in N.
    pose proof (A ([EvReportError e] ++ [EvLogout]) eq_refl N) as Q.
    inversion Q. rewrite <- app_assoc, reported_app, R0. reflexivity.
  - rewrite <- app_assoc in N.
    pose proof (A ([EvReportError e] ++ [EvLogout]) eq_refl N) as Q.
    inversion Q. rewrite <- app_assoc, reported_app, R0. reflexivity.
Qed.

End DeletePropagates.

(** A UID fetch that raises in every state is a permanent failure; the run
    then ends as the lemmas say. *)
Example uid_fetch_down_never_works :
  delete_never_works uid_fetch_down Demo.library Demo.args_delete /\
  reported (snd (main_export uid_fetch_down Demo.file_system Demo.library
                             Demo.args_delete 7 Demo.folders_map
                             [lit "inbox"] Demo.start))
  = [RecursionError].
Proof.
  assert (F : delete_never_works uid_fetch_down Demo.library Demo.args_delete).
  { intros num w. eexists. reflexivity. }
  split; [exact F|].
  apply (main_export_reports_recursion_error uid_fetch_down Demo.file_system
           Demo.library Demo.args_delete 7 (lit "delete") eq_refl F).
  vm_compute. discriminate.
Qed.

(** C7 (amended): every attempt starts at the UID fetch, and an exception
    anywhere in an attempt sends [delete] into a nested call of itself,
    hence into a new attempt; the exception of the attempt never leaves
    [delete].  The nesting is bounded by the room the interpreter leaves:
    [delete] makes at most [room] attempts, and when it raises, it raises
    [RecursionError] after exactly [room] of them.  What [delete] raises
    leaves [process] and reaches the top-level handler: a round of the loop
    is the round without the delete option followed by [delete], and raises
    what [delete] raises; [process] raises what a round raises; the folder
    loop raises what [process] raises; and what the folder loop raises, the
    top-level handler reports.  Under a permanent failure (every attempt
    raises) [delete] always ends in [RecursionError], no round returns, and
    once a deletion has begun, [process] and the folder loop raise
    [RecursionError] and the top-level handler reports it and nothing
    else. *)
Theorem delete_retries_while_stack_lasts
  {W : Type} (mail : Session W) (fs : FileSystem W) (lib : Library)
  (args : Args) :
  (forall (num : pybytes) (w : W),
      exists (resp : outcome (pystr * pybytes)) (rest : list event),
        snd (delete_attempt mail lib args num w) = EvFetchUid num resp :: rest) /\
  (forall (room : nat) (num : pybytes) (w w1 : W) (e : exn) (t1 : list event),
      delete_attempt mail lib args num w = (Raise e, w1, t1) ->
      delete mail lib args (S room) num w =
      (let '(r, w2, t2) := delete mail lib args room num w1 in
       (r, w2, EvPrint (lit " Deleting... ") :: t1 ++ t2))) /\
  (forall (room : nat) (num : pybytes) (w : W),
      (delete_attempts (snd (delete mail lib args room num w)) <= room)%nat) /\
  (forall (room : nat) (num : pybytes) (w w' : W) (e : exn) (t : list event),
      delete mail lib args room num w = (Raise e, w', t) ->
      e = RecursionError /\ delete_attempts t = room) /\
  (forall (room : nat) (remote_folders_map : list folder_entry)
          (remote_folder : list pystr) (w w' : W) (e : exn) (t : list event),
      main_folders mail fs lib args room remote_folders_map remote_folder w
      = (Raise e, w', t) ->
      In e (reported (snd (main_export mail fs lib args room remote_folders_map
                                       remote_folder w)))) /\
  (forall (room : nat) (folder : pystr) (c : Z) (num : pybytes) (w : W),
      process_message mail fs lib args room folder c num w =
      (let '(r1, w1, t1) :=
         process_message mail fs lib (keep_remote args) room folder c num w in
       match r1, delete_remote args with
       | Ok c', Some _ =>
           let '(r2, w2, t2) := delete mail lib args room num w1 in
           (match r2 with Ok _ => Ok c' | Raise e => Raise e end, w2, t1 ++ t2)
       | _, _ => (r1, w1, t1)
       end)) /\
  (forall (room : nat) (folder : pystr) (w w1 w2 w3 : W) (rv : pystr)
          (data0 : pybytes) (pre post : list pybytes) (num : pybytes)
          (c1 : Z) (t1 t2 : list event) (e : exn),
      mail_search mail w = (Ok (rv, data0), w1) ->
      is_ok rv = true ->
      os_isdir fs (local_folder args) w1 = true ->
      bytes_split data0 = pre ++ num :: post ->
      process_loop mail fs lib args room folder 0 pre w1 = (Ok c1, w2, t1) ->
      process_message mail fs lib args room folder c1 num w2
      = (Raise e, w3, t2) ->
      exists before : list event,
        process mail fs lib args room folder w = (Raise e, w3, before ++ t2)) /\
  (forall (room : nat) (remote_folders_map : list folder_entry)
          (pre post : list pystr) (name : pystr) (f : folder_entry)
          (others : list folder_entry) (w w1 w2 w3 : W) (rv : pystr)
          (t1 t3 : list event) (e : exn),
      main_folders mail fs lib args room remote_folders_map pre w
      = (Ok tt, w1, t1) ->
      filter (fun g => pystr_eqb (lower g) name) remote_folders_map
      = f :: others ->
      mail_select mail (original f) w1 = (Ok rv, w2) ->
      is_ok rv = true ->
      process mail fs lib args room (original f) w2 = (Raise e, w3, t3) ->
      exists before : list event,
        main_folders mail fs lib args room remote_folders_map
                     (pre ++ name :: post) w
        = (Raise e, w3, before ++ t3)) /\
  (forall (room : nat) (option_value : pystr),
      delete_remote args = Some option_value ->
      delete_never_works mail lib args ->
      (forall (num : pybytes) (w : W),
          exists (w' : W) (t : list event),
            delete mail lib args room num w = (Raise RecursionError, w', t)) /\
      (forall (folder : pystr) (c : Z) (num : pybytes) (w : W),
          let '(r, _, t) := process_message mail fs lib args room folder c num w in
          exists e : exn,
            r = Raise e /\ (delete_attempts t <> 0%nat -> e = RecursionError)) /\
      (forall (folder : pystr) (w : W),
          let '(r, _, t) := process mail fs lib args room folder w in
          delete_attempts t <> 0%nat -> r = Raise RecursionError) /\
      (forall (remote_folders_map : list folder_entry)
              (remote_folder : list pystr) (w : W),
          let '(r, _, t) :=
            main_folders mail fs lib args room remote_folders_map
                         remote_folder w in
          delete_attempts t <> 0%nat -> r = Raise RecursionError) /\
      (forall (remote_folders_map : list folder_entry)
              (remote_folder : list pystr) (w : W),
          let t := snd (main_export mail fs lib args room remote_folders_map
                                    remote_folder w) in
          delete_attempts t <> 0%nat -> reported t = [RecursionError])).
Proof.
  split; [|split; [|split; [|split; [|split; [|split; [|split; [|split]]]]]]].
  - intros. apply delete_attempt_starts_at_uid.
  - intros room num w w1 e t1 H. now apply (delete_retry mail lib args room num w w1 e t1).
  - intros. apply delete_attempts_bound.
  - intros. eapply delete_raises_recursion_error; eauto.
  - intros room m fo w w' e t H.
    unfold main_export, try_finally, try_except, call. rewrite H.
    destruct (mail_logout mail w') as [[u|e2] w2]; cbn [snd];
      rewrite !reported_app; cbn; rewrite ?app_nil_r; apply in_or_app; right;
      now left.
  - intros. apply process_message_then_delete.
  - intros room folder w w1 w2 w3 rv data0 pre post num c1 t1 t2 e.
    apply process_raises_what_a_round_raises.
  - intros room m pre post name f others w w1 w2 w3 rv t1 t3 e.
    apply main_folders_raises_what_process_raises.
  - intros room option_value D F.
    split; [|split; [|split; [|split]]].
    + intros num w. exact (delete_gives_up mail lib args F room num w).
    + intros folder c num w.
      exact (process_message_gives_up mail fs lib args room option_value D F
               folder c num w).
    + intros folder w.
      pose proof (process_gives_up mail fs lib args room option_value D F
                    folder w) as P.
      destruct (process mail fs lib args room folder w) as [[r w'] t].
      exact (proj1 P).
    + intros m names w.
      exact (main_folders_gives_up mail fs lib args room option_value D F
               m names w).
    + intros m names w.
      exact (main_export_reports_recursion_error mail fs lib args room
               option_value D F m names w).
Qed.
